(** * CollaborativeJsonEditor: the synchronisation core

    A shallow embedding of the backend of the collaborative editor
    (WebSocketHandler, RoomManager, CrdtService, RedisService) and the
    properties of its specification.

    Conventions of the embedding.
    - A [Buffer] / [Uint8Array] is a list of bytes ([ascii]); a JavaScript
      string is a [string] holding the UTF-8 encoding of its text, so that
      [Buffer.toString("utf8")] is the identity on well-formed input and
      substitutes U+FFFD (EF BF BD) for every ill-formed subsequence.
    - A [Map<string, V>] is a [gmap string V], a [Set<string>] a
      [gset string]; objects mutated in place are fields of the [Server]
      state that the methods thread through the monad [M].
    - Yjs, [JSON.parse], base64, the clock and the Redis transport are the
      interface [Platform]; a thrown exception is the completion [Thrown].
    - A handler runs to completion: the only code after an [await] sends
      frames, logs or records metrics.  Logging is not modelled. *)

From Stdlib Require Import ZArith Ascii String List Lia.
From stdpp Require Import base option gmap strings list fin_maps fin_sets.

Open Scope Z_scope.

(** ** Buffers *)

Abbreviation Buffer := (list ascii).

Definition byte_val (b : ascii) : Z := Z.of_N (N_of_ascii b).

Definition buf_length (b : Buffer) : Z := Z.of_nat (length b).

(** [buffer.slice(start, end)] for [0 <= start]. *)
Definition slice (b : Buffer) (start stop : Z) : Buffer :=
  take (Z.to_nat (stop - start)) (drop (Z.to_nat start) b).

(** Little-endian value of a run of bytes. *)
Fixpoint le_value (bs : Buffer) : Z :=
  match bs with
  | [] => 0
  | b :: rest => byte_val b + 256 * le_value rest
  end.

(** The [readUInt*LE] family raises [RangeError] when the field does not
    lie inside the buffer: [None]. *)
Definition read_le (width : Z) (b : Buffer) (offset : Z) : option Z :=
  if bool_decide (0 <= offset ∧ offset + width <= buf_length b)
  then Some (le_value (slice b offset (offset + width)))
  else None.

Definition readUInt8 := read_le 1.
Definition readUInt16LE := read_le 2.
Definition readUInt32LE := read_le 4.
Definition readBigUInt64LE := read_le 8.

(** [Number(n)] for a non-negative [BigInt] below [2^64]: the nearest
    double, ties to even; every such double is an integer. *)
Definition Number_of_BigInt (n : Z) : Z :=
  if n <? 2 ^ 53 then n
  else
    let e := Z.log2 n - 52 in
    let q := Z.shiftr n e in
    let r := n - Z.shiftl q e in
    let half := Z.shiftl 1 (e - 1) in
    let q' := if r <? half then q
              else if half <? r then q + 1
              else if Z.even q then q else q + 1 in
    Z.shiftl q' e.

(** ** UTF-8 text *)

Definition in_range (lo hi : Z) (b : ascii) : bool :=
  (lo <=? byte_val b) && (byte_val b <=? hi).

Definition REPLACEMENT : Buffer :=
  [ascii_of_N 239; ascii_of_N 191; ascii_of_N 189].

(** The state a lead byte puts the decoder in: the number of continuation
    bytes still needed and the range allowed for the next one; [None] for
    a byte that cannot start a sequence. *)
Definition utf8_lead (b : ascii) : option (nat * Z * Z) :=
  let v := byte_val b in
  if in_range 194 223 b then Some (1%nat, 128, 191)
  else if in_range 224 239 b then
    Some (2%nat, if v =? 224 then 160 else 128, if v =? 237 then 159 else 191)
  else if in_range 240 244 b then
    Some (3%nat, if v =? 240 then 144 else 128, if v =? 244 then 143 else 191)
  else None.

(** The decoder of [Buffer.toString("utf8")]: [pending] holds the bytes
    of the sequence being read (in reverse), [needed] the continuation
    bytes it still lacks.  A byte outside the allowed range ends the
    sequence with one U+FFFD and is read again as a first byte. *)
Fixpoint utf8_run (pending : Buffer) (needed : nat) (lo hi : Z)
    (bs : Buffer) : Buffer :=
  let first (b : ascii) (k : Buffer → nat → Z → Z → Buffer) : Buffer :=
    if byte_val b <? 128 then b :: k [] 0%nat 128 191
    else match utf8_lead b with
         | Some (n, lo', hi') => k [b] n lo' hi'
         | None => REPLACEMENT ++ k [] 0%nat 128 191
         end in
  match bs with
  | [] => match needed with 0%nat => [] | _ => REPLACEMENT end
  | b :: rest =>
      let k p n l h := utf8_run p n l h rest in
      match needed with
      | 0%nat => first b k
      | S n =>
          if in_range lo hi b then
            match n with
            | 0%nat => rev (b :: pending) ++ k [] 0%nat 128 191
            | _ => k (b :: pending) n 128 191
            end
          else REPLACEMENT ++ first b k
      end
  end.

Definition Buffer_toString_utf8 (b : Buffer) : string :=
  string_of_list_ascii (utf8_run [] 0%nat 128 191 b).

(** [WhiteSpace] and [LineTerminator] of ECMAScript, UTF-8 encoded: what
    [String.prototype.trim] strips.  [ws_prefix s] is the length of the
    white-space character [s] starts with, if any. *)
Definition ws_prefix (s : Buffer) : option nat :=
  match map byte_val s with
  | 9 :: _ | 10 :: _ | 11 :: _ | 12 :: _ | 13 :: _ | 32 :: _ => Some 1%nat
  | 194 :: 160 :: _ => Some 2%nat                      (* U+00A0 *)
  | 225 :: 154 :: 128 :: _ => Some 3%nat               (* U+1680 *)
  | 226 :: 128 :: c :: _ =>                            (* U+2000..U+200A, *)
      if (128 <=? c) && (c <=? 138) || (c =? 168) || (c =? 169) || (c =? 175)
      then Some 3%nat else None                        (* U+2028/9, U+202F *)
  | 226 :: 129 :: 159 :: _ => Some 3%nat               (* U+205F *)
  | 227 :: 128 :: 128 :: _ => Some 3%nat               (* U+3000 *)
  | 239 :: 187 :: 191 :: _ => Some 3%nat               (* U+FEFF *)
  | _ => None
  end.

(** [skip] bytes of the current white-space character are still to be
    dropped. *)
Fixpoint trimStart_run (skip : nat) (s : Buffer) {struct s} : Buffer :=
  match s with
  | [] => []
  | _ :: rest =>
      match skip with
      | S k => trimStart_run k rest
      | 0%nat =>
          match ws_prefix s with
          | Some (S k) => trimStart_run k rest
          | _ => s
          end
      end
  end.

Fixpoint all_ws_run (skip : nat) (s : Buffer) {struct s} : bool :=
  match s with
  | [] => match skip with 0%nat => true | _ => false end
  | _ :: rest =>
      match skip with
      | S k => all_ws_run k rest
      | 0%nat =>
          match ws_prefix s with
          | Some (S k) => all_ws_run k rest
          | _ => false
          end
      end
  end.

Fixpoint trimEnd_run (s : Buffer) : Buffer :=
  match s with
  | [] => []
  | c :: rest => if all_ws_run 0 s then [] else c :: trimEnd_run rest
  end.

(** [s.trim()] *)
Definition trim (s : string) : string :=
  string_of_list_ascii (trimEnd_run (trimStart_run 0 (list_ascii_of_string s))).

(** [s.startsWith(p)] *)
Definition startsWith (p s : string) : bool := String.prefix p s.

(** The test both decode paths use: [jsonStr.trim().startsWith("{")]. *)
Definition looksLikeJson (jsonStr : string) : bool :=
  startsWith "{" (trim jsonStr).

Definition bytes_of (s : string) : Buffer := list_ascii_of_string s.

(** ** The binary frame (WebSocketHandler.decodeBinaryDocumentUpdate)

    The reads of the decoder's [try] block, up to the point where the
    message is built: [Some (Some fields)] when they all succeed,
    [Some None] for each [return null], [None] when a read throws. *)
Definition readBinaryFrame (buffer : Buffer)
    : option (option (string * Z * Buffer)) :=
  if bool_decide (buf_length buffer < 15) then Some None else
  kind ← readUInt8 buffer 0;
  let offset := 1 in
  if bool_decide (kind ≠ 1) then Some None else
  roomLen ← readUInt16LE buffer offset;
  let offset := offset + 2 in
  if bool_decide (offset + roomLen > buf_length buffer) then Some None else
  let roomId := Buffer_toString_utf8 (slice buffer offset (offset + roomLen)) in
  let offset := offset + roomLen in
  if bool_decide (offset + 8 > buf_length buffer) then Some None else
  ts ← readBigUInt64LE buffer offset;
  let timestamp := Number_of_BigInt ts in
  let offset := offset + 8 in
  if bool_decide (offset + 4 > buf_length buffer) then Some None else
  updateLen ← readUInt32LE buffer offset;
  let offset := offset + 4 in
  if bool_decide (offset + updateLen ≠ buf_length buffer) then Some None else
  let updateBytes := slice buffer offset (offset + updateLen) in
  Some (Some (roomId, timestamp, updateBytes)).

(** ** Types (types/index.ts) *)

Record IClient := {
  client_id : string;
  client_roomId : string;
  client_instanceId : string;
  joinedAt : Z
}.

Record IRoom := {
  room_id : string;
  createdAt : Z;
  clientCount : nat;
  updatesCount : nat;
  lastUpdateAt : option Z
}.

Inductive MessageType :=
  | JOIN_ROOM | LEAVE_ROOM | DOCUMENT_UPDATE | DOCUMENT_STATE
  | SYNC_UPDATE | ERROR | ACK.

(** The payload shapes the handler builds and reads.  In a
    [DocumentUpdatePayload], [update = None] stands for an [update] field
    that is absent or not a string. *)
Inductive Payload :=
  | DocumentStatePayload (state : string) (timestamp : Z)
  | DocumentUpdatePayload (update : option string) (clientId : option string)
      (timestamp : Z)
  | AckPayload (message : string) (clientJoined clientLeft : option string)
  | ErrorPayload (error : string).

(** [IMessage]; an absent [roomId] is the empty string, which the
    handlers' [!roomId] tests treat alike. *)
Record IMessage := {
  type : MessageType;
  roomId : string;
  clientId : option string;
  payload : option Payload;
  timestamp : Z
}.

(** The object the handler publishes on a room's channel. *)
Record SyncUpdate := {
  sync_type : MessageType;
  sync_clientId : string;
  sync_update : string;
  sync_timestamp : Z;
  sync_instanceId : string
}.

(** [WebSocket.Data] *)
Inductive Data :=
  | DataString (s : string)
  | DataBuffer (b : Buffer)
  | DataArrayBuffer (b : Buffer)
  | DataBuffers (bs : list Buffer).

Inductive ReadyState := CONNECTING | OPEN | CLOSING | CLOSED.

(** A socket: its state and the messages [send] has accepted, oldest
    first (the frame sent is [JSON.stringify] of the message). *)
Record WebSocket := {
  readyState : ReadyState;
  sent : list IMessage
}.

(** A subscription callback; the handler's only one is the closure
    [(redisMessage) => this.handleRedisUpdate(roomId, redisMessage)]. *)
Inductive Callback := HandleRedisUpdate (roomId : string).

(** Commands handed to the two Redis clients. *)
Inductive RedisCommand :=
  | SUBSCRIBE (channel : string) (listener : Callback)
  | PUBLISH (channel : string) (message : SyncUpdate).

#[global] Instance MessageType_eq_dec : EqDecision MessageType.
Proof. solve_decision. Defined.
#[global] Instance ReadyState_eq_dec : EqDecision ReadyState.
Proof. solve_decision. Defined.
#[global] Instance Callback_eq_dec : EqDecision Callback.
Proof. solve_decision. Defined.

(** ** The platform: what the code calls and does not define *)

Class Platform := {
  (** [Y.Doc] and the values a shared map holds *)
  YDoc : Type;
  JsValue : Type;
  (** [new Y.Doc()] followed by [doc.getMap('state')] *)
  Y_Doc_new : YDoc;
  (** [Y.applyUpdate(doc, update)]: the document afterwards, and whether
      the call threw *)
  Y_applyUpdate : YDoc → Buffer → YDoc * bool;
  (** [Y.encodeStateAsUpdate(doc)] *)
  Y_encodeStateAsUpdate : YDoc → Buffer;
  (** [doc.getMap('state').set(key, value)] *)
  Y_Map_set : YDoc → string → JsValue → YDoc;
  (** [JSON.parse] at the three types the code reads it at; [None] when
      it throws.  For a record the entries are in [Object.entries]
      order. *)
  JSON_parse_IMessage : string → option IMessage;
  JSON_parse_Record : string → option (list (string * JsValue));
  JSON_parse_SyncUpdate : string → option SyncUpdate;
  (** [Buffer.from(s, "base64")] and [buffer.toString("base64")] *)
  Buffer_from_base64 : string → Buffer;
  Buffer_toString_base64 : Buffer → string;
  (** the value of the [n]-th call of [Date.now()] *)
  Date_now_at : nat → Z;
  (** whether the [n]-th command handed to a Redis client is rejected *)
  redis_rejects : nat → bool
}.

(** ** The server state and its monad *)

Record RoomManager := {
  rooms : gmap string IRoom;
  roomClients : gmap string (gset string);
  clients : gmap string IClient
}.

Record RedisService := {
  subscriptions : gmap string Callback;
  (** what was handed to the subscriber and publisher clients, oldest
      first *)
  commands : list RedisCommand
}.

Record MetricsService := {
  activeRoomsGauge : nat;
  connectedClientsGauge : nat;
  updatesPerSecondCounter : nat;
  updateLatencyHistogram : list Z;
  messagesProcessedCounter : nat;
  connectionErrorsCounter : nat
}.

Inductive Completion (A : Type) :=
  | Normal (a : A)
  | Thrown.
Arguments Normal {A} a.
Arguments Thrown {A}.

Section Server.
Context `{P : Platform}.

Record CrdtService := {
  documents : gmap string YDoc
}.

(** One instance.  [RoomManager] and [WebSocketHandler] hold the same
    [CrdtService] object: it is the one field [crdt].  [clock] counts the
    calls of [Date.now()]. *)
Record Server := {
  instanceId : string;
  roomManager : RoomManager;
  crdt : CrdtService;
  redis : RedisService;
  metrics : MetricsService;
  clientConnections : gmap string WebSocket;
  clock : nat
}.

Definition M (A : Type) : Type := Server → Server * Completion A.

#[export] Instance M_ret : MRet M := λ A a s, (s, Normal a).
#[export] Instance M_bind : MBind M := λ A B f m s,
  match m s with
  | (s', Normal a) => f a s'
  | (s', Thrown) => (s', Thrown)
  end.

Definition throw {A} : M A := λ s, (s, Thrown).

(** [try { body } catch { handler }] *)
Definition try_catch {A} (body handler : M A) : M A := λ s,
  match body s with
  | (s', Thrown) => handler s'
  | r => r
  end.

Definition gets {A} (f : Server → A) : M A := λ s, (s, Normal (f s)).
Definition modify (f : Server → Server) : M unit := λ s, (f s, Normal tt).

(** The state a computation leaves, and its completion. *)
Definition exec {A} (m : M A) (s : Server) : Server := fst (m s).
Definition result {A} (m : M A) (s : Server) : Completion A := snd (m s).

Definition with_roomManager (f : RoomManager → RoomManager) (s : Server) :=
  {| instanceId := instanceId s; roomManager := f (roomManager s);
     crdt := crdt s; redis := redis s; metrics := metrics s;
     clientConnections := clientConnections s; clock := clock s |}.
Definition with_crdt (f : CrdtService → CrdtService) (s : Server) :=
  {| instanceId := instanceId s; roomManager := roomManager s;
     crdt := f (crdt s); redis := redis s; metrics := metrics s;
     clientConnections := clientConnections s; clock := clock s |}.
Definition with_redis (f : RedisService → RedisService) (s : Server) :=
  {| instanceId := instanceId s; roomManager := roomManager s;
     crdt := crdt s; redis := f (redis s); metrics := metrics s;
     clientConnections := clientConnections s; clock := clock s |}.
Definition with_metrics (f : MetricsService → MetricsService) (s : Server) :=
  {| instanceId := instanceId s; roomManager := roomManager s;
     crdt := crdt s; redis := redis s; metrics := f (metrics s);
     clientConnections := clientConnections s; clock := clock s |}.
Definition with_clientConnections
    (f : gmap string WebSocket → gmap string WebSocket) (s : Server) :=
  {| instanceId := instanceId s; roomManager := roomManager s;
     crdt := crdt s; redis := redis s; metrics := metrics s;
     clientConnections := f (clientConnections s); clock := clock s |}.

Definition with_rooms (f : gmap string IRoom → gmap string IRoom) :=
  with_roomManager (λ rm,
    {| rooms := f (rooms rm); roomClients := roomClients rm;
       clients := clients rm |}).
Definition with_roomClients
    (f : gmap string (gset string) → gmap string (gset string)) :=
  with_roomManager (λ rm,
    {| rooms := rooms rm; roomClients := f (roomClients rm);
       clients := clients rm |}).
Definition with_clients (f : gmap string IClient → gmap string IClient) :=
  with_roomManager (λ rm,
    {| rooms := rooms rm; roomClients := roomClients rm;
       clients := f (clients rm) |}).
Definition with_documents (f : gmap string YDoc → gmap string YDoc) :=
  with_crdt (λ c, {| documents := f (documents c) |}).

(** [Date.now()] *)
Definition Date_now : M Z := λ s,
  ({| instanceId := instanceId s; roomManager := roomManager s;
      crdt := crdt s; redis := redis s; metrics := metrics s;
      clientConnections := clientConnections s; clock := S (clock s) |},
   Normal (Date_now_at (clock s))).

(** ** CrdtService *)

Definition getOrCreateDocument (roomId : string) : M YDoc :=
  docs ← gets (λ s, documents (crdt s));
  match docs !! roomId with
  | Some doc => mret doc
  | None =>
      let doc := Y_Doc_new in
      modify (with_documents (insert roomId doc));;
      mret doc
  end.

Definition getDocument (roomId : string) : M (option YDoc) :=
  gets (λ s, documents (crdt s) !! roomId).

(** The document object is mutated in place: the store holds its new
    state under the same key. *)
Definition applyJsonUpdate (roomId : string)
    (updateObj : list (string * JsValue)) : M unit :=
  try_catch
    (doc ← getOrCreateDocument roomId;
     modify (with_documents (insert roomId
       (foldl (λ d kv, Y_Map_set d kv.1 kv.2) doc updateObj))))
    throw.

Definition applyUpdate (roomId : string) (update : Buffer) : M unit :=
  try_catch
    (if bool_decide (length update = 0%nat) then mret tt
     else
       doc ← getOrCreateDocument roomId;
       let r := Y_applyUpdate doc update in
       modify (with_documents (insert roomId r.1));;
       if r.2 then throw else mret tt)
    throw.

Definition getDocumentState (roomId : string) : M Buffer :=
  doc ← getOrCreateDocument roomId;
  mret (Y_encodeStateAsUpdate doc).

Definition deleteDocument (roomId : string) : M unit :=
  doc ← getDocument roomId;
  match doc with
  | Some _ => modify (with_documents (delete roomId))
  | None => mret tt
  end.

(** ** RoomManager *)

Definition getOrCreateRoom (roomId : string) : M IRoom :=
  rs ← gets (λ s, rooms (roomManager s));
  match rs !! roomId with
  | Some room => mret room
  | None =>
      now ← Date_now;
      let room := {| room_id := roomId; createdAt := now; clientCount := 0;
                     updatesCount := 0; lastUpdateAt := None |} in
      modify (with_rooms (insert roomId room));;
      modify (with_roomClients (insert roomId ∅));;
      getOrCreateDocument roomId;;
      mret room
  end.

Definition set_clientCount (n : nat) (room : IRoom) : IRoom :=
  {| room_id := room_id room; createdAt := createdAt room; clientCount := n;
     updatesCount := updatesCount room; lastUpdateAt := lastUpdateAt room |}.

(** [this.roomClients.get(roomId)!] on a missing entry is a [TypeError]. *)
Definition addClientToRoom (clientId roomId instanceId : string) : M IClient :=
  getOrCreateRoom roomId;;
  now ← Date_now;
  let client := {| client_id := clientId; client_roomId := roomId;
                   client_instanceId := instanceId; joinedAt := now |} in
  modify (with_clients (insert clientId client));;
  rc ← gets (λ s, roomClients (roomManager s) !! roomId);
  match rc with
  | None => throw
  | Some members =>
      let members' := members ∪ {[clientId]} in
      modify (with_roomClients (insert roomId members'));;
      modify (with_rooms (alter (set_clientCount (size members')) roomId));;
      mret client
  end.

Definition deleteRoom (roomId : string) : M unit :=
  modify (with_rooms (delete roomId));;
  modify (with_roomClients (delete roomId));;
  deleteDocument roomId.

Definition removeClientFromRoom (clientId : string) : M unit :=
  c ← gets (λ s, clients (roomManager s) !! clientId);
  match c with
  | None => mret tt
  | Some client =>
      let r := client_roomId client in
      modify (with_roomClients (alter (λ members, members ∖ {[clientId]}) r));;
      members ← gets (λ s, roomClients (roomManager s) !! r);
      room ← gets (λ s, rooms (roomManager s) !! r);
      match room with
      | Some _ =>
          let n := from_option size 0%nat members in
          modify (with_rooms (alter (set_clientCount n) r));;
          if bool_decide (n = 0%nat) then deleteRoom r else mret tt
      | None => mret tt
      end;;
      modify (with_clients (delete clientId))
  end.

(** The members are enumerated in the order of [elements]; each is sent
    to on a socket of its own. *)
Definition getClientsInRoom (roomId : string) : M (list IClient) :=
  gets (λ s,
    let clientIds := default ∅ (roomClients (roomManager s) !! roomId) in
    omap (λ id, clients (roomManager s) !! id) (elements clientIds)).

Definition getOtherClientsInRoom (roomId excludeClientId : string)
    : M (list IClient) :=
  cs ← getClientsInRoom roomId;
  mret (filter (λ c, client_id c ≠ excludeClientId) cs).

Definition hasClient (clientId : string) : M bool :=
  gets (λ s, bool_decide (is_Some (clients (roomManager s) !! clientId))).

Definition getClient (clientId : string) : M (option IClient) :=
  gets (λ s, clients (roomManager s) !! clientId).

Definition recordUpdate (roomId : string) : M unit :=
  room ← gets (λ s, rooms (roomManager s) !! roomId);
  match room with
  | Some _ =>
      modify (with_rooms (alter (λ room,
        {| room_id := room_id room; createdAt := createdAt room;
           clientCount := clientCount room;
           updatesCount := S (updatesCount room);
           lastUpdateAt := lastUpdateAt room |}) roomId));;
      now ← Date_now;
      modify (with_rooms (alter (λ room,
        {| room_id := room_id room; createdAt := createdAt room;
           clientCount := clientCount room;
           updatesCount := updatesCount room;
           lastUpdateAt := Some now |}) roomId))
  | None => mret tt
  end.

Definition getRoom (roomId : string) : M (option IRoom) :=
  gets (λ s, rooms (roomManager s) !! roomId).

(** ** RedisService *)

(** Hand a command to a Redis client; the promise may reject. *)
Definition redis_command (c : RedisCommand) : M unit :=
  n ← gets (λ s, length (commands (redis s)));
  modify (with_redis (λ r,
    {| subscriptions := subscriptions r; commands := commands r ++ [c] |}));;
  if redis_rejects n then throw else mret tt.

Definition subscribe (channel : string) (callback : Callback) : M unit :=
  try_catch
    (modify (with_redis (λ r,
       {| subscriptions := <[channel := callback]> (subscriptions r);
          commands := commands r |}));;
     redis_command (SUBSCRIBE channel callback))
    throw.

(** The reply (the subscriber count) is only logged. *)
Definition publish (channel : string) (message : SyncUpdate) : M unit :=
  try_catch (redis_command (PUBLISH channel message)) throw.

(** [getStatus().subscribedChannels] *)
Definition subscribedChannels : M (list string) :=
  gets (λ s, elements (dom (subscriptions (redis s)))).

(** ** MetricsService *)

Definition incrementUpdates : M unit :=
  modify (with_metrics (λ m,
    {| activeRoomsGauge := activeRoomsGauge m;
       connectedClientsGauge := connectedClientsGauge m;
       updatesPerSecondCounter := S (updatesPerSecondCounter m);
       updateLatencyHistogram := updateLatencyHistogram m;
       messagesProcessedCounter := messagesProcessedCounter m;
       connectionErrorsCounter := connectionErrorsCounter m |})).

Definition recordUpdateLatency (latencyMs : Z) : M unit :=
  modify (with_metrics (λ m,
    {| activeRoomsGauge := activeRoomsGauge m;
       connectedClientsGauge := connectedClientsGauge m;
       updatesPerSecondCounter := updatesPerSecondCounter m;
       updateLatencyHistogram := updateLatencyHistogram m ++ [latencyMs];
       messagesProcessedCounter := messagesProcessedCounter m;
       connectionErrorsCounter := connectionErrorsCounter m |})).

Definition incrementMessagesProcessed : M unit :=
  modify (with_metrics (λ m,
    {| activeRoomsGauge := activeRoomsGauge m;
       connectedClientsGauge := connectedClientsGauge m;
       updatesPerSecondCounter := updatesPerSecondCounter m;
       updateLatencyHistogram := updateLatencyHistogram m;
       messagesProcessedCounter := S (messagesProcessedCounter m);
       connectionErrorsCounter := connectionErrorsCounter m |})).

Definition incrementConnectionErrors : M unit :=
  modify (with_metrics (λ m,
    {| activeRoomsGauge := activeRoomsGauge m;
       connectedClientsGauge := connectedClientsGauge m;
       updatesPerSecondCounter := updatesPerSecondCounter m;
       updateLatencyHistogram := updateLatencyHistogram m;
       messagesProcessedCounter := messagesProcessedCounter m;
       connectionErrorsCounter := S (connectionErrorsCounter m) |})).

(** ** WebSocketHandler *)

(** [ws.send(frame)] on the socket stored for [clientId]: it throws while
    the socket is connecting and drops the frame once it is closing or
    closed. *)
Definition ws_send (clientId : string) (message : IMessage) : M unit :=
  ws ← gets (λ s, clientConnections s !! clientId);
  match ws with
  | Some ws =>
      match readyState ws with
      | OPEN =>
          modify (with_clientConnections (insert clientId
            {| readyState := OPEN; sent := sent ws ++ [message] |}))
      | CONNECTING => throw
      | _ => mret tt
      end
  | None => mret tt
  end.

Definition is_open (clientId : string) : M bool :=
  gets (λ s, match clientConnections s !! clientId with
             | Some ws => bool_decide (readyState ws = OPEN)
             | None => false
             end).

(** [sendError(ws, errorMessage)], the socket named by its key. *)
Definition sendError (clientId : string) (errorMessage : string) : M unit :=
  now ← Date_now;
  let message := {| type := ERROR; roomId := EmptyString; clientId := None;
                    payload := Some (ErrorPayload errorMessage);
                    timestamp := now |} in
  ready ← is_open clientId;
  if (ready : bool) then ws_send clientId message else mret tt.

(** [excludeClientId && client.id === excludeClientId] *)
Definition excluded (excludeClientId : option string) (id : string) : bool :=
  match excludeClientId with
  | Some e => negb (bool_decide (e = EmptyString)) && bool_decide (id = e)
  | None => false
  end.

Fixpoint forEach {A} (f : A → M unit) (l : list A) : M unit :=
  match l with
  | [] => mret tt
  | x :: rest => f x;; forEach f rest
  end.

Definition broadcastToRoom (roomId : string) (message : IMessage)
    (excludeClientId : option string) : M unit :=
  cs ← getClientsInRoom roomId;
  forEach (λ client,
    if excluded excludeClientId (client_id client) then mret tt
    else
      ready ← is_open (client_id client);
      if (ready : bool) then ws_send (client_id client) message else mret tt) cs.

Definition channel_of (roomId : string) : string :=
  "room:" +:+ roomId +:+ ":updates".

(** [clientId || <empty string>] *)
Definition or_empty (clientId : option string) : string :=
  default EmptyString clientId.

Definition decodeBinaryDocumentUpdate (data : Buffer)
    (clientId : option string) : M (option IMessage) :=
  match readBinaryFrame data with
  | Some (Some (roomId, timestamp, updateBytes)) =>
      now ← Date_now;
      mret (Some
        {| type := DOCUMENT_UPDATE; roomId := roomId; clientId := clientId;
           payload := Some (DocumentUpdatePayload
                              (Some (Buffer_toString_base64 updateBytes))
                              (Some (or_empty clientId)) timestamp);
           timestamp := now |})
  | Some None => mret None
  | None => mret None   (* a read threw: the catch returns null *)
  end.

(** [handleJoinRoom], run through its wait for the transport
    ([await this.redis.subscribe]) with no other event handled meanwhile;
    the steps before and after the wait are
    [handleJoinRoom_until_subscribe] and [handleJoinRoom_after_subscribe]. *)
Definition handleJoinRoom (clientId : string) (message : IMessage) : M unit :=
  let roomId := roomId message in
  if bool_decide (roomId = EmptyString)
  then sendError clientId "Missing roomId" else
  try_catch
    (iid ← gets instanceId;
     addClientToRoom clientId roomId iid;;
     documentState ← getDocumentState roomId;
     t1 ← Date_now;
     t2 ← Date_now;
     ws_send clientId
       {| type := DOCUMENT_STATE; roomId := roomId; clientId := Some clientId;
          payload := Some (DocumentStatePayload
                             (Buffer_toString_base64 documentState) t1);
          timestamp := t2 |};;
     t3 ← Date_now;
     ws_send clientId
       {| type := ACK; roomId := roomId; clientId := Some clientId;
          payload := Some (AckPayload ("You joined the room " +:+ roomId)
                             (Some clientId) None);
          timestamp := t3 |};;
     t4 ← Date_now;
     broadcastToRoom roomId
       {| type := ACK; roomId := roomId; clientId := None;
          payload := Some (AckPayload
                             ("Client " +:+ clientId +:+ " joined the room")
                             (Some clientId) None);
          timestamp := t4 |}
       (Some clientId);;
     let channel := channel_of roomId in
     channels ← subscribedChannels;
     if bool_decide (channel ∈ channels) then mret tt
     else
       try_catch (subscribe channel (HandleRedisUpdate roomId))
         (sendError clientId "Failed to subscribe to room updates"))
    (sendError clientId "Failed to join room").

Definition handleLeaveRoom (clientId : string) (message : IMessage) : M unit :=
  let roomId := roomId message in
  if bool_decide (roomId = EmptyString) then mret tt else
  try_catch
    (removeClientFromRoom clientId;;
     t ← Date_now;
     broadcastToRoom roomId
       {| type := ACK; roomId := roomId; clientId := None;
          payload := Some (AckPayload
                             ("Client " +:+ clientId +:+ " left the room")
                             None (Some clientId));
          timestamp := t |}
       (Some clientId))
    (mret tt).

(** The record a decoded update holds when it is read as JSON: the text
    has to look like JSON and [JSON.parse] has to accept it; the catch
    leaves [null]. *)
Definition jsonUpdateObj_of (buffer : Buffer) : option (list (string * JsValue)) :=
  let jsonStr := Buffer_toString_utf8 buffer in
  if looksLikeJson jsonStr then JSON_parse_Record jsonStr else None.

(** What [handleDocumentUpdate] does once the update is applied, run
    through its wait for the bus ([await this.redis.publish]) with no
    other event handled meanwhile; the steps before and after the wait
    are [publishLocalUpdate] and [broadcastLocalUpdate]. *)
Definition afterLocalApply (clientId roomId update : string) : M unit :=
  recordUpdate roomId;;
  incrementUpdates;;
  let channel := channel_of roomId in
  try_catch
    (iid ← gets instanceId;
     t ← Date_now;
     publish channel
       {| sync_type := SYNC_UPDATE; sync_clientId := clientId;
          sync_update := update; sync_timestamp := t;
          sync_instanceId := iid |})
    (mret tt);;
  t1 ← Date_now;
  t2 ← Date_now;
  broadcastToRoom roomId
    {| type := DOCUMENT_UPDATE; roomId := roomId; clientId := Some clientId;
       payload := Some (DocumentUpdatePayload (Some update) None t1);
       timestamp := t2 |}
    (Some clientId).

Definition handleDocumentUpdate (clientId : string) (message : IMessage)
    : M unit :=
  let roomId := roomId message in
  match payload message with
  | None => mret tt
  | Some payload =>
      if bool_decide (roomId = EmptyString) then mret tt else
      try_catch
        (match payload with
         | DocumentUpdatePayload (Some update) _ _ =>
             let buffer := Buffer_from_base64 update in
             match jsonUpdateObj_of buffer with
             | Some jsonUpdateObj =>
                 applyJsonUpdate roomId jsonUpdateObj;;
                 afterLocalApply clientId roomId update
             | None =>
                 let updateUint8 := buffer in
                 if bool_decide (length updateUint8 = 0%nat) then mret tt
                 else
                   applyUpdate roomId updateUint8;;
                   afterLocalApply clientId roomId update
             end
         | _ => mret tt
         end)
        (mret tt)
  end.

Definition handleRedisUpdate (roomId : string) (redisMessage : string)
    : M unit :=
  try_catch
    (match JSON_parse_SyncUpdate redisMessage with
     | None => throw
     | Some update =>
         iid ← gets instanceId;
         if bool_decide (sync_instanceId update = iid) then mret tt else
         let updateBuffer := Buffer_from_base64 (sync_update update) in
         match jsonUpdateObj_of updateBuffer with
         | Some jsonUpdateObj => applyJsonUpdate roomId jsonUpdateObj
         | None => applyUpdate roomId updateBuffer
         end;;
         recordUpdate roomId;;
         incrementUpdates;;
         t ← Date_now;
         broadcastToRoom roomId
           {| type := DOCUMENT_UPDATE; roomId := roomId;
              clientId := Some (sync_clientId update);
              payload := Some (DocumentUpdatePayload
                                 (Some (sync_update update)) None
                                 (sync_timestamp update));
              timestamp := t |}
           None
     end)
    (mret tt).

Definition handleDisconnect (clientId : string) : M unit :=
  client ← getClient clientId;
  match client with
  | Some client =>
      t ← Date_now;
      handleLeaveRoom clientId
        {| type := LEAVE_ROOM; roomId := client_roomId client;
           clientId := None; payload := None; timestamp := t |}
  | None => mret tt
  end;;
  modify (with_clientConnections (delete clientId)).

Definition handleError (clientId : string) : M unit :=
  incrementConnectionErrors.

(** The decoding part of [handleMessage]: the message a frame yields, or
    [None] on each of the paths that answer "Invalid message format". *)
Definition decodeFrame (clientId : string) (data : Data)
    : M (option IMessage) :=
  match data with
  | DataString s => mret (JSON_parse_IMessage s)
  | DataBuffer b =>
      let jsonStr := Buffer_toString_utf8 b in
      if looksLikeJson jsonStr then
        match JSON_parse_IMessage jsonStr with
        | Some message => mret (Some message)
        | None => decodeBinaryDocumentUpdate b (Some clientId)
        end
      else decodeBinaryDocumentUpdate b (Some clientId)
  | DataArrayBuffer _ | DataBuffers _ => mret None
  end.

(** [handleMessage], for a frame [JSON.parse] rejects or reads as a
    message object; what it does for the other values a parse can return
    is in [handleParsed]. *)
Definition handleMessage (clientId : string) (data : Data) : M unit :=
  try_catch
    (ws ← gets (λ s, clientConnections s !! clientId);
     match ws with
     | None => mret tt
     | Some _ =>
         startTime ← Date_now;
         decoded ← decodeFrame clientId data;
         match decoded with
         | None => sendError clientId "Invalid message format"
         | Some message =>
             incrementMessagesProcessed;;
             match type message with
             | JOIN_ROOM => handleJoinRoom clientId message
             | LEAVE_ROOM => handleLeaveRoom clientId message
             | DOCUMENT_UPDATE => handleDocumentUpdate clientId message
             | SYNC_UPDATE => mret tt
             | _ => mret tt
             end;;
             t ← Date_now;
             recordUpdateLatency (t - startTime)
         end
     end)
    (mret tt).

(** [handleConnection(ws)], with the identifier [uuidv4()] drew. *)
Definition handleConnection (clientId : string) (ws : WebSocket) : M unit :=
  modify (with_clientConnections (insert clientId ws));;
  incrementMessagesProcessed.

Definition updateMetrics : M unit :=
  totalRooms ← gets (λ s, size (rooms (roomManager s)));
  totalClients ← gets (λ s, size (clients (roomManager s)));
  modify (with_metrics (λ m,
    {| activeRoomsGauge := totalRooms;
       connectedClientsGauge := totalClients;
       updatesPerSecondCounter := updatesPerSecondCounter m;
       updateLatencyHistogram := updateLatencyHistogram m;
       messagesProcessedCounter := messagesProcessedCounter m;
       connectionErrorsCounter := connectionErrorsCounter m |})).

(** ** The instance as a transition system *)

(** What reaches the instance from outside. *)
Inductive Event :=
  | Connection (clientId : string)
  | Message (clientId : string) (data : Data)
  | Close (clientId : string)
  | SocketError (clientId : string)
  | SocketState (clientId : string) (state : ReadyState)
  | RedisMessage (channel : string) (message : string)
  | MetricsTick.

(** The callbacks of the SUBSCRIBE commands handed to the subscriber
    client for a channel, in order: the listeners it holds when the
    transport has accepted them all. *)
Definition listeners (channel : string) (s : Server) : list Callback :=
  omap (λ c, match c with
             | SUBSCRIBE ch cb => if bool_decide (ch = channel) then Some cb else None
             | PUBLISH _ _ => None
             end) (commands (redis s)).

Definition dispatch (e : Event) : M unit :=
  match e with
  | Connection clientId =>
      handleConnection clientId {| readyState := OPEN; sent := [] |}
  | Message clientId data => handleMessage clientId data
  | Close clientId => handleDisconnect clientId
  | SocketError clientId => handleError clientId
  | SocketState clientId state =>
      modify (with_clientConnections (alter (λ ws,
        {| readyState := state; sent := sent ws |}) clientId))
  | RedisMessage channel message =>
      ls ← gets (listeners channel);
      forEach (λ cb, match cb with
                     | HandleRedisUpdate roomId => handleRedisUpdate roomId message
                     end) ls
  | MetricsTick => updateMetrics
  end.

(** The state [index.ts] builds. *)
Definition initial (instanceId : string) : Server :=
  {| instanceId := instanceId;
     roomManager := {| rooms := ∅; roomClients := ∅; clients := ∅ |};
     crdt := {| documents := ∅ |};
     redis := {| subscriptions := ∅; commands := [] |};
     metrics := {| activeRoomsGauge := 0; connectedClientsGauge := 0;
                   updatesPerSecondCounter := 0; updateLatencyHistogram := [];
                   messagesProcessedCounter := 0; connectionErrorsCounter := 0 |};
     clientConnections := ∅;
     clock := 0 |}.

Definition run (es : list Event) (s : Server) : Server :=
  foldl (λ s e, exec (dispatch e) s) s es.

Inductive reachable : Server → Prop :=
  | reachable_initial instanceId : reachable (initial instanceId)
  | reachable_step s e : reachable s → reachable (exec (dispatch e) s).

End Server.

(** ** Notions the properties are stated with *)

(** The lengths a frame declares: the two bytes after the kind, and the
    four bytes after the room id and the timestamp. *)
Definition declared_roomLen (data : Buffer) : Z := le_value (slice data 1 3).
Definition declared_updateLen (data : Buffer) : Z :=
  le_value (slice data (11 + declared_roomLen data) (15 + declared_roomLen data)).

(** The frame's first byte is 1 and its length is that of the fields it
    declares. *)
Definition frame_ok (data : Buffer) : Prop :=
  head data = Some "001"%char ∧
  buf_length data
  = 1 + 2 + declared_roomLen data + 8 + 4 + declared_updateLen data.

Section Notions.
Context `{P : Platform}.

(** The fields of a well-formed frame, and the message the decoder
    builds from them at time [now]. *)
Definition frame_fields (data : Buffer) : string * Z * Buffer :=
  let L := declared_roomLen data in
  (Buffer_toString_utf8 (slice data 3 (3 + L)),
   Number_of_BigInt (le_value (slice data (3 + L) (11 + L))),
   slice data (15 + L) (buf_length data)).

Definition frame_message (data : Buffer) (clientId : option string) (now : Z)
    : IMessage :=
  {| type := DOCUMENT_UPDATE;
     roomId := (frame_fields data).1.1;
     clientId := clientId;
     payload := Some (DocumentUpdatePayload
                        (Some (Buffer_toString_base64 (frame_fields data).2))
                        (Some (or_empty clientId)) (frame_fields data).1.2);
     timestamp := now |}.

(** A frame neither decode path of [handleMessage] accepts: the JSON path
    is not taken or [JSON.parse] throws, and (for binary data) the frame
    is not a well-formed binary frame. *)
Definition invalid_frame (data : Data) : Prop :=
  match data with
  | DataString s => JSON_parse_IMessage s = None
  | DataBuffer b =>
      (looksLikeJson (Buffer_toString_utf8 b) = false
       ∨ JSON_parse_IMessage (Buffer_toString_utf8 b) = None)
      ∧ ¬ frame_ok b
  | DataArrayBuffer _ | DataBuffers _ => True
  end.

Definition error_message (text : string) (now : Z) : IMessage :=
  {| type := ERROR; roomId := EmptyString; clientId := None;
     payload := Some (ErrorPayload text); timestamp := now |}.

(** A frame the JSON path of [handleMessage] reads as [message]. *)
Definition decodes_to (data : Data) (message : IMessage) : Prop :=
  match data with
  | DataString s => JSON_parse_IMessage s = Some message
  | DataBuffer b =>
      looksLikeJson (Buffer_toString_utf8 b) = true
      ∧ JSON_parse_IMessage (Buffer_toString_utf8 b) = Some message
  | DataArrayBuffer _ | DataBuffers _ => False
  end.

(** The two messages [handleJoinRoom] sends the joining client. *)
Definition state_message (roomId clientId : string) (doc : YDoc) (t1 t2 : Z)
    : IMessage :=
  {| type := DOCUMENT_STATE; roomId := roomId; clientId := Some clientId;
     payload := Some (DocumentStatePayload
                        (Buffer_toString_base64 (Y_encodeStateAsUpdate doc)) t1);
     timestamp := t2 |}.

Definition joined_message (roomId clientId : string) (t : Z) : IMessage :=
  {| type := ACK; roomId := roomId; clientId := Some clientId;
     payload := Some (AckPayload ("You joined the room " +:+ roomId)
                        (Some clientId) None);
     timestamp := t |}.

(** The socket after one more message was sent on it. *)
Definition after_send (ws : WebSocket) (message : IMessage) : WebSocket :=
  {| readyState := readyState ws; sent := sent ws ++ [message] |}.

End Notions.

Section Convergence.
Context `{P : Platform}.

(** The document after [Y.applyUpdate(doc, update)]. *)
Definition merged (doc : YDoc) (update : Buffer) : YDoc :=
  (Y_applyUpdate doc update).1.

(** The contract of the merge primitive. *)
Definition merge_commutative : Prop :=
  ∀ doc u v, merged (merged doc u) v = merged (merged doc v) u.
Definition merge_idempotent : Prop :=
  ∀ doc u, merged (merged doc u) u = merged doc u.

(** A sequence of updates applied through the merge path, one call of
    [applyUpdate] each, the caller catching what a call throws (as both
    handlers do). *)
Definition applyUpdates (roomId : string) (updates : list Buffer) : M unit :=
  forEach (λ u, try_catch (applyUpdate roomId u) (mret tt)) updates.

Definition nonempty (u : Buffer) : Prop := u ≠ [].

End Convergence.


(** ** Invariants and state edits *)

Section Invariants.
Context `{P : Platform}.

(** A computation keeps a property of the state, however it completes. *)
Definition preserves (I : Server → Prop) {A} (m : M A) : Prop :=
  ∀ s, I s → I (exec m s).

(** What the registry and the document store maintain between events:
    a room's counter is the size of its member set, rooms and member sets
    have the same ids, every room has a document, and a client record is
    stored under its own id. *)
Definition registry_ok (s : Server) : Prop :=
  (∀ r room, rooms (roomManager s) !! r = Some room →
     ∃ members, roomClients (roomManager s) !! r = Some members
                ∧ clientCount room = size members)
  ∧ (∀ r, is_Some (roomClients (roomManager s) !! r) →
          is_Some (rooms (roomManager s) !! r))
  ∧ (∀ r, is_Some (rooms (roomManager s) !! r) →
          is_Some (documents (crdt s) !! r))
  ∧ (∀ k c, clients (roomManager s) !! k = Some c → client_id c = k).

(** From [s] to [s'] the registry and the documents are the same, and
    every socket is in the state it was, with further messages sent on
    it. *)
Definition only_sends (s s' : Server) : Prop :=
  instanceId s' = instanceId s
  ∧ roomManager s' = roomManager s
  ∧ crdt s' = crdt s
  ∧ dom (clientConnections s') = dom (clientConnections s)
  ∧ ∀ k ws, clientConnections s !! k = Some ws →
      ∃ more, clientConnections s' !! k
              = Some {| readyState := readyState ws; sent := sent ws ++ more |}.

(** A computation that, from every state, does no more than send. *)
Definition sends {A} (m : M A) : Prop := ∀ s, only_sends s (exec m s).

End Invariants.

Section Edits.
Context `{P : Platform}.

(** The room [getOrCreateRoom] creates at time [now]. *)
Definition new_room (roomId : string) (now : Z) : IRoom :=
  {| room_id := roomId; createdAt := now; clientCount := 0;
     updatesCount := 0; lastUpdateAt := None |}.

(** [documents] after [getOrCreateDocument roomId]. *)
Definition ensure_document (roomId : string) (docs : gmap string YDoc)
    : gmap string YDoc :=
  match docs !! roomId with
  | Some _ => docs
  | None => <[roomId := Y_Doc_new]> docs
  end.

(** The state after a room was created, and after its member set was
    replaced, the counter following. *)
Definition create_room (roomId : string) (s : Server) : Server :=
  with_documents (ensure_document roomId)
    (with_roomClients (insert roomId ∅)
       (with_rooms (insert roomId (new_room roomId (Date_now_at (clock s))))
          (exec Date_now s))).

Definition set_members (roomId : string) (members : gset string) (s : Server)
    : Server :=
  with_rooms (alter (set_clientCount (size members)) roomId)
    (with_roomClients (insert roomId members) s).

Definition drop_room (roomId : string) (s : Server) : Server :=
  with_documents (delete roomId)
    (with_roomClients (delete roomId) (with_rooms (delete roomId) s)).

Definition new_client (clientId roomId instanceId : string) (now : Z) : IClient :=
  {| client_id := clientId; client_roomId := roomId;
     client_instanceId := instanceId; joinedAt := now |}.

(** The state [removeClientFromRoom] leaves for a client recorded in room
    [r]. *)
Definition leave_room (clientId r : string) (s : Server) : Server :=
  let s1 := with_roomClients (alter (λ members, members ∖ {[clientId]}) r) s in
  let n := from_option size 0%nat (roomClients (roomManager s1) !! r) in
  let s2 := match rooms (roomManager s) !! r with
            | Some _ =>
                let s' := with_rooms (alter (set_clientCount n) r) s1 in
                if bool_decide (n = 0%nat) then drop_room r s' else s'
            | None => s1
            end in
  with_clients (delete clientId) s2.

End Edits.

(** ** A platform to run the model on

    A small stand-in for the libraries, for evaluating the model on
    concrete inputs.  A document is the set of merged updates (a bit
    mask: merging is a bitwise or) and the list of fields set through the
    shared map.  Frames are written [{J:room}], [{L:room}],
    [{U:room:update}], a published update [{S:instance:client:update}], a
    record [{key=value}]. *)
Module TestPlatform.

Fixpoint split_on (sep : ascii) (acc : string) (s : string) : list string :=
  match s with
  | EmptyString => [String.rev acc]
  | String c rest =>
      if bool_decide (c = sep)
      then String.rev acc :: split_on sep EmptyString rest
      else split_on sep (String c acc) rest
  end.

(** The fields of [{a:b:c}], split at [sep]. *)
Definition braced (sep : ascii) (s : string) : option (list string) :=
  match s with
  | String "{" rest =>
      match String.rev rest with
      | String "}" body => Some (split_on sep EmptyString (String.rev body))
      | _ => None
      end
  | _ => None
  end.

Definition message_of (type : MessageType) (roomId : string)
    (payload : option Payload) : IMessage :=
  {| type := type; roomId := roomId; clientId := None; payload := payload;
     timestamp := 0 |}.

Definition parse_IMessage (s : string) : option IMessage :=
  match braced ":" s with
  | Some ["J"; room] => Some (message_of JOIN_ROOM room None)
  | Some ["L"; room] => Some (message_of LEAVE_ROOM room None)
  | Some ["U"; room; update] =>
      Some (message_of DOCUMENT_UPDATE room
              (Some (DocumentUpdatePayload (Some update) None 0)))
  | _ => None
  end%string.

Definition parse_Record (s : string) : option (list (string * string)) :=
  match braced "=" s with
  | Some [key; value] => Some [(key, value)]
  | _ => None
  end.

Definition parse_SyncUpdate (s : string) : option SyncUpdate :=
  match braced ":" s with
  | Some ["S"; instance; client; update] =>
      Some {| sync_type := SYNC_UPDATE; sync_clientId := client;
              sync_update := update; sync_timestamp := 0;
              sync_instanceId := instance |}
  | _ => None
  end%string.

(** Base64 as [Buffer] implements it: the encoder pads with [=]; the
    decoder accepts both alphabets, skips any other character and stops
    at the padding. *)
Definition b64_char (n : Z) : ascii :=
  default "="%char
    (list_ascii_of_string
       "ABCDEFGHIJKLMNOPQRSTUVWXYZabcdefghijklmnopqrstuvwxyz0123456789+/"
     !! Z.to_nat n).

Fixpoint b64_encode (bs : Buffer) : list ascii :=
  match bs with
  | [] => []
  | [a] =>
      let n := byte_val a * 65536 in
      [b64_char (n / 262144); b64_char ((n / 4096) mod 64);
       "="%char; "="%char]
  | [a; b] =>
      let n := byte_val a * 65536 + byte_val b * 256 in
      [b64_char (n / 262144); b64_char ((n / 4096) mod 64);
       b64_char ((n / 64) mod 64); "="%char]
  | a :: b :: c :: rest =>
      let n := byte_val a * 65536 + byte_val b * 256 + byte_val c in
      b64_char (n / 262144) :: b64_char ((n / 4096) mod 64)
        :: b64_char ((n / 64) mod 64) :: b64_char (n mod 64)
        :: b64_encode rest
  end.

Definition b64_value (c : ascii) : option Z :=
  let v := byte_val c in
  if (65 <=? v) && (v <=? 90) then Some (v - 65)
  else if (97 <=? v) && (v <=? 122) then Some (v - 71)
  else if (48 <=? v) && (v <=? 57) then Some (v + 4)
  else if (v =? 43) || (v =? 45) then Some 62
  else if (v =? 47) || (v =? 95) then Some 63
  else None.

Fixpoint b64_decode (acc nbits : Z) (cs : list ascii) : Buffer :=
  match cs with
  | [] => []
  | c :: rest =>
      if bool_decide (c = "="%char) then []
      else match b64_value c with
           | None => b64_decode acc nbits rest
           | Some v =>
               let acc := acc * 64 + v in
               let nbits := nbits + 6 in
               if 8 <=? nbits then
                 ascii_of_N (Z.to_N ((Z.shiftr acc (nbits - 8)) mod 256))
                   :: b64_decode (acc mod 2 ^ (nbits - 8)) (nbits - 8) rest
               else b64_decode acc nbits rest
           end
  end.

Definition Doc : Type := Z * list (string * string).

Definition merge (doc : Doc) (update : Buffer) : Doc * bool :=
  ((Z.lor doc.1 (le_value update), doc.2), false).

Definition encode (doc : Doc) : Buffer :=
  ascii_of_N (Z.to_N (doc.1 mod 256))
    :: flat_map (λ kv, bytes_of (kv.1 +:+ "=" +:+ kv.2 +:+ ";")) doc.2.

#[export] Instance platform : Platform := {|
  YDoc := Doc;
  JsValue := string;
  Y_Doc_new := (0, []);
  Y_applyUpdate := merge;
  Y_encodeStateAsUpdate := encode;
  Y_Map_set := λ doc key value, (doc.1, doc.2 ++ [(key, value)]);
  JSON_parse_IMessage := parse_IMessage;
  JSON_parse_Record := parse_Record;
  JSON_parse_SyncUpdate := parse_SyncUpdate;
  Buffer_from_base64 := λ s, b64_decode 0 0 (list_ascii_of_string s);
  Buffer_toString_base64 := λ b, string_of_list_ascii (b64_encode b);
  Date_now_at := λ n, 1700000000000 + Z.of_nat n;
  redis_rejects := λ _, false
|}.

(** The frame of the scenario: room [r2], five update bytes declared,
    three present. *)
Definition truncated_frame : Buffer :=
  ["001"; "002"; "000"; "r"; "2";
   "000"; "000"; "000"; "000"; "000"; "000"; "000"; "000";
   "005"; "000"; "000"; "000"; "007"; "008"; "009"]%char.

Definition complete_frame : Buffer := truncated_frame ++ ["010"; "011"]%char.

(** A well-formed frame for room [r1] with the update bytes 7, 8, 9. *)
Definition frame_r1 : Buffer :=
  ["001"; "002"; "000"; "r"; "1";
   "000"; "000"; "000"; "000"; "000"; "000"; "000"; "000";
   "003"; "000"; "000"; "000"; "007"; "008"; "009"]%char.

Definition opened (clientId : string) (s : Server) : Server :=
  exec (dispatch (Connection clientId)) s.

(** An instance with one connection and no room. *)
Definition connected : Server := opened "c1" (initial "i1").

(** An instance whose registry holds client [c1] in room [r1]. *)
Definition one_member : Server :=
  exec (addClientToRoom "c1" "r1" "i1") (initial "i1").

(** A DOCUMENT_UPDATE for room [r1] carrying [update]. *)
Definition update_message (update : string) : IMessage :=
  message_of DOCUMENT_UPDATE "r1"
    (Some (DocumentUpdatePayload (Some update) None 0)).

End TestPlatform.

(** ** Further notions: membership, completion, broadcast *)

Section FurtherNotions.
Context `{P : Platform}.

(** What the registry maintains about members, beside [registry_ok]: no
    member set is empty, and a client record names a room (by a non-empty
    id) whose member set holds the client. *)
Definition membership_ok (s : Server) : Prop :=
  (∀ r members, roomClients (roomManager s) !! r = Some members →
                members ≠ ∅)
  ∧ (∀ c client, clients (roomManager s) !! c = Some client →
       client_roomId client ≠ EmptyString
       ∧ ∃ members, roomClients (roomManager s) !! client_roomId client
                    = Some members ∧ c ∈ members).

Definition consistent (s : Server) : Prop := registry_ok s ∧ membership_ok s.

(** A computation that completes normally from every state. *)
Definition never_throws {A} (m : M A) : Prop :=
  ∀ s, ∃ a, result m s = Normal a.

(** Whether [broadcastToRoom roomId _ excludeClientId] sends on the socket
    stored for [k]: [k] is a member of the room with a client record, it
    is not the excluded client, and its socket is open. *)
Definition is_recipient (roomId : string) (excludeClientId : option string)
    (s : Server) (k : string) : bool :=
  bool_decide (k ∈ default ∅ (roomClients (roomManager s) !! roomId))
  && bool_decide (is_Some (clients (roomManager s) !! k))
  && negb (excluded excludeClientId k)
  && match clientConnections s !! k with
     | Some ws => bool_decide (readyState ws = OPEN)
     | None => false
     end.

(** Whether the socket stored for [k] is open. *)
Definition open_at (s : Server) (k : string) : bool :=
  match clientConnections s !! k with
  | Some ws => bool_decide (readyState ws = OPEN)
  | None => false
  end.

Definition send_unless_excluded (exclude : option string)
    (message : IMessage) (client : IClient) : M unit :=
  if excluded exclude (client_id client) then mret tt
  else
    ready ← is_open (client_id client);
    if (ready : bool) then ws_send (client_id client) message else mret tt.

(** The sockets after [message] was sent to the recipients. *)
Definition delivered (recipient : string → bool) (message : IMessage)
    (conns : gmap string WebSocket) : gmap string WebSocket :=
  map_imap (λ k ws, Some (if recipient k then after_send ws message else ws))
    conns.

(** The documents after an update with the bytes [bytes] was applied to
    room [r], as both update handlers apply it: the fields of a JSON
    record are set, other non-empty bytes are merged, empty bytes change
    nothing. *)
Definition updated_documents (r : string) (bytes : Buffer)
    (docs : gmap string YDoc) : gmap string YDoc :=
  let doc := default Y_Doc_new (docs !! r) in
  match jsonUpdateObj_of bytes with
  | Some obj => <[r := foldl (λ d kv, Y_Map_set d kv.1 kv.2) doc obj]> docs
  | None =>
      if bool_decide (bytes = []) then docs
      else <[r := merged doc bytes]> docs
  end.

(** Whether applying the bytes to room [r] throws: setting the fields of
    a JSON record never does, empty bytes are not applied at all, and the
    merge of other bytes throws when [Y.applyUpdate] does. *)
Definition update_throws (r : string) (bytes : Buffer) (s : Server) : bool :=
  match jsonUpdateObj_of bytes with
  | Some _ => false
  | None =>
      if bool_decide (bytes = []) then false
      else (Y_applyUpdate (default Y_Doc_new (documents (crdt s) !! r)) bytes).2
  end.

(** The bytes of an update [handleDocumentUpdate] does not drop: a JSON
    record or non-empty bytes. *)
Definition carries_update (bytes : Buffer) : Prop :=
  is_Some (jsonUpdateObj_of bytes) ∨ bytes ≠ [].

(** The room record after [recordUpdate] at time [now]. *)
Definition updated_room (now : Z) (room : IRoom) : IRoom :=
  {| room_id := room_id room; createdAt := createdAt room;
     clientCount := clientCount room;
     updatesCount := S (updatesCount room);
     lastUpdateAt := Some now |}.

(** The messages the handlers publish and broadcast for an update. *)
Definition sync_message (iid clientId update : string) (t : Z) : SyncUpdate :=
  {| sync_type := SYNC_UPDATE; sync_clientId := clientId;
     sync_update := update; sync_timestamp := t; sync_instanceId := iid |}.

Definition update_broadcast (roomId clientId update : string) (t1 t2 : Z)
    : IMessage :=
  {| type := DOCUMENT_UPDATE; roomId := roomId; clientId := Some clientId;
     payload := Some (DocumentUpdatePayload (Some update) None t1);
     timestamp := t2 |}.

(** What the other members are told when a client joins or leaves. *)
Definition others_joined_message (roomId clientId : string) (t : Z)
    : IMessage :=
  {| type := ACK; roomId := roomId; clientId := None;
     payload := Some (AckPayload
                        ("Client " +:+ clientId +:+ " joined the room")
                        (Some clientId) None);
     timestamp := t |}.

Definition left_message (roomId clientId : string) (t : Z) : IMessage :=
  {| type := ACK; roomId := roomId; clientId := None;
     payload := Some (AckPayload
                        ("Client " +:+ clientId +:+ " left the room")
                        None (Some clientId));
     timestamp := t |}.

(** Whether a join for room [r] subscribes, and whether the transport
    then rejects the SUBSCRIBE. *)
Definition subscribes (r : string) (s : Server) : bool :=
  negb (bool_decide (channel_of r ∈ dom (subscriptions (redis s)))).

Definition subscribe_rejected (r : string) (s : Server) : bool :=
  subscribes r s && redis_rejects (length (commands (redis s))).

(** The callbacks of the SUBSCRIBE commands the instance has handed to
    the subscriber client for a channel, in order, whether the transport
    accepted them or not. *)
Definition subscribe_commands (channel : string) (s : Server) : list Callback :=
  omap (λ c, match c with
             | SUBSCRIBE ch cb => if bool_decide (ch = channel) then Some cb else None
             | PUBLISH _ _ => None
             end) (commands (redis s)).

(** The instance has handed the subscriber client no SUBSCRIBE for a
    channel that is not in the subscription table, and exactly one, with
    the room's [handleRedisUpdate], for a channel that is. *)
Definition subscribed_once (s : Server) : Prop :=
  ∀ channel,
    match subscriptions (redis s) !! channel with
    | Some cb =>
        subscribe_commands channel s = [cb]
        ∧ ∃ r, channel = channel_of r ∧ cb = HandleRedisUpdate r
    | None => subscribe_commands channel s = []
    end.

(** ** The handlers at their [await]s

    [handleDocumentUpdate] waits once, at [await this.redis.publish(...)],
    and [handleJoinRoom] once, at [await this.redis.subscribe(...)].  What
    a handler does before the wait and what it does after it are separate
    steps of the instance: other events are handled while the transport
    answers, and the second step runs on the state they leave.  The
    definitions below are the two steps of each handler; run one right
    after the other they are the handler ([handleDocumentUpdate_steps],
    [handleJoinRoom_steps]). *)

(** [handleDocumentUpdate] from [recordUpdate] up to the wait: the
    PUBLISH has been handed to the publisher client. *)
Definition publishLocalUpdate (clientId roomId update : string) : M unit :=
  recordUpdate roomId;;
  incrementUpdates;;
  let channel := channel_of roomId in
  try_catch
    (iid ← gets instanceId;
     t ← Date_now;
     publish channel
       {| sync_type := SYNC_UPDATE; sync_clientId := clientId;
          sync_update := update; sync_timestamp := t;
          sync_instanceId := iid |})
    (mret tt).

(** [handleDocumentUpdate] after the wait, whether the promise was
    fulfilled or rejected: the broadcast. *)
Definition broadcastLocalUpdate (clientId roomId update : string) : M unit :=
  t1 ← Date_now;
  t2 ← Date_now;
  broadcastToRoom roomId
    {| type := DOCUMENT_UPDATE; roomId := roomId; clientId := Some clientId;
       payload := Some (DocumentUpdatePayload (Some update) None t1);
       timestamp := t2 |}
    (Some clientId).

(** [handleDocumentUpdate] up to the wait; the result tells whether the
    wait was reached (the handler did not return or throw before it). *)
Definition handleDocumentUpdate_until_publish (clientId : string)
    (message : IMessage) : M bool :=
  let roomId := roomId message in
  match payload message with
  | None => mret false
  | Some payload =>
      if bool_decide (roomId = EmptyString) then mret false else
      try_catch
        (match payload with
         | DocumentUpdatePayload (Some update) _ _ =>
             let buffer := Buffer_from_base64 update in
             match jsonUpdateObj_of buffer with
             | Some jsonUpdateObj =>
                 applyJsonUpdate roomId jsonUpdateObj;;
                 publishLocalUpdate clientId roomId update;;
                 mret true
             | None =>
                 let updateUint8 := buffer in
                 if bool_decide (length updateUint8 = 0%nat) then mret false
                 else
                   applyUpdate roomId updateUint8;;
                   publishLocalUpdate clientId roomId update;;
                   mret true
             end
         | _ => mret false
         end)
        (mret false)
  end.

(** [handleDocumentUpdate] once the wait is over. *)
Definition handleDocumentUpdate_after_publish (clientId : string)
    (message : IMessage) : M unit :=
  match payload message with
  | Some (DocumentUpdatePayload (Some update) _ _) =>
      try_catch (broadcastLocalUpdate clientId (roomId message) update)
        (mret tt)
  | _ => mret tt
  end.

(** [handleJoinRoom] up to the wait.  [RedisService.subscribe] has
    recorded the channel and handed the SUBSCRIBE to the subscriber client
    by then; the result tells whether the wait was reached with a command
    the transport rejects. *)
Definition handleJoinRoom_until_subscribe (clientId : string)
    (message : IMessage) : M bool :=
  let roomId := roomId message in
  if bool_decide (roomId = EmptyString)
  then sendError clientId "Missing roomId";; mret false else
  try_catch
    (iid ← gets instanceId;
     addClientToRoom clientId roomId iid;;
     documentState ← getDocumentState roomId;
     t1 ← Date_now;
     t2 ← Date_now;
     ws_send clientId
       {| type := DOCUMENT_STATE; roomId := roomId; clientId := Some clientId;
          payload := Some (DocumentStatePayload
                             (Buffer_toString_base64 documentState) t1);
          timestamp := t2 |};;
     t3 ← Date_now;
     ws_send clientId
       {| type := ACK; roomId := roomId; clientId := Some clientId;
          payload := Some (AckPayload ("You joined the room " +:+ roomId)
                             (Some clientId) None);
          timestamp := t3 |};;
     t4 ← Date_now;
     broadcastToRoom roomId
       {| type := ACK; roomId := roomId; clientId := None;
          payload := Some (AckPayload
                             ("Client " +:+ clientId +:+ " joined the room")
                             (Some clientId) None);
          timestamp := t4 |}
       (Some clientId);;
     let channel := channel_of roomId in
     channels ← subscribedChannels;
     if bool_decide (channel ∈ channels) then mret false
     else
       modify (with_redis (λ r,
         {| subscriptions :=
              <[channel := HandleRedisUpdate roomId]> (subscriptions r);
            commands := commands r |}));;
       n ← gets (λ s, length (commands (redis s)));
       modify (with_redis (λ r,
         {| subscriptions := subscriptions r;
            commands := commands r
              ++ [SUBSCRIBE channel (HandleRedisUpdate roomId)] |}));;
       mret (redis_rejects n))
    (sendError clientId "Failed to join room";; mret false).

(** [handleJoinRoom] once the wait is over: the [catch (subError)] when
    the promise was rejected, nothing more when it was fulfilled. *)
Definition handleJoinRoom_after_subscribe (clientId : string)
    (rejected : bool) : M unit :=
  if rejected
  then try_catch (sendError clientId "Failed to subscribe to room updates")
         (sendError clientId "Failed to join room")
  else mret tt.

(** The [switch (message.type)] of [handleMessage]. *)
Definition route (clientId : string) (message : IMessage) : M unit :=
  match type message with
  | JOIN_ROOM => handleJoinRoom clientId message
  | LEAVE_ROOM => handleLeaveRoom clientId message
  | DOCUMENT_UPDATE => handleDocumentUpdate clientId message
  | SYNC_UPDATE => mret tt
  | _ => mret tt
  end.

(** The end of [handleMessage], once the handler it awaited is done:
    [recordUpdateLatency(Date.now() - startTime)]. *)
Definition recordLatencySince (startTime : Z) : M unit :=
  t ← Date_now;
  recordUpdateLatency (t - startTime).

(** ** Frames by what [JSON.parse] returns

    [JSON.parse] throws, or returns [null], or another value that has no
    [type] the handler knows (a number, a string, a boolean, an array, an
    object of another kind), or a message object. *)
Inductive Parsed :=
  | ParseThrows
  | ParsedNull
  | ParsedOther
  | ParsedMessage (message : IMessage).

(** [handleMessage] on a text frame, by what [JSON.parse] made of it
    (and on a binary frame that holds JSON text, when the parse returns).
    Reading [message.type] of [null] is a [TypeError], which the outer
    [catch] logs; of another value without a known [type] it selects the
    [default] case. *)
Definition handleParsed (clientId : string) (parsed : Parsed) : M unit :=
  try_catch
    (ws ← gets (λ s, clientConnections s !! clientId);
     match ws with
     | None => mret tt
     | Some _ =>
         startTime ← Date_now;
         match parsed with
         | ParseThrows => sendError clientId "Invalid message format"
         | ParsedNull => incrementMessagesProcessed;; throw
         | ParsedOther =>
             incrementMessagesProcessed;;
             recordLatencySince startTime
         | ParsedMessage message =>
             incrementMessagesProcessed;;
             route clientId message;;
             recordLatencySince startTime
         end
     end)
    (mret tt).

(** The two results [JSON_parse_IMessage] of the platform tells apart. *)
Definition parsed_of (parsed : option IMessage) : Parsed :=
  match parsed with
  | Some message => ParsedMessage message
  | None => ParseThrows
  end.

(** Every client record belongs to a connection the instance holds; and
    the same together with connections for the ids in [X]. *)
Definition clients_connected (s : Server) : Prop :=
  ∀ c, is_Some (clients (roomManager s) !! c) →
       is_Some (clientConnections s !! c).

Definition holding (X : gset string) (s : Server) : Prop :=
  clients_connected s ∧ ∀ c, c ∈ X → is_Some (clientConnections s !! c).

End FurtherNotions.

(** ** Logger (utils/logger.ts) *)

Module Logger.

Inductive LogLevel := DEBUG | INFO | WARN | ERROR.

#[global] Instance LogLevel_eq_dec : EqDecision LogLevel.
Proof. solve_decision. Defined.

(** [array.indexOf(x)]: the first position of [x], or -1. *)
Fixpoint indexOf (x : LogLevel) (l : list LogLevel) : Z :=
  match l with
  | [] => -1
  | y :: rest =>
      if bool_decide (y = x) then 0
      else let i := indexOf x rest in if i <? 0 then -1 else 1 + i
  end.

Definition levels : list LogLevel := [DEBUG; INFO; WARN; ERROR].

(** [shouldLog(level)] of a logger whose level is [this_level]. *)
Definition shouldLog (this_level level : LogLevel) : bool :=
  bool_decide (indexOf level levels >= indexOf this_level levels).

(** The level [new Logger()] has. *)
Definition default_level : LogLevel := INFO.

(** [no_more_severe l1 l2]: [l2] is at least as severe as [l1]. *)
Definition no_more_severe (l1 l2 : LogLevel) : Prop :=
  match l1, l2 with
  | DEBUG, _ => True
  | INFO, DEBUG => False
  | INFO, _ => True
  | WARN, (DEBUG | INFO) => False
  | WARN, _ => True
  | ERROR, ERROR => True
  | ERROR, _ => False
  end.

End Logger.

(** ** A platform on which the merge and the transport fail

    As [TestPlatform], but [Y.applyUpdate] always throws (leaving the
    document as it was) and the Redis clients reject every command. *)

Module FaultyPlatform.

#[export] Instance platform : Platform := {|
  YDoc := TestPlatform.Doc;
  JsValue := string;
  Y_Doc_new := (0, []);
  Y_applyUpdate := λ doc _, (doc, true);
  Y_encodeStateAsUpdate := TestPlatform.encode;
  Y_Map_set := λ doc key value, (doc.1, doc.2 ++ [(key, value)]);
  JSON_parse_IMessage := TestPlatform.parse_IMessage;
  JSON_parse_Record := TestPlatform.parse_Record;
  JSON_parse_SyncUpdate := TestPlatform.parse_SyncUpdate;
  Buffer_from_base64 := λ s, TestPlatform.b64_decode 0 0 (list_ascii_of_string s);
  Buffer_toString_base64 := λ b, string_of_list_ascii (TestPlatform.b64_encode b);
  Date_now_at := λ n, 1700000000000 + Z.of_nat n;
  redis_rejects := λ _, true
|}.

End FaultyPlatform.

(** ** States reached by events

    [joined]: one instance with client [c1] in room [r1];
    [joined_and_connected]: the same with a second connection [c2];
    [two_members]: both clients in the room. *)

Module Scenario.
Import TestPlatform.

Definition joined : Server :=
  run [Connection "c1"; Message "c1" (DataString "{J:r1}")] (initial "i1").

Definition joined_and_connected : Server :=
  run [Connection "c1"; Connection "c2"; Message "c1" (DataString "{J:r1}")]
    (initial "i1").

Definition two_members : Server :=
  run [Connection "c1"; Connection "c2"; Message "c1" (DataString "{J:r1}");
       Message "c2" (DataString "{J:r1}")] (initial "i1").

(** [moved_on]: client [c1] joined room [r1], set a field of its
    document, and joined room [r2] on the same connection. *)
Definition moved_on : Server :=
  run [Connection "c1"; Message "c1" (DataString "{J:r1}");
       Message "c1" (DataString "{U:r1:e3RpdGxlPURvY30=}");
       Message "c1" (DataString "{J:r2}")] (initial "i1").

(** [c1], a member of room [r1], has sent an update and its handler
    waits for the bus; [c2] joins the room meanwhile. *)
Definition update_published : Server :=
  exec (handleDocumentUpdate_until_publish "c1" (update_message "AQID"))
    joined_and_connected.

Definition joined_meanwhile : Server :=
  exec (dispatch (Message "c2" (DataString "{J:r1}"))) update_published.

(** A connection [c1] to an instance whose transport rejects every
    command. *)
Definition faulty_connected : @Server FaultyPlatform.platform :=
  exec (dispatch (P:=FaultyPlatform.platform) (Connection "c1"))
    (initial (P:=FaultyPlatform.platform) "i1").

End Scenario.

(** * Properties *)

(** ** Text and numbers *)

Example utf8_ascii_text :
  Buffer_toString_utf8 (bytes_of "  {x}") = "  {x}"%string.
Proof. reflexivity. Qed.

Example utf8_truncated_sequence :
  Buffer_toString_utf8 [ascii_of_N 226; ascii_of_N 128; "{"%char]
  = string_of_list_ascii (REPLACEMENT ++ ["{"%char]).
Proof. reflexivity. Qed.

Example trim_both_ends :
  trim (string_of_list_ascii
          ([ascii_of_N 239; ascii_of_N 187; ascii_of_N 191; " "%char]
             ++ bytes_of "{a} " ++ [ascii_of_N 194; ascii_of_N 160; ascii_of_N 10]))
  = "{a}"%string.
Proof. reflexivity. Qed.

Example looksLikeJson_blank : looksLikeJson "   " = false.
Proof. reflexivity. Qed.

Example Number_of_BigInt_rounds :
  Number_of_BigInt (2 ^ 53 + 1) = 2 ^ 53 ∧ Number_of_BigInt (2 ^ 53 + 3) = 2 ^ 53 + 4
  ∧ Number_of_BigInt 1700000000000 = 1700000000000.
Proof. repeat split; reflexivity. Qed.

(** ** Binary frames *)

Lemma le_value_nonneg bs : 0 <= le_value bs.
Proof.
  induction bs as [|b bs IH]; simpl; [lia|].
  unfold byte_val. lia.
Qed.

Lemma byte_val_one b : byte_val b = 1 → b = "001"%char.
Proof.
  unfold byte_val. intros Hb.
  rewrite <- (ascii_N_embedding b).
  replace (N_of_ascii b) with 1%N by lia. reflexivity.
Qed.

Lemma read_le_Some width b offset v :
  read_le width b offset = Some v →
  0 <= offset ∧ offset + width <= buf_length b ∧
  v = le_value (slice b offset (offset + width)).
Proof.
  unfold read_le. case_bool_decide; [|discriminate].
  intros [= <-]. tauto.
Qed.

Lemma read_le_in_range width b offset :
  0 <= offset → offset + width <= buf_length b →
  read_le width b offset = Some (le_value (slice b offset (offset + width))).
Proof. intros. unfold read_le. rewrite bool_decide_eq_true_2; [done|lia]. Qed.

Lemma readUInt8_head b rest :
  readUInt8 (b :: rest) 0 = Some (byte_val b).
Proof.
  unfold readUInt8, read_le, buf_length. simpl length.
  rewrite bool_decide_eq_true_2 by lia.
  unfold slice. simpl. f_equal. lia.
Qed.

Lemma readBinaryFrame_ok data :
  frame_ok data → readBinaryFrame data = Some (Some (frame_fields data)).
Proof.
  intros [Hhd Hlen].
  pose proof (le_value_nonneg (slice data 1 3)) as HL.
  pose proof (le_value_nonneg
    (slice data (11 + declared_roomLen data) (15 + declared_roomLen data)))
    as HU.
  fold (declared_roomLen data) in HL. fold (declared_updateLen data) in HU.
  unfold readBinaryFrame.
  rewrite bool_decide_eq_false_2 by lia.
  destruct data as [|b rest]; [discriminate|]. simpl in Hhd. injection Hhd as ->.
  rewrite readUInt8_head. simpl mbind.
  set (data := "001"%char :: rest) in *.
  unfold readUInt16LE. rewrite read_le_in_range by lia.
  change (1 + 2) with 3.
  fold (declared_roomLen data). simpl mbind.
  rewrite bool_decide_eq_false_2 by lia.
  rewrite bool_decide_eq_false_2 by lia.
  unfold readBigUInt64LE. rewrite read_le_in_range by lia. simpl mbind.
  rewrite bool_decide_eq_false_2 by lia.
  unfold readUInt32LE. rewrite read_le_in_range by lia. simpl mbind.
  replace (3 + declared_roomLen data + 8) with (11 + declared_roomLen data) by lia.
  replace (11 + declared_roomLen data + 4) with (15 + declared_roomLen data) by lia.
  fold (declared_updateLen data).
  rewrite bool_decide_eq_false_2 by lia.
  unfold frame_fields.
  replace (15 + declared_roomLen data + declared_updateLen data)
    with (buf_length data) by lia.
  reflexivity.
Qed.

Lemma readBinaryFrame_Some data fields :
  readBinaryFrame data = Some (Some fields) → frame_ok data.
Proof.
  unfold readBinaryFrame.
  case_bool_decide as Hlen; [discriminate|].
  destruct data as [|b rest];
    [simpl in Hlen; unfold buf_length in Hlen; simpl in Hlen; lia|].
  rewrite readUInt8_head. cbv beta iota delta [mbind option_bind].
  case_bool_decide as Hkind; [discriminate|].
  assert (b = "001"%char) as -> by (apply byte_val_one; lia).
  set (data := "001"%char :: rest) in *.
  destruct (readUInt16LE data 1) as [roomLen|] eqn:HL; [|discriminate].
  apply read_le_Some in HL as (_ & _ & ->).
  change (1 + 2) with 3. fold (declared_roomLen data).
  case_bool_decide; [discriminate|].
  case_bool_decide; [discriminate|].
  destruct (readBigUInt64LE data _) as [ts|] eqn:Hts; [|discriminate]. simpl mbind.
  case_bool_decide; [discriminate|].
  destruct (readUInt32LE data _) as [updateLen|] eqn:HU; [|discriminate]. simpl mbind.
  apply read_le_Some in HU as (_ & _ & ->).
  case_bool_decide as Hend; [discriminate|]. intros _.
  split; [reflexivity|].
  unfold declared_updateLen.
  replace (11 + declared_roomLen data) with (3 + declared_roomLen data + 8) by lia.
  replace (15 + declared_roomLen data) with (3 + declared_roomLen data + 8 + 4) by lia.
  lia.
Qed.

Lemma utf8_run_ascii b rest :
  byte_val b < 128 →
  utf8_run [] 0 128 191 (b :: rest) = b :: utf8_run [] 0 128 191 rest.
Proof.
  intros Hb. simpl. destruct (byte_val b <? 128) eqn:E; [reflexivity|lia].
Qed.

Lemma binary_frame_not_json rest :
  looksLikeJson (Buffer_toString_utf8 ("001"%char :: rest)) = false.
Proof.
  unfold looksLikeJson, Buffer_toString_utf8, trim.
  rewrite utf8_run_ascii by (vm_compute; reflexivity).
  rewrite list_ascii_of_string_of_list_ascii.
  reflexivity.
Qed.

Section Gateway.
Context `{P : Platform}.

Ltac run :=
  cbv beta iota delta
    [mbind M_bind mret M_ret gets modify try_catch throw exec result fst snd].

Lemma decodeBinaryDocumentUpdate_ok data clientId s :
  frame_ok data →
  decodeBinaryDocumentUpdate data clientId s
  = (exec Date_now s,
     Normal (Some (frame_message data clientId (Date_now_at (clock s))))).
Proof.
  intros Hok. unfold decodeBinaryDocumentUpdate.
  rewrite (readBinaryFrame_ok _ Hok).
  destruct (frame_fields data) as [[roomId ts] bytes] eqn:Hf.
  unfold frame_message. rewrite Hf. reflexivity.
Qed.

Lemma decodeBinaryDocumentUpdate_null data clientId s :
  ¬ frame_ok data →
  decodeBinaryDocumentUpdate data clientId s = (s, Normal None).
Proof.
  intros Hbad. unfold decodeBinaryDocumentUpdate.
  destruct (readBinaryFrame data) as [[fields|]|] eqn:Hr; try reflexivity.
  exfalso. eauto using readBinaryFrame_Some.
Qed.

Lemma decodeFrame_invalid clientId data s :
  invalid_frame data → decodeFrame clientId data s = (s, Normal None).
Proof.
  destruct data as [str|b|b|bs]; simpl; try reflexivity.
  - intros ->. reflexivity.
  - intros [[Hj|Hj] Hbad].
    + rewrite Hj. by apply decodeBinaryDocumentUpdate_null.
    + rewrite Hj. destruct (looksLikeJson _); by apply decodeBinaryDocumentUpdate_null.
Qed.

Lemma sendError_open clientId text ws s :
  clientConnections s !! clientId = Some ws → readyState ws = OPEN →
  sendError clientId text s
  = (with_clientConnections
       (insert clientId (after_send ws (error_message text (Date_now_at (clock s)))))
       (exec Date_now s),
     Normal tt).
Proof.
  intros Hws Hopen. unfold sendError, is_open, ws_send, Date_now. run.
  simpl. rewrite Hws, Hopen. simpl. rewrite Hws, Hopen.
  unfold after_send. rewrite Hopen. reflexivity.
Qed.

Lemma handleMessage_invalid clientId data ws s :
  clientConnections s !! clientId = Some ws → readyState ws = OPEN →
  invalid_frame data →
  handleMessage clientId data s
  = (with_clientConnections
       (insert clientId
          (after_send ws (error_message "Invalid message format"
                            (Date_now_at (S (clock s))))))
       (exec Date_now (exec Date_now s)),
     Normal tt).
Proof.
  intros Hws Hopen Hbad. unfold handleMessage. run.
  rewrite Hws.
  change (Date_now s) with (exec Date_now s, Normal (A:=Z) (Date_now_at (clock s))).
  cbv beta iota.
  rewrite (decodeFrame_invalid _ _ _ Hbad).
  rewrite (sendError_open clientId _ ws) by done.
  reflexivity.
Qed.

(** C4.  The binary-frame decoder returns a message exactly when the
    frame's first byte is 1 and its length is 1 + 2 + L + 8 + 4 + U for
    the lengths L and U it declares; on every other frame it returns
    null and leaves the state alone.  When a frame that starts with the
    kind byte 1 is truncated or has a length mismatch, the gateway sends
    the ERROR message to the sender and changes neither the documents nor
    the rooms. *)
Theorem binary_frame_decoding (data : Buffer) :
  (∀ clientId s,
     (frame_ok data →
      decodeBinaryDocumentUpdate data clientId s
      = (exec Date_now s,
         Normal (Some (frame_message data clientId (Date_now_at (clock s))))))
     ∧ (¬ frame_ok data →
        decodeBinaryDocumentUpdate data clientId s = (s, Normal None)))
  ∧ (∀ clientId ws s,
       head data = Some "001"%char → ¬ frame_ok data →
       clientConnections s !! clientId = Some ws → readyState ws = OPEN →
       let s' := exec (handleMessage clientId (DataBuffer data)) s in
       clientConnections s'
       = <[clientId := after_send ws (error_message "Invalid message format"
                                        (Date_now_at (S (clock s))))]>
           (clientConnections s)
       ∧ crdt s' = crdt s ∧ roomManager s' = roomManager s
       ∧ redis s' = redis s).
Proof.
  split.
  - intros clientId s. split.
    + apply decodeBinaryDocumentUpdate_ok.
    + apply decodeBinaryDocumentUpdate_null.
  - intros clientId ws s Hhd Hbad Hws Hopen s'.
    assert (invalid_frame (DataBuffer data)) as Hinv.
    { split; [left|done].
      destruct data as [|b rest]; [discriminate|].
      simpl in Hhd. injection Hhd as ->. apply binary_frame_not_json. }
    subst s'. unfold exec.
    rewrite (handleMessage_invalid clientId _ ws) by done.
    done.
Qed.

End Gateway.

Lemma truncated_frame_not_ok : ¬ frame_ok TestPlatform.truncated_frame.
Proof. intros [_ Hlen]. vm_compute in Hlen. discriminate. Qed.

Lemma binary_frame_decoding_witness :
  let s := TestPlatform.opened "c1" (initial "i1") in
  let s' := exec (handleMessage "c1" (DataBuffer TestPlatform.truncated_frame)) s in
  decodeBinaryDocumentUpdate TestPlatform.truncated_frame (Some "c1"%string) s
  = (s, Normal None)
  ∧ sent <$> clientConnections s' !! "c1"%string
    = Some [error_message "Invalid message format" 1700000000001]
  ∧ crdt s' = crdt s.
Proof.
  intros s s'.
  destruct (binary_frame_decoding (P:=TestPlatform.platform)
              TestPlatform.truncated_frame) as [Hdec Hgw].
  split; [apply Hdec, truncated_frame_not_ok|].
  destruct (Hgw "c1"%string {| readyState := OPEN; sent := [] |} s) as (Hc & Hd & _).
  - reflexivity.
  - apply truncated_frame_not_ok.
  - reflexivity.
  - reflexivity.
  - fold s' in Hc, Hd. split; [|exact Hd].
    rewrite Hc. rewrite lookup_insert_eq. reflexivity.
Defined.

(** ** Running the monad *)

Section Monad.
Context `{P : Platform}.

Lemma preserves_ret I {A} (a : A) : preserves I (mret a).
Proof. intros s Hs. exact Hs. Qed.

Lemma preserves_throw I {A} : preserves I (throw (A:=A)).
Proof. intros s Hs. exact Hs. Qed.

Lemma preserves_gets I {A} (f : Server → A) : preserves I (gets f).
Proof. intros s Hs. exact Hs. Qed.

Lemma preserves_modify (I : Server → Prop) f :
  (∀ s, I s → I (f s)) → preserves I (modify f).
Proof. intros Hf s Hs. apply Hf, Hs. Qed.

Lemma preserves_bind I {A B} (m : M A) (f : A → M B) :
  preserves I m → (∀ a, preserves I (f a)) → preserves I (m ≫= f).
Proof.
  intros Hm Hf s Hs. specialize (Hm s Hs).
  unfold exec, mbind, M_bind in *.
  destruct (m s) as [s' [a|]]; simpl in *; [by apply Hf|done].
Qed.

Lemma preserves_try_catch I {A} (body handler : M A) :
  preserves I body → preserves I handler → preserves I (try_catch body handler).
Proof.
  intros Hb Hh s Hs. specialize (Hb s Hs).
  unfold exec, try_catch in *.
  destruct (body s) as [s' [a|]]; simpl in *; [done|by apply Hh].
Qed.

Lemma preserves_forEach I {A} (f : A → M unit) l :
  (∀ a, preserves I (f a)) → preserves I (forEach f l).
Proof.
  intros Hf. induction l as [|a l IH]; simpl.
  - apply preserves_ret.
  - apply preserves_bind; auto.
Qed.

Lemma exec_bind {A B} (m : M A) (f : A → M B) s :
  exec (m ≫= f) s
  = match result m s with
    | Normal a => exec (f a) (exec m s)
    | Thrown => exec m s
    end.
Proof.
  unfold exec, result, mbind, M_bind. by destruct (m s) as [s' [a|]].
Qed.

End Monad.

Create HintDb preserves.

#[global] Hint Resolve preserves_ret preserves_throw preserves_gets
  preserves_bind preserves_try_catch preserves_forEach : preserves.

(** Structural steps of a preservation proof: follow the binds and the
    case distinctions of the code. *)
Ltac preserves_step :=
  match goal with
  | |- preserves _ (mret _) => apply preserves_ret
  | |- preserves _ throw => apply preserves_throw
  | |- preserves _ (gets _) => apply preserves_gets
  | |- preserves _ (_ ≫= _) => apply preserves_bind; [|intros ?]
  | |- preserves _ (try_catch _ _) => apply preserves_try_catch
  | |- preserves _ (forEach _ _) => apply preserves_forEach; intros ?
  | |- preserves _ (match ?x with _ => _ end) => destruct x
  | |- preserves _ (if ?x then _ else _) => destruct x
  end.

(** A leaf of the code that leaves the property as it is by computation:
    a write to a field the property does not read. *)
Ltac preserves_leaf :=
  match goal with
  | |- preserves _ (modify _) =>
      apply preserves_modify; let s := fresh in let H := fresh in
      intros s H; exact H
  | |- preserves _ Date_now =>
      let s := fresh in let H := fresh in intros s H; exact H
  end.

Ltac preserves_auto :=
  repeat first [preserves_step | preserves_leaf | solve [eauto with preserves]].

(** ** Sending *)

Section Sending.
Context `{P : Platform}.

Lemma only_sends_refl s : only_sends s s.
Proof.
  unfold only_sends. split_and!; try done.
  intros k ws Hk. exists []. rewrite Hk, app_nil_r. by destruct ws.
Qed.

Lemma only_sends_trans s1 s2 s3 :
  only_sends s1 s2 → only_sends s2 s3 → only_sends s1 s3.
Proof.
  intros (Hi & Hr & Hc & Hd & Hs) (Hi' & Hr' & Hc' & Hd' & Hs').
  unfold only_sends. split_and!; try congruence.
  intros k ws Hk.
  destruct (Hs k ws Hk) as [more Hk2].
  destruct (Hs' k _ Hk2) as [more' Hk3]. simpl in Hk3.
  exists (more ++ more'). by rewrite Hk3, app_assoc.
Qed.

Lemma sends_preserves {A} (m : M A) s0 :
  sends m → preserves (only_sends s0) m.
Proof. intros Hm s Hs. eapply only_sends_trans; [exact Hs|apply Hm]. Qed.

Lemma preserves_sends {A} (m : M A) :
  (∀ s0, preserves (only_sends s0) m) → sends m.
Proof. intros Hm s. apply Hm, only_sends_refl. Qed.

Lemma sends_quiet {A} (m : M A) :
  (∀ s, instanceId (exec m s) = instanceId s
        ∧ roomManager (exec m s) = roomManager s
        ∧ crdt (exec m s) = crdt s
        ∧ clientConnections (exec m s) = clientConnections s) →
  sends m.
Proof.
  intros Hm s. destruct (Hm s) as (Hi & Hr & Hc & Hcc).
  unfold only_sends. rewrite Hi, Hr, Hc, Hcc.
  apply only_sends_refl.
Qed.

Lemma sends_Date_now : sends Date_now.
Proof. by apply sends_quiet. Qed.

Lemma sends_modify_redis f : sends (modify (with_redis f)).
Proof. by apply sends_quiet. Qed.

Lemma sends_modify_metrics f : sends (modify (with_metrics f)).
Proof. by apply sends_quiet. Qed.

Lemma sends_ws_send clientId message : sends (ws_send clientId message).
Proof.
  intros s. unfold ws_send, exec, mbind, M_bind, gets. simpl.
  destruct (clientConnections s !! clientId) as [ws|] eqn:Hws;
    [|apply only_sends_refl].
  destruct (readyState ws) eqn:Hst; try apply only_sends_refl.
  unfold only_sends. simpl. split_and!; try done.
  - simpl. rewrite dom_insert_L.
    apply elem_of_dom_2 in Hws.
    by apply subseteq_union_1_L, singleton_subseteq_l.
  - intros k ws' Hk. simpl.
    destruct (decide (clientId = k)) as [->|Hne].
    + rewrite lookup_insert_eq. rewrite Hws in Hk. simplify_eq.
      exists [message]. by rewrite Hst.
    + rewrite lookup_insert_ne by done. exists [].
      rewrite Hk, app_nil_r. by destruct ws'.
Qed.

End Sending.

Create HintDb sends.

#[global] Hint Resolve sends_Date_now sends_modify_redis sends_modify_metrics
  sends_ws_send : sends.

(** That a computation only sends, by following its code. *)
Ltac sends_auto :=
  apply preserves_sends; intros ?;
  repeat first
    [ preserves_step
    | apply sends_preserves; solve [eauto with sends] ].

Section SendingOps.
Context `{P : Platform}.

Lemma sends_is_open clientId : sends (is_open clientId).
Proof. unfold is_open. sends_auto. Qed.

Lemma sends_sendError clientId text : sends (sendError clientId text).
Proof. unfold sendError. sends_auto. Qed.

Lemma sends_getClientsInRoom roomId : sends (getClientsInRoom roomId).
Proof. unfold getClientsInRoom. sends_auto. Qed.

Lemma sends_broadcastToRoom roomId message exclude :
  sends (broadcastToRoom roomId message exclude).
Proof. unfold broadcastToRoom, is_open. sends_auto. Qed.

Lemma sends_redis_command c : sends (redis_command c).
Proof. unfold redis_command. sends_auto. Qed.

Lemma sends_subscribe channel callback : sends (subscribe channel callback).
Proof. unfold subscribe, redis_command. sends_auto. Qed.

Lemma sends_publish channel message : sends (publish channel message).
Proof. unfold publish, redis_command. sends_auto. Qed.

Lemma sends_subscribedChannels : sends subscribedChannels.
Proof. unfold subscribedChannels. sends_auto. Qed.

Lemma sends_incrementUpdates : sends incrementUpdates.
Proof. unfold incrementUpdates. sends_auto. Qed.

Lemma sends_incrementMessagesProcessed : sends incrementMessagesProcessed.
Proof. unfold incrementMessagesProcessed. sends_auto. Qed.

Lemma sends_incrementConnectionErrors : sends incrementConnectionErrors.
Proof. unfold incrementConnectionErrors. sends_auto. Qed.

Lemma sends_recordUpdateLatency t : sends (recordUpdateLatency t).
Proof. unfold recordUpdateLatency. sends_auto. Qed.

Lemma sends_updateMetrics : sends updateMetrics.
Proof. unfold updateMetrics. sends_auto. Qed.

Lemma sends_decodeBinaryDocumentUpdate data clientId :
  sends (decodeBinaryDocumentUpdate data clientId).
Proof. unfold decodeBinaryDocumentUpdate. sends_auto. Qed.

Lemma sends_decodeFrame clientId data : sends (decodeFrame clientId data).
Proof.
  unfold decodeFrame. sends_auto;
    apply sends_preserves, sends_decodeBinaryDocumentUpdate.
Qed.

End SendingOps.

#[global] Hint Resolve sends_is_open sends_sendError sends_getClientsInRoom
  sends_broadcastToRoom sends_redis_command sends_subscribe sends_publish
  sends_subscribedChannels sends_incrementUpdates
  sends_incrementMessagesProcessed sends_incrementConnectionErrors
  sends_recordUpdateLatency sends_updateMetrics
  sends_decodeBinaryDocumentUpdate sends_decodeFrame : sends.

(** ** The document store and the registry *)

(** Reduce the projections of an edited state, and nothing else. *)
Ltac fields :=
  cbn [fst snd exec result instanceId roomManager crdt redis metrics
       clientConnections clock rooms roomClients clients documents
       subscriptions commands
       with_roomManager with_crdt with_redis with_metrics
       with_clientConnections with_rooms with_roomClients with_clients
       with_documents create_room set_members drop_room Date_now
       default from_option].

Section Registry.
Context `{P : Platform}.

Ltac run :=
  cbv beta iota delta
    [mbind M_bind mret M_ret gets modify try_catch throw exec result fst snd].

Lemma getOrCreateDocument_run roomId s :
  getOrCreateDocument roomId s
  = (with_documents (ensure_document roomId) s,
     Normal (default Y_Doc_new (documents (crdt s) !! roomId))).
Proof.
  unfold getOrCreateDocument, ensure_document, with_documents, with_crdt. run.
  destruct (documents (crdt s) !! roomId) eqn:Hd; simpl; [|done].
  by destruct s as [? ? []].
Qed.

Lemma getOrCreateRoom_run roomId s :
  getOrCreateRoom roomId s
  = match rooms (roomManager s) !! roomId with
    | Some room => (s, Normal room)
    | None => (create_room roomId s,
               Normal (new_room roomId (Date_now_at (clock s))))
    end.
Proof.
  unfold getOrCreateRoom. run.
  destruct (rooms (roomManager s) !! roomId) eqn:Hr; [done|].
  unfold Date_now at 1. cbv beta iota.
  rewrite getOrCreateDocument_run. reflexivity.
Qed.

Lemma getDocumentState_run roomId s :
  getDocumentState roomId s
  = (with_documents (ensure_document roomId) s,
     Normal (Y_encodeStateAsUpdate
               (default Y_Doc_new (documents (crdt s) !! roomId)))).
Proof.
  unfold getDocumentState, mbind, M_bind. by rewrite getOrCreateDocument_run.
Qed.

Lemma deleteDocument_run roomId s :
  deleteDocument roomId s = (with_documents (delete roomId) s, Normal tt).
Proof.
  unfold deleteDocument, getDocument, with_documents, with_crdt. run.
  destruct (documents (crdt s) !! roomId) eqn:Hd; simpl; [done|].
  rewrite delete_id by done. by destruct s as [? ? []].
Qed.

Lemma deleteRoom_run roomId s :
  deleteRoom roomId s = (drop_room roomId s, Normal tt).
Proof. unfold deleteRoom. run. by rewrite deleteDocument_run. Qed.

Lemma addClientToRoom_run clientId roomId iid s :
  let s1 := exec (getOrCreateRoom roomId) s in
  let client := new_client clientId roomId iid (Date_now_at (clock s1)) in
  let s2 := with_clients (insert clientId client) (exec Date_now s1) in
  addClientToRoom clientId roomId iid s
  = match roomClients (roomManager s1) !! roomId with
    | None => (s2, Thrown)
    | Some members =>
        (set_members roomId (members ∪ {[clientId]}) s2, Normal client)
    end.
Proof.
  intros s1 client s2. unfold addClientToRoom.
  unfold mbind at 1. unfold M_bind at 1.
  subst s2 client s1. unfold exec.
  destruct (getOrCreateRoom roomId s) as [s1 [room|]] eqn:H1.
  2: { rewrite getOrCreateRoom_run in H1. by destruct (rooms _ !! _). }
  simpl fst. run. simpl.
  by destruct (roomClients (roomManager s1) !! roomId).
Qed.

Lemma removeClientFromRoom_run clientId s :
  removeClientFromRoom clientId s
  = match clients (roomManager s) !! clientId with
    | None => (s, Normal tt)
    | Some client => (leave_room clientId (client_roomId client) s, Normal tt)
    end.
Proof.
  unfold removeClientFromRoom. run.
  destruct (clients (roomManager s) !! clientId) as [client|]; [|done].
  unfold leave_room. simpl.
  destruct (rooms (roomManager s) !! client_roomId client); [|done].
  case_bool_decide; [|done].
  by rewrite deleteRoom_run.
Qed.

End Registry.

Section RegistryInvariant.
Context `{P : Platform}.

Lemma registry_ok_only_sends s s' :
  only_sends s s' → registry_ok s → registry_ok s'.
Proof.
  intros (_ & Hr & Hc & _). unfold registry_ok. by rewrite Hr, Hc.
Qed.

Lemma registry_ok_initial iid : registry_ok (initial iid).
Proof.
  unfold registry_ok, initial; simpl. split_and!.
  - intros r room Hr. by rewrite lookup_empty in Hr.
  - intros r [x Hr]. by rewrite lookup_empty in Hr.
  - intros r [x Hr]. by rewrite lookup_empty in Hr.
  - intros k c Hk. by rewrite lookup_empty in Hk.
Qed.

Lemma registry_ok_documents f s :
  (∀ r, is_Some (documents (crdt s) !! r) →
        is_Some (f (documents (crdt s)) !! r)) →
  registry_ok s → registry_ok (with_documents f s).
Proof.
  intros Hf (H1 & H2 & H3 & H4). unfold registry_ok; simpl. split_and!; auto.
Qed.

Lemma is_Some_ensure_document roomId (docs : gmap string YDoc) r :
  is_Some (docs !! r) → is_Some (ensure_document roomId docs !! r).
Proof.
  unfold ensure_document. destruct (docs !! roomId) eqn:Hd; [done|].
  intros Hr. rewrite lookup_insert. by case_decide.
Qed.

Lemma is_Some_insert_document roomId doc (docs : gmap string YDoc) r :
  is_Some (docs !! r) → is_Some (<[roomId := doc]> docs !! r).
Proof. intros Hr. rewrite lookup_insert. by case_decide. Qed.

Lemma registry_ok_create_room roomId s :
  rooms (roomManager s) !! roomId = None →
  registry_ok s → registry_ok (create_room roomId s).
Proof.
  intros Hnew (H1 & H2 & H3 & H4).
  unfold registry_ok, create_room; simpl. split_and!.
  - intros r room. rewrite !lookup_insert. case_decide as Hr.
    + intros [= <-]. exists ∅. by rewrite size_empty.
    + apply H1.
  - intros r. rewrite !lookup_insert. case_decide; [done|apply H2].
  - intros r. rewrite lookup_insert. case_decide as Hr.
    + subst r. intros _. unfold ensure_document.
      destruct (documents (crdt s) !! roomId) eqn:Hd; [by rewrite Hd|].
      by rewrite lookup_insert_eq.
    + intros Hr'. by apply is_Some_ensure_document, H3.
  - apply H4.
Qed.

Lemma registry_ok_insert_client clientId client s :
  client_id client = clientId →
  registry_ok s → registry_ok (with_clients (insert clientId client) s).
Proof.
  intros Hid (H1 & H2 & H3 & H4). unfold registry_ok; simpl. split_and!; auto.
  intros k c. rewrite lookup_insert. case_decide; [congruence|apply H4].
Qed.

Lemma registry_ok_delete_client clientId s :
  registry_ok s → registry_ok (with_clients (delete clientId) s).
Proof.
  intros (H1 & H2 & H3 & H4). unfold registry_ok; simpl. split_and!; auto.
  intros k c. rewrite lookup_delete. case_decide; [done|apply H4].
Qed.

Lemma registry_ok_set_members roomId members s :
  is_Some (rooms (roomManager s) !! roomId) →
  registry_ok s → registry_ok (set_members roomId members s).
Proof.
  intros Hroom (H1 & H2 & H3 & H4).
  unfold registry_ok, set_members; simpl. split_and!; auto.
  - intros r room. rewrite lookup_alter, lookup_insert. case_decide as Hr.
    + subst r. destruct (rooms (roomManager s) !! roomId); [|done].
      intros [= <-]. by exists members.
    + apply H1.
  - intros r. rewrite lookup_alter, lookup_insert. case_decide as Hr.
    + subst r. intros _. by apply fmap_is_Some.
    + apply H2.
  - intros r. rewrite lookup_alter. case_decide as Hr; [|apply H3].
    subst r. intros _. by apply H3.
Qed.

Lemma registry_ok_drop_room roomId s :
  registry_ok s → registry_ok (drop_room roomId s).
Proof.
  intros (H1 & H2 & H3 & H4).
  unfold registry_ok, drop_room; simpl. split_and!; auto.
  - intros r room. rewrite !lookup_delete. case_decide; [done|apply H1].
  - intros r. rewrite !lookup_delete. case_decide; [done|apply H2].
  - intros r. rewrite !lookup_delete. case_decide; [by intros [? ?]|apply H3].
Qed.

Lemma registry_ok_leave_room clientId r s :
  registry_ok s → registry_ok (leave_room clientId r s).
Proof.
  intros Hok. unfold leave_room.
  apply registry_ok_delete_client.
  destruct Hok as (H1 & H2 & H3 & H4).
  destruct (rooms (roomManager s) !! r) as [room|] eqn:Hroom.
  - destruct (H1 r room Hroom) as (members & Hm & Hcount).
    simpl. rewrite lookup_alter_eq, Hm. simpl.
    assert (registry_ok
      (with_rooms (alter (set_clientCount (size (members ∖ {[clientId]}))) r)
         (with_roomClients (alter (λ m, m ∖ {[clientId]}) r) s))) as Hok'.
    { unfold registry_ok; simpl. split_and!; auto.
      - intros r' room'. rewrite !lookup_alter. case_decide as Hr.
        + subst r'. rewrite Hroom, Hm. simpl. intros [= <-]. eauto.
        + apply H1.
      - intros r'. rewrite !lookup_alter. case_decide as Hr; [|apply H2].
        subst r'. rewrite Hroom. by intros _.
      - intros r'. rewrite lookup_alter. case_decide as Hr; [|apply H3].
        subst r'. intros _. apply H3. by rewrite Hroom. }
    case_bool_decide; [by apply registry_ok_drop_room|done].
  - unfold registry_ok; simpl. split_and!; auto.
    + intros r' room'. rewrite lookup_alter. case_decide as Hr; [|apply H1].
      subst r'. by rewrite Hroom.
    + intros r'. rewrite lookup_alter. case_decide as Hr; [|apply H2].
      subst r'. intros Hsome. apply fmap_is_Some in Hsome. by apply H2.
Qed.

End RegistryInvariant.

Section RegistryPreserved.
Context `{P : Platform}.

Lemma registry_ok_sends {A} (m : M A) : sends m → preserves registry_ok m.
Proof. intros Hm s Hs. eapply registry_ok_only_sends; [apply Hm|done]. Qed.

Lemma registry_ok_getOrCreateDocument roomId :
  preserves registry_ok (getOrCreateDocument roomId).
Proof.
  intros s Hs. unfold exec. rewrite getOrCreateDocument_run. simpl.
  apply registry_ok_documents; [|done].
  intros r. apply is_Some_ensure_document.
Qed.

Lemma registry_ok_insert_document roomId doc :
  preserves registry_ok (modify (with_documents (insert roomId doc))).
Proof.
  apply preserves_modify. intros s Hs.
  apply registry_ok_documents; [|done].
  intros r. apply is_Some_insert_document.
Qed.

Lemma registry_ok_applyJsonUpdate roomId updateObj :
  preserves registry_ok (applyJsonUpdate roomId updateObj).
Proof.
  unfold applyJsonUpdate.
  repeat first [preserves_step | apply registry_ok_getOrCreateDocument
               | apply registry_ok_insert_document].
Qed.

Lemma registry_ok_applyUpdate roomId update :
  preserves registry_ok (applyUpdate roomId update).
Proof.
  unfold applyUpdate.
  repeat first [preserves_step | apply registry_ok_getOrCreateDocument
               | apply registry_ok_insert_document].
Qed.

Lemma registry_ok_getOrCreateRoom roomId :
  preserves registry_ok (getOrCreateRoom roomId).
Proof.
  intros s Hs. unfold exec. rewrite getOrCreateRoom_run.
  destruct (rooms (roomManager s) !! roomId) eqn:Hr; [done|].
  by apply registry_ok_create_room.
Qed.

Lemma is_Some_room_getOrCreateRoom roomId s :
  is_Some (rooms (roomManager (exec (getOrCreateRoom roomId) s)) !! roomId).
Proof.
  unfold exec. rewrite getOrCreateRoom_run.
  destruct (rooms (roomManager s) !! roomId) eqn:Hr; simpl.
  - by rewrite Hr.
  - by rewrite lookup_insert_eq.
Qed.

Lemma registry_ok_addClientToRoom clientId roomId iid :
  preserves registry_ok (addClientToRoom clientId roomId iid).
Proof.
  intros s Hs. unfold exec at 1. rewrite addClientToRoom_run.
  pose proof (registry_ok_getOrCreateRoom roomId s Hs) as Hs1.
  pose proof (is_Some_room_getOrCreateRoom roomId s) as Hroom.
  set (s1 := exec (getOrCreateRoom roomId) s) in *.
  assert (registry_ok
    (with_clients (insert clientId
       (new_client clientId roomId iid (Date_now_at (clock s1))))
       (exec Date_now s1))) as Hs2.
  { apply registry_ok_insert_client; [done|].
    eapply registry_ok_sends; [apply sends_Date_now|done]. }
  destruct (roomClients (roomManager s1) !! roomId); simpl; [|done].
  by apply registry_ok_set_members.
Qed.

Lemma registry_ok_removeClientFromRoom clientId :
  preserves registry_ok (removeClientFromRoom clientId).
Proof.
  intros s Hs. unfold exec. rewrite removeClientFromRoom_run.
  destruct (clients (roomManager s) !! clientId); simpl; [|done].
  by apply registry_ok_leave_room.
Qed.

Lemma registry_ok_alter_room f roomId :
  (∀ room, clientCount (f room) = clientCount room) →
  preserves registry_ok (modify (with_rooms (alter f roomId))).
Proof.
  intros Hf. apply preserves_modify. intros s (H1 & H2 & H3 & H4).
  unfold registry_ok; simpl. split_and!; auto.
  - intros r room. rewrite lookup_alter. case_decide as Hr; [|apply H1].
    subst r. destruct (rooms (roomManager s) !! roomId) as [room0|] eqn:H0;
      [|done].
    intros [= <-]. rewrite Hf. by apply H1.
  - intros r Hr. rewrite lookup_alter. case_decide; [|by apply H2].
    subst r. by apply fmap_is_Some, H2.
  - intros r. rewrite lookup_alter. case_decide as Hr; [|apply H3].
    subst r. intros Hsome. apply fmap_is_Some in Hsome. by apply H3.
Qed.

Lemma registry_ok_recordUpdate roomId :
  preserves registry_ok (recordUpdate roomId).
Proof.
  unfold recordUpdate.
  repeat first [preserves_step | by apply registry_ok_alter_room
               | apply registry_ok_sends, sends_Date_now].
Qed.

End RegistryPreserved.

#[global] Hint Resolve registry_ok_getOrCreateDocument registry_ok_applyJsonUpdate
  registry_ok_applyUpdate registry_ok_getOrCreateRoom
  registry_ok_addClientToRoom registry_ok_removeClientFromRoom
  registry_ok_recordUpdate : preserves.

(** A handler keeps the registry invariant: its registry and document
    operations do, and the rest only sends. *)
Ltac registry_auto :=
  repeat first
    [ preserves_step
    | solve [eauto with preserves]
    | apply registry_ok_sends; solve [eauto with sends] ].

Section HandlersInvariant.
Context `{P : Platform}.

Lemma registry_ok_getDocumentState roomId :
  preserves registry_ok (getDocumentState roomId).
Proof. unfold getDocumentState. registry_auto. Qed.

Lemma registry_ok_handleJoinRoom clientId message :
  preserves registry_ok (handleJoinRoom clientId message).
Proof.
  unfold handleJoinRoom. pose proof registry_ok_getDocumentState.
  registry_auto.
Qed.

Lemma registry_ok_handleLeaveRoom clientId message :
  preserves registry_ok (handleLeaveRoom clientId message).
Proof. unfold handleLeaveRoom. registry_auto. Qed.

Lemma registry_ok_afterLocalApply clientId roomId update :
  preserves registry_ok (afterLocalApply clientId roomId update).
Proof. unfold afterLocalApply. registry_auto. Qed.

Lemma registry_ok_handleDocumentUpdate clientId message :
  preserves registry_ok (handleDocumentUpdate clientId message).
Proof.
  unfold handleDocumentUpdate. pose proof registry_ok_afterLocalApply.
  registry_auto.
Qed.

Lemma registry_ok_handleRedisUpdate roomId redisMessage :
  preserves registry_ok (handleRedisUpdate roomId redisMessage).
Proof. unfold handleRedisUpdate. registry_auto. Qed.

Lemma registry_ok_handleDisconnect clientId :
  preserves registry_ok (handleDisconnect clientId).
Proof.
  unfold handleDisconnect, getClient.
  pose proof registry_ok_handleLeaveRoom.
  registry_auto.
  apply preserves_modify. intros s Hs. exact Hs.
Qed.

Lemma registry_ok_handleMessage clientId data :
  preserves registry_ok (handleMessage clientId data).
Proof.
  unfold handleMessage.
  pose proof registry_ok_handleJoinRoom.
  pose proof registry_ok_handleLeaveRoom.
  pose proof registry_ok_handleDocumentUpdate.
  registry_auto.
Qed.

Lemma registry_ok_dispatch e : preserves registry_ok (dispatch e).
Proof.
  destruct e; simpl.
  - unfold handleConnection. registry_auto.
    apply preserves_modify. intros s Hs. exact Hs.
  - apply registry_ok_handleMessage.
  - apply registry_ok_handleDisconnect.
  - unfold handleError. registry_auto.
  - apply preserves_modify. intros s Hs. exact Hs.
  - pose proof registry_ok_handleRedisUpdate. registry_auto.
  - registry_auto.
Qed.

Lemma reachable_registry_ok s : reachable s → registry_ok s.
Proof.
  induction 1 as [iid|s e _ IH].
  - apply registry_ok_initial.
  - by apply registry_ok_dispatch.
Qed.

End HandlersInvariant.

Section Membership.
Context `{P : Platform}.

Lemma alter_as_insert {A} (f : A → A) (k : string) (m : gmap string A) x :
  m !! k = Some x → alter f k m = <[k := f x]> m.
Proof.
  intros Hk. apply map_eq. intros j.
  rewrite lookup_alter, lookup_insert. case_decide; [|done].
  subst j. by rewrite Hk.
Qed.

(** What [addClientToRoom] does in a state the registry is consistent
    in: it completes, and writes the client record, the member set, the
    room counter and (for a new room) the room and its document. *)
Lemma addClientToRoom_ok clientId r iid s :
  registry_ok s →
  let s' := exec (addClientToRoom clientId r iid) s in
  let members := default ∅ (roomClients (roomManager s) !! r) ∪ {[clientId]} in
  let room := default (new_room r (Date_now_at (clock s)))
                (rooms (roomManager s) !! r) in
  ∃ now,
    result (addClientToRoom clientId r iid) s
    = Normal (new_client clientId r iid now)
    ∧ clients (roomManager s')
      = <[clientId := new_client clientId r iid now]> (clients (roomManager s))
    ∧ roomClients (roomManager s') = <[r := members]> (roomClients (roomManager s))
    ∧ rooms (roomManager s')
      = <[r := set_clientCount (size members) room]> (rooms (roomManager s))
    ∧ documents (crdt s') = ensure_document r (documents (crdt s))
    ∧ clientConnections s' = clientConnections s
    ∧ redis s' = redis s
    ∧ instanceId s' = instanceId s.
Proof.
  intros Hok s' members room. subst s'. unfold exec, result.
  rewrite addClientToRoom_run. unfold exec. rewrite getOrCreateRoom_run.
  destruct Hok as (H1 & H2 & H3 & H4).
  destruct (rooms (roomManager s) !! r) as [room0|] eqn:Hroom; simpl fst.
  - destruct (H1 r room0 Hroom) as (members0 & Hm & Hcount).
    subst members room. rewrite Hm. fields.
    eexists. split_and!; try reflexivity.
    + by apply alter_as_insert.
    + unfold ensure_document.
      destruct (H3 r) as [doc Hdoc]; [by rewrite Hroom|]. by rewrite Hdoc.
  - assert (roomClients (roomManager s) !! r = None) as Hm.
    { destruct (roomClients (roomManager s) !! r) eqn:E; [|done].
      destruct (H2 r) as [x Hx]; [by rewrite E|]. congruence. }
    subst members room. rewrite Hm. fields.
    rewrite lookup_insert_eq. fields.
    eexists. split_and!; try reflexivity.
    all: try (by rewrite insert_insert_eq).
    + rewrite (alter_as_insert _ _ _ (new_room r (Date_now_at (clock s))))
        by apply lookup_insert_eq.
      by rewrite insert_insert_eq.
Qed.

End Membership.

(** ** Room lifecycle and membership *)

Section RoomLifecycle.
Context `{P : Platform}.

(** Where the record of the only member of a room names that room, the
    same call of [removeClientFromRoom] deletes the room record, its
    member set and its document; a join of the same room id afterwards
    creates a new room with that one member, no recorded update, and a
    newly constructed document, whose encoding is what the joiner is
    sent. *)
Theorem last_member_leaving_deletes_room s c r client :
  clients (roomManager s) !! c = Some client →
  client_roomId client = r →
  roomClients (roomManager s) !! r = Some {[c]} →
  is_Some (rooms (roomManager s) !! r) →
  let s1 := exec (removeClientFromRoom c) s in
  rooms (roomManager s1) !! r = None
  ∧ roomClients (roomManager s1) !! r = None
  ∧ documents (crdt s1) !! r = None
  ∧ clients (roomManager s1) !! c = None
  ∧ ∀ c' iid,
      let s2 := exec (addClientToRoom c' r iid) s1 in
      rooms (roomManager s2) !! r
      = Some (set_clientCount 1 (new_room r (Date_now_at (clock s1))))
      ∧ roomClients (roomManager s2) !! r = Some {[c']}
      ∧ documents (crdt s2) !! r = Some Y_Doc_new
      ∧ result (getDocumentState r) s2
        = Normal (Y_encodeStateAsUpdate Y_Doc_new).
Proof.
  intros Hc Hr Hm [room Hroom] s1.
  assert (s1 = with_clients (delete c)
                 (drop_room r
                    (with_rooms (alter (set_clientCount 0) r)
                       (with_roomClients (alter (λ m, m ∖ {[c]}) r) s)))) as Hs1.
  { subst s1. unfold exec. rewrite removeClientFromRoom_run, Hc, Hr.
    unfold leave_room. fields. rewrite Hroom, lookup_alter_eq, Hm.
    cbn [fmap option_fmap option_map from_option].
    rewrite difference_diag_L.
    rewrite size_empty. by rewrite bool_decide_eq_true_2. }
  assert (rooms (roomManager s1) !! r = None) as Hno_room
    by (rewrite Hs1; fields; apply lookup_delete_eq).
  assert (documents (crdt s1) !! r = None) as Hno_doc
    by (rewrite Hs1; fields; apply lookup_delete_eq).
  split_and!; try done.
  - rewrite Hs1. fields. apply lookup_delete_eq.
  - rewrite Hs1. fields. apply lookup_delete_eq.
  - intros c' iid s2.
    assert (s2 = set_members r (∅ ∪ {[c']})
                   (with_clients (insert c'
                      (new_client c' r iid (Date_now_at (S (clock s1)))))
                      (exec Date_now (create_room r s1)))) as Hs2.
    { subst s2. unfold exec at 1. rewrite addClientToRoom_run.
      unfold exec at 1 2 3 4. rewrite getOrCreateRoom_run, Hno_room. fields.
      by rewrite lookup_insert_eq. }
    assert (documents (crdt s2) !! r = Some Y_Doc_new) as Hdoc.
    { rewrite Hs2. fields. unfold ensure_document.
      rewrite Hno_doc. apply lookup_insert_eq. }
    split_and!; try done.
    + rewrite Hs2. fields. rewrite lookup_alter_eq, lookup_insert_eq.
      rewrite (left_id_L ∅ (∪)), size_singleton. reflexivity.
    + rewrite Hs2. fields. rewrite lookup_insert_eq.
      by rewrite (left_id_L ∅ (∪)).
    + unfold result. rewrite getDocumentState_run. by rewrite Hdoc.
Qed.

End RoomLifecycle.

Section Rejoin.
Context `{P : Platform}.

(** C10.  When client [c] is a member of room [r] and its stored record
    is the one for that room on this instance, adding [c] to [r] again
    leaves the member sets, the room records (so the room's clientCount)
    and the documents as they are, and stores for [c] the record it had
    with a new joinedAt. *)
Theorem rejoin_same_room_idempotent s c r iid members room client :
  roomClients (roomManager s) !! r = Some members → c ∈ members →
  rooms (roomManager s) !! r = Some room → clientCount room = size members →
  clients (roomManager s) !! c = Some client →
  client_id client = c → client_roomId client = r →
  client_instanceId client = iid →
  let s' := exec (addClientToRoom c r iid) s in
  roomClients (roomManager s') = roomClients (roomManager s)
  ∧ rooms (roomManager s') = rooms (roomManager s)
  ∧ crdt s' = crdt s
  ∧ ∃ now,
      result (addClientToRoom c r iid) s
      = Normal {| client_id := client_id client;
                  client_roomId := client_roomId client;
                  client_instanceId := client_instanceId client;
                  joinedAt := now |}
      ∧ clients (roomManager s')
        = <[c := {| client_id := client_id client;
                    client_roomId := client_roomId client;
                    client_instanceId := client_instanceId client;
                    joinedAt := now |}]> (clients (roomManager s)).
Proof.
  intros Hm Hin Hroom Hcount Hc Hid Hr Hi s'.
  assert (addClientToRoom c r iid s
          = (set_members r (members ∪ {[c]})
               (with_clients (insert c (new_client c r iid (Date_now_at (clock s))))
                  (exec Date_now s)),
             Normal (new_client c r iid (Date_now_at (clock s))))) as Hrun.
  { rewrite addClientToRoom_run.
    assert (exec (getOrCreateRoom r) s = s) as ->
      by (unfold exec; by rewrite getOrCreateRoom_run, Hroom).
    by rewrite Hm. }
  subst s'. unfold exec, result. rewrite Hrun. fields.
  assert (members ∪ {[c]} = members) as ->
    by (rewrite union_comm_L; by apply subseteq_union_1_L, singleton_subseteq_l).
  split_and!.
  - by apply insert_id.
  - rewrite (alter_as_insert _ _ _ room) by done.
    apply insert_id. rewrite Hroom. f_equal.
    destruct room; unfold set_clientCount; simpl in *. by rewrite Hcount.
  - reflexivity.
  - exists (Date_now_at (clock s)). rewrite Hid, Hr, Hi. done.
Qed.

(** C8 (what the code does).  A client that joins a second room without
    leaving the first stays in the first room's member set: after the two
    calls it is a member of both rooms, while its record names only the
    second. *)
Theorem second_join_keeps_first_membership s c r1 r2 iid :
  registry_ok s → r1 ≠ r2 →
  let s' := exec (addClientToRoom c r1 iid;; addClientToRoom c r2 iid) s in
  (∃ m1, roomClients (roomManager s') !! r1 = Some m1 ∧ c ∈ m1)
  ∧ (∃ m2, roomClients (roomManager s') !! r2 = Some m2 ∧ c ∈ m2)
  ∧ client_roomId <$> clients (roomManager s') !! c = Some r2.
Proof.
  intros Hok Hne s'.
  destruct (addClientToRoom_ok c r1 iid s Hok) as (t1 & Hres1 & _ & Hm1 & _).
  pose proof (registry_ok_addClientToRoom c r1 iid s Hok) as Hok1.
  set (s1 := exec (addClientToRoom c r1 iid) s) in *.
  destruct (addClientToRoom_ok c r2 iid s1 Hok1) as (t2 & _ & Hc2 & Hm2 & _).
  assert (s' = exec (addClientToRoom c r2 iid) s1) as ->.
  { subst s'. rewrite exec_bind. by rewrite Hres1. }
  rewrite Hm2, Hc2, Hm1. split_and!.
  - eexists. rewrite lookup_insert_ne, lookup_insert_eq by done.
    split; [done|set_solver].
  - eexists. rewrite lookup_insert_eq. split; [done|set_solver].
  - by rewrite lookup_insert_eq.
Qed.

End Rejoin.

(** ** The replication bus *)

Section Bus.
Context `{P : Platform}.

Ltac run :=
  cbv beta iota delta
    [mbind M_bind mret M_ret gets modify try_catch throw exec result fst snd].

Lemma handleRedisUpdate_self_echo s roomId redisMessage update :
  JSON_parse_SyncUpdate redisMessage = Some update →
  sync_instanceId update = instanceId s →
  handleRedisUpdate roomId redisMessage s = (s, Normal tt).
Proof.
  intros Hparse Hself. unfold handleRedisUpdate. rewrite Hparse. run.
  by rewrite bool_decide_eq_true_2.
Qed.

Lemma forEach_unchanged {A} (f : A → M unit) l s :
  (∀ a, f a s = (s, Normal tt)) → forEach f l s = (s, Normal tt).
Proof.
  intros Hf. induction l as [|a l IH]; [done|].
  simpl. unfold mbind, M_bind. by rewrite Hf.
Qed.

(** C2.  A SYNC_UPDATE whose instanceId is the local instance id changes
    nothing: the handler returns before it touches the document store,
    the room statistics or any socket, whatever listeners the channel
    has. *)
Theorem self_echo_suppressed s redisMessage update :
  JSON_parse_SyncUpdate redisMessage = Some update →
  sync_instanceId update = instanceId s →
  (∀ roomId, handleRedisUpdate roomId redisMessage s = (s, Normal tt))
  ∧ (∀ channel, dispatch (RedisMessage channel redisMessage) s = (s, Normal tt)).
Proof.
  intros Hparse Hself. split.
  - intros roomId. by eapply handleRedisUpdate_self_echo.
  - intros channel. simpl. run.
    apply forEach_unchanged. intros [roomId].
    by eapply handleRedisUpdate_self_echo.
Qed.

Lemma subscribe_run channel callback s :
  exec (subscribe channel callback) s
  = with_redis (λ r,
      {| subscriptions := <[channel := callback]> (subscriptions r);
         commands := commands r ++ [SUBSCRIBE channel callback] |}) s.
Proof.
  unfold subscribe, redis_command. run. simpl.
  by destruct (redis_rejects _).
Qed.

Lemma preserves_redis_tail x clientId roomId :
  channel_of roomId ∈ dom (subscriptions x) →
  preserves (λ s, redis s = x)
    (channels ← subscribedChannels;
     if bool_decide (channel_of roomId ∈ channels) then mret tt
     else try_catch (subscribe (channel_of roomId) (HandleRedisUpdate roomId))
            (sendError clientId "Failed to subscribe to room updates")).
Proof.
  intros Hin s Hs. unfold subscribedChannels. run.
  rewrite bool_decide_eq_true_2; [done|].
  apply elem_of_elements. by rewrite Hs.
Qed.

Lemma keeps_redis_ws_send x clientId message :
  preserves (λ s, redis s = x) (ws_send clientId message).
Proof. unfold ws_send. preserves_auto. Qed.

Lemma keeps_redis_sendError x clientId text :
  preserves (λ s, redis s = x) (sendError clientId text).
Proof.
  unfold sendError, is_open. pose proof (keeps_redis_ws_send x).
  preserves_auto.
Qed.

Lemma keeps_redis_broadcastToRoom x roomId message exclude :
  preserves (λ s, redis s = x) (broadcastToRoom roomId message exclude).
Proof.
  unfold broadcastToRoom, getClientsInRoom, is_open.
  pose proof (keeps_redis_ws_send x). preserves_auto.
Qed.

Lemma keeps_redis_getOrCreateDocument x roomId :
  preserves (λ s, redis s = x) (getOrCreateDocument roomId).
Proof. unfold getOrCreateDocument. preserves_auto. Qed.

Lemma keeps_redis_addClientToRoom x clientId roomId iid :
  preserves (λ s, redis s = x) (addClientToRoom clientId roomId iid).
Proof.
  unfold addClientToRoom, getOrCreateRoom.
  pose proof (keeps_redis_getOrCreateDocument x). preserves_auto.
Qed.

Lemma keeps_redis_join x clientId message :
  channel_of (roomId message) ∈ dom (subscriptions x) →
  preserves (λ s, redis s = x) (handleJoinRoom clientId message).
Proof.
  intros Hin. unfold handleJoinRoom, getDocumentState.
  pose proof (keeps_redis_ws_send x).
  pose proof (keeps_redis_sendError x).
  pose proof (keeps_redis_broadcastToRoom x).
  pose proof (keeps_redis_getOrCreateDocument x).
  pose proof (keeps_redis_addClientToRoom x).
  pose proof (preserves_redis_tail x clientId (roomId message) Hin).
  case_bool_decide; [done|].
  apply preserves_try_catch; [|done].
  do 10 (apply preserves_bind; [by preserves_auto|intros ?]).
  done.
Qed.

(** C9 (as the code has it).  A repeated [subscribe] for a channel keeps
    the set of subscribed channels and holds one callback for the channel
    in the table, the one of the latest call, and it hands the transport a
    further SUBSCRIBE with that callback.  It is the join handler that
    never subscribes twice: for a room whose channel is among the
    subscribed ones it leaves the bus as it is. *)
Theorem resubscribe_replaces_callback :
  (∀ s channel cb1 cb2,
     let s1 := exec (subscribe channel cb1) s in
     let s2 := exec (subscribe channel cb2) s1 in
     dom (subscriptions (redis s2)) = dom (subscriptions (redis s1))
     ∧ subscriptions (redis s2) !! channel = Some cb2
     ∧ commands (redis s2) = commands (redis s1) ++ [SUBSCRIBE channel cb2])
  ∧ (∀ s clientId message,
       channel_of (roomId message) ∈ dom (subscriptions (redis s)) →
       redis (exec (handleJoinRoom clientId message) s) = redis s).
Proof.
  split.
  - intros s channel cb1 cb2 s1 s2. subst s2 s1. rewrite !subscribe_run. fields.
    split_and!; [|apply lookup_insert_eq|done].
    rewrite !dom_insert_L. by rewrite (assoc_L (∪)), union_idemp_L.
  - intros s clientId message Hch.
    by apply (keeps_redis_join _ clientId message).
Qed.

End Bus.

(** ** Rooms and documents *)

Section RoomsAndDocuments.
Context `{P : Platform}.

Lemma reachable_run es s : reachable s → reachable (run es s).
Proof.
  revert s. induction es as [|e es IH]; intros s Hs; [done|].
  simpl. apply IH. by constructor.
Qed.

(** C7 (as the code has it).  In every reachable state each room of the
    registry has a document in the store, and every event keeps it so.
    (The converse fails: an update for an id that has no room creates its
    document.) *)
Theorem every_room_has_document s :
  reachable s →
  (∀ r, is_Some (rooms (roomManager s) !! r) →
        is_Some (documents (crdt s) !! r))
  ∧ (∀ e r, is_Some (rooms (roomManager (exec (dispatch e) s)) !! r) →
            is_Some (documents (crdt (exec (dispatch e) s)) !! r)).
Proof.
  intros Hs. split.
  - apply (reachable_registry_ok s Hs).
  - intros e. apply (reachable_registry_ok (exec (dispatch e) s)).
    by constructor.
Qed.

End RoomsAndDocuments.

(** ** Document updates *)

Section DocumentUpdates.
Context `{P : Platform}.

Lemma exec_try_catch {A} (body handler : M A) s :
  exec (try_catch body handler) s
  = match result body s with
    | Normal _ => exec body s
    | Thrown => exec handler (exec body s)
    end.
Proof. unfold exec, result, try_catch. by destruct (body s) as [s' [a|]]. Qed.

Lemma result_try_catch_ret {A} (body : M A) (a : A) s :
  ∃ a', result (try_catch body (mret a)) s = Normal a'.
Proof.
  unfold result, try_catch. destruct (body s) as [s' [a'|]]; simpl; eauto.
Qed.

Lemma insert_ensure_document r doc (docs : gmap string YDoc) :
  <[r := doc]> (ensure_document r docs) = <[r := doc]> docs.
Proof.
  unfold ensure_document. destruct (docs !! r); [done|].
  by rewrite insert_insert_eq.
Qed.

Lemma documents_applyUpdate r update s :
  update ≠ [] →
  documents (crdt (exec (applyUpdate r update) s))
  = <[r := (Y_applyUpdate (default Y_Doc_new (documents (crdt s) !! r)) update).1]>
      (documents (crdt s)).
Proof.
  intros Hne. unfold applyUpdate.
  rewrite bool_decide_eq_false_2 by (by destruct update).
  unfold exec, try_catch, mbind, M_bind. rewrite getOrCreateDocument_run.
  unfold modify, throw, mret, M_ret.
  destruct (Y_applyUpdate _ update) as [doc' []]; fields;
    apply insert_ensure_document.
Qed.

Lemma documents_applyJsonUpdate r updateObj s :
  documents (crdt (exec (applyJsonUpdate r updateObj) s))
  = <[r := foldl (λ d kv, Y_Map_set d kv.1 kv.2)
             (default Y_Doc_new (documents (crdt s) !! r)) updateObj]>
      (documents (crdt s)).
Proof.
  unfold applyJsonUpdate, exec, try_catch, mbind, M_bind.
  rewrite getOrCreateDocument_run. unfold modify. fields.
  apply insert_ensure_document.
Qed.

Lemma keeps_crdt_ws_send x clientId message :
  preserves (λ s, crdt s = x) (ws_send clientId message).
Proof. unfold ws_send. preserves_auto. Qed.

Lemma keeps_crdt_afterLocalApply x clientId roomId update :
  preserves (λ s, crdt s = x) (afterLocalApply clientId roomId update).
Proof.
  unfold afterLocalApply, recordUpdate, incrementUpdates, publish,
    redis_command, broadcastToRoom, getClientsInRoom, is_open.
  pose proof (keeps_crdt_ws_send x). preserves_auto.
Qed.

Lemma crdt_then_afterLocalApply (m : M unit) clientId roomId update s :
  crdt (exec (try_catch (m;; afterLocalApply clientId roomId update) (mret tt)) s)
  = crdt (exec m s).
Proof.
  rewrite exec_try_catch.
  assert (crdt (exec (m;; afterLocalApply clientId roomId update) s)
          = crdt (exec m s)) as Hbody.
  { rewrite exec_bind. destruct (result m s); [|done].
    by apply keeps_crdt_afterLocalApply. }
  by destruct (result _ s).
Qed.

(** C6 (as the code has it).  A DOCUMENT_UPDATE with a room id and a
    string update is decoded from base64.  When the text of the bytes,
    trimmed, begins with "{" and [JSON.parse] accepts it, the fields of
    the record are set on the room's document (the patch path); when it
    does not begin with "{" or [JSON.parse] rejects it, non-empty bytes go
    to [Y.applyUpdate] (the merge path); empty bytes are dropped and the
    state is unchanged.  The handler never throws. *)
Theorem document_update_paths s clientId message update cid ts :
  roomId message ≠ EmptyString →
  payload message = Some (DocumentUpdatePayload (Some update) cid ts) →
  let r := roomId message in
  let bytes := Buffer_from_base64 update in
  let text := Buffer_toString_utf8 bytes in
  let doc := default Y_Doc_new (documents (crdt s) !! r) in
  let s' := exec (handleDocumentUpdate clientId message) s in
  (∀ obj, looksLikeJson text = true → JSON_parse_Record text = Some obj →
     documents (crdt s')
     = <[r := foldl (λ d kv, Y_Map_set d kv.1 kv.2) doc obj]> (documents (crdt s)))
  ∧ (looksLikeJson text = false ∨ JSON_parse_Record text = None →
     bytes ≠ [] →
     documents (crdt s') = <[r := (Y_applyUpdate doc bytes).1]> (documents (crdt s)))
  ∧ (bytes = [] → s' = s)
  ∧ result (handleDocumentUpdate clientId message) s = Normal tt.
Proof.
  intros Hroom Hpayload r bytes text doc s'.
  assert (handleDocumentUpdate clientId message
          = try_catch
              match jsonUpdateObj_of bytes with
              | Some jsonUpdateObj =>
                  applyJsonUpdate r jsonUpdateObj;;
                  afterLocalApply clientId r update
              | None =>
                  if bool_decide (length bytes = 0%nat) then mret tt
                  else applyUpdate r bytes;; afterLocalApply clientId r update
              end (mret tt)) as Hcode.
  { unfold handleDocumentUpdate. rewrite Hpayload.
    by rewrite bool_decide_eq_false_2. }
  subst s'. rewrite Hcode. split_and!.
  - intros obj Hlooks Hparse.
    unfold jsonUpdateObj_of. fold text. rewrite Hlooks, Hparse.
    rewrite crdt_then_afterLocalApply. apply documents_applyJsonUpdate.
  - intros Hnot Hne.
    assert (jsonUpdateObj_of bytes = None) as ->.
    { unfold jsonUpdateObj_of. fold text.
      destruct Hnot as [->| ->]; [done|by destruct (looksLikeJson text)]. }
    rewrite bool_decide_eq_false_2 by (by destruct bytes).
    rewrite crdt_then_afterLocalApply. by apply documents_applyUpdate.
  - intros Hempty.
    assert (jsonUpdateObj_of bytes = None) as ->.
    { unfold jsonUpdateObj_of. by rewrite Hempty. }
    by rewrite Hempty.
  - destruct (result_try_catch_ret
                match jsonUpdateObj_of bytes with
                | Some jsonUpdateObj =>
                    applyJsonUpdate r jsonUpdateObj;;
                    afterLocalApply clientId r update
                | None =>
                    if bool_decide (length bytes = 0%nat) then mret tt
                    else applyUpdate r bytes;; afterLocalApply clientId r update
                end tt s) as [[] ->].
    done.
Qed.

End DocumentUpdates.

(** ** Convergence of the merge path *)

Section MergePath.
Context `{P : Platform}.
Hypothesis merge_comm : merge_commutative.
Hypothesis merge_idem : merge_idempotent.

Lemma foldl_merged_absorb (x : Buffer) l doc :
  x ∈ l → foldl merged (merged doc x) l = foldl merged doc l.
Proof.
  revert doc. induction l as [|y l IH]; intros doc Hin.
  - by apply elem_of_nil in Hin.
  - simpl. destruct (decide (y = x)) as [->|Hne].
    + by rewrite merge_idem.
    + rewrite merge_comm. apply IH.
      apply elem_of_cons in Hin as [->|Hin]; done.
Qed.

Lemma foldl_merged_remove_dups (l : list Buffer) doc :
  foldl merged doc (remove_dups l) = foldl merged doc l.
Proof.
  revert doc. induction l as [|x l IH]; intros doc; [done|].
  simpl. case_decide as Hin.
  - by rewrite IH, foldl_merged_absorb.
  - simpl. apply IH.
Qed.

Lemma foldl_merged_Permutation (l k : list Buffer) doc :
  l ≡ₚ k → foldl merged doc l = foldl merged doc k.
Proof.
  intros Hperm. revert doc.
  induction Hperm as [|x l k _ IH|x y l|l k m _ IH1 _ IH2]; intros doc; simpl.
  - done.
  - apply IH.
  - by rewrite merge_comm.
  - by rewrite IH1.
Qed.

Lemma foldl_merged_same_set (l k : list Buffer) doc :
  (∀ u, u ∈ l ↔ u ∈ k) → foldl merged doc l = foldl merged doc k.
Proof.
  intros Hset.
  rewrite <- (foldl_merged_remove_dups l), <- (foldl_merged_remove_dups k).
  apply foldl_merged_Permutation.
  apply NoDup_Permutation; [apply NoDup_remove_dups..|].
  intros u. by rewrite !elem_of_remove_dups.
Qed.

End MergePath.

Section MergePathCode.
Context `{P : Platform}.

Lemma applyUpdate_empty roomId s : applyUpdate roomId [] s = (s, Normal tt).
Proof. reflexivity. Qed.

Lemma exec_caught {A} (m : M A) (a : A) s :
  exec (try_catch m (mret a)) s = exec m s.
Proof. unfold exec, try_catch. by destruct (m s) as [s' [a'|]]. Qed.

Lemma result_caught (m : M unit) s :
  result (try_catch m (mret tt)) s = Normal tt.
Proof. unfold result, try_catch. by destruct (m s) as [s' [[]|]]. Qed.

(** The document of the room after the updates: the non-empty ones
    merged, in order, into the document the room had (a new one if it had
    none). *)
Lemma document_after_applyUpdates roomId updates s :
  default Y_Doc_new (documents (crdt (exec (applyUpdates roomId updates) s)) !! roomId)
  = foldl merged (default Y_Doc_new (documents (crdt s) !! roomId))
      (filter nonempty updates).
Proof.
  revert s. induction updates as [|u updates IH]; intros s; [done|].
  unfold applyUpdates. simpl forEach. rewrite exec_bind, result_caught.
  fold (applyUpdates roomId updates). rewrite IH, exec_caught.
  destruct u as [|b u].
  - rewrite filter_cons_False by (by intros H). done.
  - rewrite filter_cons_True by done. simpl foldl.
    rewrite documents_applyUpdate by done.
    by rewrite lookup_insert_eq.
Qed.

(** C1.  Provided the merge primitive is commutative and idempotent, two
    sequences of updates with the same elements (one a permutation of the
    other, with any duplications) applied through [applyUpdate] to the
    same starting state (an initially empty document included) leave
    [getDocumentState] returning the same encoded state. *)
Theorem merge_path_converges roomId (us vs : list Buffer) s :
  merge_commutative → merge_idempotent →
  (∀ u, u ∈ us ↔ u ∈ vs) →
  result (getDocumentState roomId) (exec (applyUpdates roomId us) s)
  = result (getDocumentState roomId) (exec (applyUpdates roomId vs) s).
Proof.
  intros Hcomm Hidem Hset. unfold result.
  rewrite !getDocumentState_run. simpl. do 2 f_equal.
  rewrite !document_after_applyUpdates.
  apply foldl_merged_same_set; [done..|].
  intros u. rewrite !list_elem_of_filter. by rewrite Hset.
Qed.

End MergePathCode.

(** ** Joining after a rejected frame *)

Section Join.
Context `{P : Platform}.

Lemma bind_run {A B} (m : M A) (f : A → M B) s s' a :
  m s = (s', Normal a) → (m ≫= f) s = f a s'.
Proof. intros Hm. unfold mbind, M_bind. by rewrite Hm. Qed.

Lemma ws_send_open clientId message ws s :
  clientConnections s !! clientId = Some ws → readyState ws = OPEN →
  ws_send clientId message s
  = (with_clientConnections (insert clientId (after_send ws message)) s,
     Normal tt).
Proof.
  intros Hws Hopen. unfold ws_send, mbind, M_bind, gets, modify.
  rewrite Hws, Hopen. unfold after_send. by rewrite Hopen.
Qed.

Lemma decodeFrame_decodes clientId data message s :
  decodes_to data message →
  decodeFrame clientId data s = (s, Normal (Some message)).
Proof.
  destruct data as [str|b|b|bs]; simpl; try done.
  - by intros ->.
  - by intros [-> ->].
Qed.

(** From the state [s'] a prefix of the code reaches, the rest only
    sends, however it completes and whatever the handler of the
    enclosing [try] does. *)
Lemma only_sends_rest {A} (rest handler : M A) s' :
  sends rest → sends handler →
  only_sends s' (exec (try_catch rest handler) s').
Proof.
  intros Hrest Hhandler. rewrite exec_try_catch.
  destruct (result rest s'); [apply Hrest|].
  eapply only_sends_trans; [apply Hrest|apply Hhandler].
Qed.

Lemma try_catch_prefix {A B} (m : M A) (f : A → M B) handler s s' a :
  m s = (s', Normal a) →
  try_catch (m ≫= f) handler s = try_catch (f a) handler s'.
Proof. intros Hm. unfold try_catch. by rewrite (bind_run _ _ _ _ _ Hm). Qed.

(** A join with a room id, in a consistent state, on an open socket:
    the registry is as [addClientToRoom] leaves it, and the socket was
    sent the document state, then the acknowledgement, then whatever the
    rest of the handler sends. *)
Lemma handleJoinRoom_ok s clientId message ws :
  registry_ok s → roomId message ≠ EmptyString →
  clientConnections s !! clientId = Some ws → readyState ws = OPEN →
  let r := roomId message in
  let doc := default Y_Doc_new (documents (crdt s) !! r) in
  let s' := exec (handleJoinRoom clientId message) s in
  roomManager s'
  = roomManager (exec (addClientToRoom clientId r (instanceId s)) s)
  ∧ ∃ t1 t2 t3 more,
      clientConnections s' !! clientId
      = Some {| readyState := OPEN;
                sent := sent ws ++ state_message r clientId doc t1 t2
                          :: joined_message r clientId t3 :: more |}.
Proof.
  intros Hok Hroom Hws Hopen r doc s'.
  pose proof (addClientToRoom_ok clientId r (instanceId s) s Hok) as Hadd.
  cbv zeta in Hadd. unfold exec, result in Hadd.
  destruct (addClientToRoom clientId r (instanceId s) s) as [sB resB] eqn:HB.
  simpl in Hadd.
  destruct Hadd as (now & -> & _ & _ & _ & Hdocs & Hconns & _ & _).
  assert (documents (crdt sB) !! r = Some doc) as Hdoc.
  { rewrite Hdocs. unfold ensure_document, doc.
    destruct (documents (crdt s) !! r) eqn:Hd; [by rewrite Hd|].
    by rewrite lookup_insert_eq. }
  set (sC := exec Date_now (exec Date_now
               (with_documents (ensure_document r) sB))).
  set (m1 := state_message r clientId doc
               (Date_now_at (clock sB)) (Date_now_at (S (clock sB)))).
  set (sD := with_clientConnections (insert clientId (after_send ws m1)) sC).
  set (m2 := joined_message r clientId (Date_now_at (clock sD))).
  set (sE := with_clientConnections
               (insert clientId (after_send (after_send ws m1) m2))
               (exec Date_now sD)).
  assert (∃ rest, sends rest ∧
            handleJoinRoom clientId message s
            = try_catch rest (sendError clientId "Failed to join room") sE)
    as (rest & Hrest & Hrun).
  { eexists. split; [|unfold handleJoinRoom; fold r].
    2: { rewrite bool_decide_eq_false_2 by done.
         erewrite try_catch_prefix by reflexivity.
         erewrite try_catch_prefix by exact HB.
         erewrite try_catch_prefix by apply getDocumentState_run.
         rewrite Hdoc.
         erewrite try_catch_prefix by reflexivity.
         erewrite try_catch_prefix by reflexivity.
         erewrite try_catch_prefix.
         2: { apply (ws_send_open _ _ ws); [|done]. fields. by rewrite Hconns. }
         erewrite try_catch_prefix by reflexivity.
         erewrite try_catch_prefix.
         2: { apply (ws_send_open _ _ (after_send ws m1)); [|done].
              fields. apply lookup_insert_eq. }
         reflexivity. }
    sends_auto. }
  assert (only_sends sE s') as (_ & Hrm & _ & _ & Hsent).
  { subst s'. unfold exec at 1. rewrite Hrun.
    apply only_sends_rest; [done|apply sends_sendError]. }
  split.
  - rewrite Hrm. unfold exec. rewrite HB. done.
  - destruct (Hsent clientId (after_send (after_send ws m1) m2))
      as [more Hmore]; [subst sE; fields; apply lookup_insert_eq|].
    exists (Date_now_at (clock sB)), (Date_now_at (S (clock sB))),
      (Date_now_at (clock sD)), more.
    rewrite Hmore. simpl. rewrite Hopen.
    by rewrite <- !app_assoc.
Qed.

End Join.

Section InvalidFrames.
Context `{P : Platform}.

Lemma handleMessage_join s clientId data message ws :
  registry_ok s →
  clientConnections s !! clientId = Some ws → readyState ws = OPEN →
  decodes_to data message → type message = JOIN_ROOM →
  roomId message ≠ EmptyString →
  let r := roomId message in
  let s' := exec (handleMessage clientId data) s in
  (∃ members, roomClients (roomManager s') !! r = Some members
              ∧ clientId ∈ members)
  ∧ (∃ now, clients (roomManager s') !! clientId
            = Some (new_client clientId r (instanceId s) now))
  ∧ ∃ t1 t2 t3 more,
      clientConnections s' !! clientId
      = Some {| readyState := OPEN;
                sent := sent ws
                  ++ state_message r clientId
                       (default Y_Doc_new (documents (crdt s) !! r)) t1 t2
                  :: joined_message r clientId t3 :: more |}.
Proof.
  intros Hok Hws Hopen Hdec Htype Hroom r s'.
  set (sA := exec incrementMessagesProcessed (exec Date_now s)).
  assert (only_sends s sA) as HsA.
  { eapply only_sends_trans; [apply sends_Date_now|].
    apply sends_incrementMessagesProcessed. }
  assert (registry_ok sA) as HokA by (by eapply registry_ok_only_sends).
  assert (∃ rest : M unit, sends rest ∧
            handleMessage clientId data s
            = try_catch (handleJoinRoom clientId message;; rest) (mret tt) sA)
    as (rest & Hrest & Hrun).
  { eexists. split; [|unfold handleMessage].
    2: { erewrite try_catch_prefix by reflexivity. fields. rewrite Hws.
         erewrite try_catch_prefix by reflexivity.
         erewrite try_catch_prefix by (by apply decodeFrame_decodes).
         cbv beta iota.
         erewrite try_catch_prefix by reflexivity.
         rewrite Htype. reflexivity. }
    sends_auto. }
  set (sJ := exec (handleJoinRoom clientId message) sA).
  assert (only_sends sJ s') as (_ & Hrm & _ & _ & Hsent).
  { assert (only_sends sJ
              (exec (handleJoinRoom clientId message;; rest) sA)) as Hbody.
    { rewrite exec_bind. fold sJ.
      destruct (result (handleJoinRoom clientId message) sA);
        [apply Hrest|apply only_sends_refl]. }
    subst s'. unfold exec at 1. rewrite Hrun.
    change (only_sends sJ
              (exec (try_catch (handleJoinRoom clientId message;; rest) (mret tt)) sA)).
    rewrite exec_try_catch. by destruct (result _ sA). }
  destruct (handleJoinRoom_ok sA clientId message ws HokA Hroom) as [HrmJ HsentJ].
  { exact Hws. }
  { done. }
  fold r sJ in HrmJ, HsentJ.
  destruct (addClientToRoom_ok clientId r (instanceId sA) sA HokA)
    as (now & _ & Hclients & Hmembers & _).
  rewrite Hrm, HrmJ. split_and!.
  - rewrite Hmembers, lookup_insert_eq. eexists. split; [done|].
    apply elem_of_union_r, elem_of_singleton. reflexivity.
  - rewrite Hclients, lookup_insert_eq. exists now.
    by destruct HsA as (-> & _).
  - destruct HsentJ as (t1 & t2 & t3 & more & HJ).
    destruct (Hsent _ _ HJ) as [more' ->]. simpl.
    exists t1, t2, t3, (more ++ more').
    rewrite <- app_assoc. reflexivity.
Qed.

(** C5.  A frame that neither decode path accepts is answered, on an
    open connection, with exactly one ERROR message "Invalid message
    format": nothing else is sent on the socket, which stays open and
    registered, and the rooms, the documents and the bus are unchanged.
    A JOIN_ROOM with a room id sent on the same connection afterwards
    succeeds: the client becomes a member of the room, and it is sent the
    document state and the acknowledgement after the ERROR message. *)
Theorem invalid_frame_answered s clientId data ws :
  reachable s →
  clientConnections s !! clientId = Some ws → readyState ws = OPEN →
  invalid_frame data →
  let s1 := exec (handleMessage clientId data) s in
  let ws1 := after_send ws (error_message "Invalid message format"
                              (Date_now_at (S (clock s)))) in
  (clientConnections s1 = <[clientId := ws1]> (clientConnections s)
   ∧ roomManager s1 = roomManager s ∧ crdt s1 = crdt s ∧ redis s1 = redis s)
  ∧ ∀ data' message,
      decodes_to data' message → type message = JOIN_ROOM →
      roomId message ≠ EmptyString →
      let r := roomId message in
      let s2 := exec (handleMessage clientId data') s1 in
      (∃ members, roomClients (roomManager s2) !! r = Some members
                  ∧ clientId ∈ members)
      ∧ (∃ now, clients (roomManager s2) !! clientId
                = Some (new_client clientId r (instanceId s) now))
      ∧ ∃ t1 t2 t3 more,
          clientConnections s2 !! clientId
          = Some {| readyState := OPEN;
                    sent := sent ws1
                      ++ state_message r clientId
                           (default Y_Doc_new (documents (crdt s) !! r)) t1 t2
                      :: joined_message r clientId t3 :: more |}.
Proof.
  intros Hreach Hws Hopen Hbad s1 ws1.
  assert (s1 = with_clientConnections (insert clientId ws1)
                 (exec Date_now (exec Date_now s))) as Hs1.
  { subst s1. unfold exec at 1.
    by rewrite (handleMessage_invalid clientId data ws). }
  split; [by rewrite Hs1|].
  intros data' message Hdec Htype Hroom r s2.
  assert (registry_ok s1) as Hok1.
  { rewrite Hs1. by apply reachable_registry_ok in Hreach. }
  destruct (handleMessage_join s1 clientId data' message ws1 Hok1)
    as (Hm & Hc & Hsent); try done.
  { rewrite Hs1. fields. apply lookup_insert_eq. }
  subst s1. rewrite Hs1 in Hm, Hc, Hsent. subst s2. rewrite Hs1.
  split_and!; [exact Hm|exact Hc|exact Hsent].
Qed.

End InvalidFrames.

(** * The properties on concrete inputs *)

Section Concrete.
Import TestPlatform.

Lemma test_merge_commutative : merge_commutative (P:=platform).
Proof.
  intros [mask fields] u v. unfold merged; simpl. f_equal.
  rewrite <- !Z.lor_assoc. f_equal. apply Z.lor_comm.
Qed.

Lemma test_merge_idempotent : merge_idempotent (P:=platform).
Proof.
  intros [mask fields] u. unfold merged; simpl. f_equal.
  by rewrite <- Z.lor_assoc, Z.lor_diag.
Qed.

Lemma merge_path_converges_witness :
  let a := bytes_of "ab" in
  let b := bytes_of "c" in
  result (getDocumentState "r1") (exec (applyUpdates "r1" [a; b; a]) (initial "i1"))
  = result (getDocumentState "r1") (exec (applyUpdates "r1" [b; a]) (initial "i1")).
Proof.
  intros a b.
  apply (merge_path_converges (P:=platform) "r1" [a; b; a] [b; a] (initial "i1")).
  - exact test_merge_commutative.
  - exact test_merge_idempotent.
  - intros u. rewrite !elem_of_cons. pose proof (not_elem_of_nil u). tauto.
Defined.

Lemma self_echo_suppressed_witness :
  handleRedisUpdate (P:=platform) "r1" "{S:i1:c9:AQID}" connected
  = (connected, Normal tt).
Proof.
  destruct (self_echo_suppressed (P:=platform) connected "{S:i1:c9:AQID}"
              {| sync_type := SYNC_UPDATE; sync_clientId := "c9";
                 sync_update := "AQID"; sync_timestamp := 0;
                 sync_instanceId := "i1" |}) as [Hecho _].
  - reflexivity.
  - reflexivity.
  - apply Hecho.
Defined.

Lemma last_member_leaving_deletes_room_witness :
  let s1 := exec (removeClientFromRoom "c1") one_member in
  let s2 := exec (addClientToRoom "c2" "r1" "i1") s1 in
  rooms (roomManager s1) !! "r1" = None
  ∧ documents (crdt s1) !! "r1" = None
  ∧ documents (crdt s2) !! "r1" = Some (Y_Doc_new (Platform:=platform)).
Proof.
  intros s1 s2.
  destruct (last_member_leaving_deletes_room (P:=platform) one_member "c1" "r1"
              (new_client "c1" "r1" "i1" 1700000000001))
    as (Hroom & _ & Hdoc & _ & Hjoin).
  - vm_compute. reflexivity.
  - reflexivity.
  - vm_compute. reflexivity.
  - vm_compute. eauto.
  - destruct (Hjoin "c2" "i1") as (_ & _ & Hnew & _).
    split_and!; [exact Hroom|exact Hdoc|exact Hnew].
Defined.

(** The scenario of the specification: a client joins the empty room
    [r1] and sends a binary update; a second client that joins afterwards
    is sent the state of the document the update was merged into. *)
Example second_joiner_is_sent_the_update :
  let s := run [Connection "c1"; Message "c1" (DataString "{J:r1}");
                Message "c1" (DataBuffer frame_r1);
                Connection "c2"; Message "c2" (DataString "{J:r1}")]
             (initial "i1") in
  let doc := merged Y_Doc_new ["007"; "008"; "009"]%char in
  documents (crdt s) !! "r1" = Some doc
  ∧ (hd_error ∘ sent) <$> clientConnections s !! "c2"
    = Some (Some (state_message "r1" "c2" doc 1700000000017 1700000000018))
  ∧ (updatesCount <$> rooms (roomManager s) !! "r1") = Some 1%nat
  ∧ (clientCount <$> rooms (roomManager s) !! "r1") = Some 2%nat.
Proof. intros s doc. split_and!; vm_compute; reflexivity. Qed.

Lemma connected_reachable : reachable connected.
Proof. apply (reachable_step (initial "i1") (Connection "c1")). constructor. Qed.

Lemma invalid_frame_answered_witness :
  let s1 := exec (handleMessage "c1" (DataString "{not json")) connected in
  let s2 := exec (handleMessage "c1" (DataString "{J:r1}")) s1 in
  sent <$> clientConnections s1 !! "c1"
  = Some [error_message "Invalid message format" 1700000000001]
  ∧ roomManager s1 = roomManager connected
  ∧ ∃ members, roomClients (roomManager s2) !! "r1" = Some members
               ∧ "c1" ∈ members.
Proof.
  intros s1 s2.
  destruct (invalid_frame_answered (P:=platform) connected "c1"
              (DataString "{not json") {| readyState := OPEN; sent := [] |})
    as ((Hconns & Hrooms & _) & Hjoin).
  - exact connected_reachable.
  - reflexivity.
  - reflexivity.
  - reflexivity.
  - destruct (Hjoin (DataString "{J:r1}") (message_of JOIN_ROOM "r1" None))
      as (Hmember & _).
    + reflexivity.
    + reflexivity.
    + discriminate.
    + split_and!; [|exact Hrooms|exact Hmember].
      fold s1 in Hconns. rewrite Hconns, lookup_insert_eq. reflexivity.
Defined.

(** C6, where the claim fails: the update [{not json] begins with "{" but
    is no JSON text; the handler gives it to the merge path, and no field
    is set on the document. *)
Lemma brace_prefixed_update_is_merged :
  let update := "e25vdCBqc29u"%string in
  let bytes := Buffer_from_base64 update in
  let s' := exec (handleDocumentUpdate "c1" (update_message update)) connected in
  string_of_list_ascii bytes = "{not json"%string
  ∧ looksLikeJson (Buffer_toString_utf8 bytes) = true
  ∧ documents (crdt s') !! "r1" = Some (merged Y_Doc_new bytes)
  ∧ ∀ fields : list (string * string),
      documents (crdt s') !! "r1"
      ≠ Some (foldl (λ d kv, Y_Map_set d kv.1 kv.2) Y_Doc_new fields).
Proof.
  intros update bytes s'. split_and!; try (vm_compute; reflexivity).
  intros fields.
  assert (∀ (l : list (string * string)) (d : Doc),
            (foldl (λ d kv, Y_Map_set d kv.1 kv.2) d l).1 = d.1) as Hmask.
  { induction l as [|kv l IH]; intros d; [done|]. simpl. by rewrite IH. }
  intros Heq.
  replace (documents (crdt s') !! "r1")
    with (Some (merged Y_Doc_new bytes)) in Heq by (vm_compute; reflexivity).
  assert ((merged Y_Doc_new bytes).1 = (Y_Doc_new (Platform:=platform)).1) as Habsurd.
  { injection Heq as Heq. etransitivity; [|apply (Hmask fields)].
    f_equal. exact Heq. }
  vm_compute in Habsurd. discriminate.
Qed.

Lemma document_update_paths_witness :
  let update := "e3RpdGxlPURvY30="%string in
  let s' := exec (handleDocumentUpdate "c1" (update_message update)) connected in
  documents (crdt s')
  = <["r1" := Y_Map_set Y_Doc_new "title" "Doc"]> (documents (crdt connected)).
Proof.
  intros update s'.
  destruct (document_update_paths (P:=platform) connected "c1"
              (update_message update) update None 0) as (Hpatch & _).
  - discriminate.
  - reflexivity.
  - apply (Hpatch [("title", "Doc")]%string).
    + vm_compute. reflexivity.
    + vm_compute. reflexivity.
Defined.

(** C7, where the claim fails: a binary update frame for room [r2], sent
    on a connection that joined no room, leaves a document for [r2] in
    the store and no room [r2] in the registry. *)
Lemma document_without_room :
  let s := run [Connection "c1"; Message "c1" (DataBuffer complete_frame)]
             (initial "i1") in
  reachable s
  ∧ ¬ (is_Some (rooms (roomManager s) !! "r2")
       ↔ is_Some (documents (crdt s) !! "r2")).
Proof.
  intros s. split.
  - apply reachable_run. constructor.
  - intros [_ Hroom].
    assert (is_Some (rooms (roomManager s) !! "r2")) as [room Habsurd].
    { apply Hroom. vm_compute. eauto. }
    vm_compute in Habsurd. discriminate.
Qed.

Lemma every_room_has_document_witness :
  let s := run [Connection "c1"; Message "c1" (DataString "{J:r1}")]
             (initial "i1") in
  is_Some (documents (crdt s) !! "r1").
Proof.
  intros s.
  destruct (every_room_has_document (P:=platform) s) as [Hdoc _].
  - apply reachable_run. constructor.
  - apply Hdoc. vm_compute. eauto.
Defined.

Lemma second_join_keeps_first_membership_witness :
  let s' := exec (addClientToRoom "c1" "r1" "i1";; addClientToRoom "c1" "r2" "i1")
              (initial "i1") in
  (∃ m1, roomClients (roomManager s') !! "r1" = Some m1 ∧ "c1" ∈ m1)
  ∧ (∃ m2, roomClients (roomManager s') !! "r2" = Some m2 ∧ "c1" ∈ m2).
Proof.
  intros s'.
  destruct (second_join_keeps_first_membership (P:=platform) (initial "i1")
              "c1" "r1" "r2" "i1") as (H1 & H2 & _).
  - apply registry_ok_initial.
  - discriminate.
  - split; [exact H1|exact H2].
Defined.

(** C9, where the claim fails: a second [subscribe] for a channel hands
    the transport a second listener and replaces the callback of the
    first call. *)
Lemma resubscribe_is_not_a_noop :
  let channel := channel_of "r1" in
  let s1 := exec (subscribe channel (HandleRedisUpdate "r1")) (initial "i1") in
  let s2 := exec (subscribe channel (HandleRedisUpdate "r1")) s1 in
  let s2' := exec (subscribe channel (HandleRedisUpdate "other")) s1 in
  s2 ≠ s1
  ∧ listeners channel s1 = [HandleRedisUpdate "r1"]
  ∧ listeners channel s2 = [HandleRedisUpdate "r1"; HandleRedisUpdate "r1"]
  ∧ subscriptions (redis s2') ≠ subscriptions (redis s1).
Proof.
  intros channel s1 s2 s2'. split_and!.
  - intros Heq. apply (f_equal (λ s, length (commands (redis s)))) in Heq.
    vm_compute in Heq. discriminate.
  - vm_compute. reflexivity.
  - vm_compute. reflexivity.
  - intros Heq. apply (f_equal (λ m, m !! channel)) in Heq.
    vm_compute in Heq. discriminate.
Qed.

(** What the failing input of C8 leaves behind once the client has
    disconnected: room [r1] with the member [c1] and clientCount 1, though
    no client and no connection exist; nothing can empty it any more. *)
Lemma first_room_is_never_cleaned_up :
  let s := run [Connection "c1"; Message "c1" (DataString "{J:r1}");
                Message "c1" (DataString "{J:r2}"); Close "c1"]
             (initial "i1") in
  clients (roomManager s) = ∅
  ∧ clientConnections s = ∅
  ∧ rooms (roomManager s) !! "r2" = None
  ∧ roomClients (roomManager s) !! "r1" = Some {["c1"]}
  ∧ clientCount <$> rooms (roomManager s) !! "r1" = Some 1%nat.
Proof. intros s. split_and!; vm_compute; reflexivity. Qed.

Lemma resubscribe_replaces_callback_witness :
  let s := exec (subscribe (channel_of "r1") (HandleRedisUpdate "r1")) connected in
  redis (exec (handleJoinRoom "c1" (message_of JOIN_ROOM "r1" None)) s) = redis s.
Proof.
  intros s.
  destruct (resubscribe_replaces_callback (P:=platform)) as [_ Hjoin].
  apply Hjoin. subst s. rewrite subscribe_run. fields.
  rewrite dom_insert_L. apply elem_of_union_l, elem_of_singleton. reflexivity.
Defined.

(** C10, where the claim fails: a client that joined [r1] and then [r2]
    is still in the member set of [r1]; adding it to [r1] again rewrites
    the room of its record, not only joinedAt.  And a call that names
    another instance rewrites the instance of the record. *)
Lemma rejoin_rewrites_record :
  let s := exec (addClientToRoom "c1" "r1" "i1";; addClientToRoom "c1" "r2" "i1")
             (initial "i1") in
  let s' := exec (addClientToRoom "c1" "r1" "i1") s in
  let s'' := exec (addClientToRoom "c1" "r1" "i2") one_member in
  roomClients (roomManager s) !! "r1" = Some {["c1"]}
  ∧ client_roomId <$> clients (roomManager s) !! "c1" = Some "r2"%string
  ∧ client_roomId <$> clients (roomManager s') !! "c1" = Some "r1"%string
  ∧ client_instanceId <$> clients (roomManager one_member) !! "c1" = Some "i1"%string
  ∧ client_instanceId <$> clients (roomManager s'') !! "c1" = Some "i2"%string.
Proof. intros s s' s''. split_and!; vm_compute; reflexivity. Qed.

Lemma rejoin_same_room_idempotent_witness :
  let s' := exec (addClientToRoom "c1" "r1" "i1") one_member in
  roomClients (roomManager s') = roomClients (roomManager one_member)
  ∧ rooms (roomManager s') = rooms (roomManager one_member).
Proof.
  intros s'.
  destruct (rejoin_same_room_idempotent (P:=platform) one_member "c1" "r1" "i1"
              {["c1"]}
              (set_clientCount 1 (new_room "r1" 1700000000000))
              (new_client "c1" "r1" "i1" 1700000000001))
    as (Hmembers & Hrooms & _).
  - vm_compute. reflexivity.
  - apply elem_of_singleton. reflexivity.
  - vm_compute. reflexivity.
  - vm_compute. reflexivity.
  - vm_compute. reflexivity.
  - reflexivity.
  - reflexivity.
  - reflexivity.
  - split; [exact Hmembers|exact Hrooms].
Defined.

End Concrete.

(** * Further properties of the code *)

(** ** Membership *)

Section MembershipInvariant.
Context `{P : Platform}.

Lemma consistent_only_sends s s' :
  only_sends s s' → consistent s → consistent s'.
Proof.
  intros Hsends [Hok Hm]. split; [by eapply registry_ok_only_sends|].
  destruct Hsends as (_ & Hr & _). unfold membership_ok. by rewrite Hr.
Qed.

Lemma consistent_sends {A} (m : M A) : sends m → preserves consistent m.
Proof. intros Hm s Hs. eapply consistent_only_sends; [apply Hm|done]. Qed.

Lemma consistent_initial iid : consistent (initial iid).
Proof.
  split; [apply registry_ok_initial|]. unfold membership_ok; simpl. split.
  - intros r members Hr. by rewrite lookup_empty in Hr.
  - intros c client Hc. by rewrite lookup_empty in Hc.
Qed.

(** An operation that keeps the registry's member sets and client
    records keeps [membership_ok]. *)
Lemma consistent_same_members {A} (m : M A) :
  preserves registry_ok m →
  (∀ x, preserves (λ s, roomClients (roomManager s) = x.1
                        ∧ clients (roomManager s) = x.2) m) →
  preserves consistent m.
Proof.
  intros Hok Hsame s [Hs Hm]. split; [by apply Hok|].
  destruct (Hsame (roomClients (roomManager s), clients (roomManager s)) s)
    as [Hrc Hcl]; [done|].
  unfold membership_ok. simpl in Hrc, Hcl. by rewrite Hrc, Hcl.
Qed.

Lemma consistent_getOrCreateDocument roomId :
  preserves consistent (getOrCreateDocument roomId).
Proof.
  apply consistent_same_members; [apply registry_ok_getOrCreateDocument|].
  intros x. unfold getOrCreateDocument. preserves_auto.
Qed.

Lemma consistent_applyJsonUpdate roomId updateObj :
  preserves consistent (applyJsonUpdate roomId updateObj).
Proof.
  apply consistent_same_members; [apply registry_ok_applyJsonUpdate|].
  intros x. unfold applyJsonUpdate, getOrCreateDocument. preserves_auto.
Qed.

Lemma consistent_applyUpdate roomId update :
  preserves consistent (applyUpdate roomId update).
Proof.
  apply consistent_same_members; [apply registry_ok_applyUpdate|].
  intros x. unfold applyUpdate, getOrCreateDocument. preserves_auto.
Qed.

Lemma consistent_recordUpdate roomId :
  preserves consistent (recordUpdate roomId).
Proof.
  apply consistent_same_members; [apply registry_ok_recordUpdate|].
  intros x. unfold recordUpdate. preserves_auto.
Qed.

Lemma consistent_addClientToRoom clientId r iid :
  r ≠ EmptyString → preserves consistent (addClientToRoom clientId r iid).
Proof.
  intros Hr s [Hok [Hne Hrec]].
  split; [by apply registry_ok_addClientToRoom|].
  destruct (addClientToRoom_ok clientId r iid s Hok)
    as (now & _ & Hcl & Hrc & _).
  unfold membership_ok. rewrite Hcl, Hrc. split.
  - intros r' members. rewrite lookup_insert. case_decide; [|apply Hne].
    intros [= <-] Hempty.
    assert (clientId ∈ (∅ : gset string)) as Habsurd
      by (rewrite <- Hempty; apply elem_of_union_r, elem_of_singleton; done).
    by apply not_elem_of_empty in Habsurd.
  - intros c client. rewrite lookup_insert. case_decide as Hc.
    + intros [= <-]. simpl. split; [done|].
      rewrite lookup_insert_eq. eexists. split; [done|].
      subst c. apply elem_of_union_r, elem_of_singleton. done.
    + intros Hclient. destruct (Hrec c client Hclient) as (Hroom & members & Hm & Hin).
      split; [done|]. rewrite lookup_insert. case_decide as Hr'; [|eauto].
      rewrite Hr', Hm. simpl. eexists. split; [done|].
      by apply elem_of_union_l.
Qed.

Lemma consistent_removeClientFromRoom clientId :
  preserves consistent (removeClientFromRoom clientId).
Proof.
  intros s [Hok [Hne Hrec]].
  split; [by apply registry_ok_removeClientFromRoom|].
  unfold exec. rewrite removeClientFromRoom_run.
  destruct (clients (roomManager s) !! clientId) as [client|] eqn:Hclient;
    [|done].
  destruct (Hrec clientId client Hclient) as (_ & members & Hm & Hin).
  set (r := client_roomId client) in *.
  destruct Hok as (_ & H2 & _).
  destruct (H2 r) as [room Hroom]; [by rewrite Hm|].
  simpl fst. unfold leave_room. fields. rewrite Hroom. rewrite !lookup_alter_eq. rewrite Hm.
  cbn [fmap option_fmap option_map from_option].
  assert (∀ c client', c ≠ clientId →
            clients (roomManager s) !! c = Some client' →
            client_roomId client' = r → c ∈ members ∖ {[clientId]}) as Hother.
  { intros c client' Hc Hcl Hr'.
    destruct (Hrec c client' Hcl) as (_ & members' & Hm' & Hin').
    rewrite Hr', Hm in Hm'. injection Hm' as <-.
    apply elem_of_difference. split; [done|].
    by intros ->%elem_of_singleton. }
  case_bool_decide as Hsize; unfold membership_ok; fields; split.
  - intros r' members'. rewrite lookup_delete. case_decide; [done|].
    rewrite lookup_alter_ne by done. apply Hne.
  - intros c client'. rewrite lookup_delete. case_decide as Hc; [done|].
    intros Hcl. destruct (Hrec c client' Hcl) as (Hroom' & members' & Hm' & Hin').
    split; [done|].
    assert (client_roomId client' ≠ r) as Hr'.
    { intros Hr'. specialize (Hother c client' (not_eq_sym Hc) Hcl Hr').
      apply size_empty_iff in Hsize. apply leibniz_equiv in Hsize.
      rewrite Hsize in Hother. by apply not_elem_of_empty in Hother. }
    rewrite lookup_delete_ne, lookup_alter_ne by done. eauto.
  - intros r' members'. rewrite lookup_alter. case_decide as Hr'; [|apply Hne].
    subst r'. rewrite Hm. intros [= <-] Hempty.
    rewrite Hempty, size_empty in Hsize. done.
  - intros c client'. rewrite lookup_delete. case_decide as Hc; [done|].
    intros Hcl. destruct (Hrec c client' Hcl) as (Hroom' & members' & Hm' & Hin').
    split; [done|]. rewrite lookup_alter. case_decide as Hr'; [|eauto].
    rewrite Hm. simpl. eexists. split; [done|].
    apply (Hother c client'); [by apply not_eq_sym|done|done].
Qed.

End MembershipInvariant.

Create HintDb consistent.

#[global] Hint Resolve consistent_getOrCreateDocument consistent_applyJsonUpdate
  consistent_applyUpdate consistent_recordUpdate consistent_addClientToRoom
  consistent_removeClientFromRoom : consistent.

Ltac consistent_auto :=
  repeat first
    [ preserves_step
    | solve [eauto with consistent]
    | apply consistent_sends; solve [eauto with sends] ].

Section MembershipHandlers.
Context `{P : Platform}.

Lemma consistent_getDocumentState roomId :
  preserves consistent (getDocumentState roomId).
Proof. unfold getDocumentState. consistent_auto. Qed.

Lemma consistent_handleJoinRoom clientId message :
  preserves consistent (handleJoinRoom clientId message).
Proof.
  unfold handleJoinRoom. pose proof consistent_getDocumentState.
  case_bool_decide as Hroom; consistent_auto.
Qed.

Lemma consistent_handleLeaveRoom clientId message :
  preserves consistent (handleLeaveRoom clientId message).
Proof. unfold handleLeaveRoom. consistent_auto. Qed.

Lemma consistent_afterLocalApply clientId roomId update :
  preserves consistent (afterLocalApply clientId roomId update).
Proof. unfold afterLocalApply. consistent_auto. Qed.

Lemma consistent_handleDocumentUpdate clientId message :
  preserves consistent (handleDocumentUpdate clientId message).
Proof.
  unfold handleDocumentUpdate. pose proof consistent_afterLocalApply.
  consistent_auto.
Qed.

Lemma consistent_handleRedisUpdate roomId redisMessage :
  preserves consistent (handleRedisUpdate roomId redisMessage).
Proof. unfold handleRedisUpdate. consistent_auto. Qed.

Lemma consistent_handleDisconnect clientId :
  preserves consistent (handleDisconnect clientId).
Proof.
  unfold handleDisconnect, getClient.
  pose proof consistent_handleLeaveRoom.
  consistent_auto.
  apply preserves_modify. intros s Hs. exact Hs.
Qed.

Lemma consistent_handleMessage clientId data :
  preserves consistent (handleMessage clientId data).
Proof.
  unfold handleMessage.
  pose proof consistent_handleJoinRoom.
  pose proof consistent_handleLeaveRoom.
  pose proof consistent_handleDocumentUpdate.
  consistent_auto.
Qed.

Lemma consistent_dispatch e : preserves consistent (dispatch e).
Proof.
  destruct e; simpl.
  - unfold handleConnection. consistent_auto.
    apply preserves_modify. intros s Hs. exact Hs.
  - apply consistent_handleMessage.
  - apply consistent_handleDisconnect.
  - unfold handleError. consistent_auto.
  - apply preserves_modify. intros s Hs. exact Hs.
  - pose proof consistent_handleRedisUpdate. consistent_auto.
  - consistent_auto.
Qed.

Lemma reachable_consistent s : reachable s → consistent s.
Proof.
  induction 1 as [iid|s e _ IH].
  - apply consistent_initial.
  - by apply consistent_dispatch.
Qed.


(** X2.  In every reachable state a client record is stored under the
    client's own id and names, by a non-empty room id, a room that
    exists, has a document, and lists the client among its members. *)
Theorem client_record_names_its_room s c client :
  reachable s → clients (roomManager s) !! c = Some client →
  client_id client = c
  ∧ client_roomId client ≠ EmptyString
  ∧ is_Some (rooms (roomManager s) !! client_roomId client)
  ∧ is_Some (documents (crdt s) !! client_roomId client)
  ∧ ∃ members, roomClients (roomManager s) !! client_roomId client
               = Some members ∧ c ∈ members.
Proof.
  intros Hs Hc. destruct (reachable_consistent s Hs) as [Hok [_ Hrec]].
  destruct Hok as (_ & H2 & H3 & H4).
  destruct (Hrec c client Hc) as (Hroom & members & Hm & Hin).
  assert (is_Some (rooms (roomManager s) !! client_roomId client)) as Hex
    by (apply H2; by rewrite Hm).
  split_and!; eauto.
Qed.

End MembershipHandlers.

(** ** Broadcast *)

Section Broadcast.
Context `{P : Platform}.

Lemma delivered_lookup R message (conns : gmap string WebSocket) k :
  delivered R message conns !! k
  = (λ ws, if R k then after_send ws message else ws) <$> conns !! k.
Proof.
  unfold delivered. rewrite map_lookup_imap. by destruct (conns !! k).
Qed.

Lemma delivered_ext R1 R2 message (conns : gmap string WebSocket) :
  (∀ k, is_Some (conns !! k) → R1 k = R2 k) →
  delivered R1 message conns = delivered R2 message conns.
Proof.
  intros HR. apply map_eq. intros k. rewrite !delivered_lookup.
  destruct (conns !! k) eqn:Hk; [|done]. simpl. by rewrite HR.
Qed.

Lemma set_connections_eq (m1 m2 : gmap string WebSocket) s :
  m1 = m2 →
  with_clientConnections (λ _, m1) s = with_clientConnections (λ _, m2) s.
Proof. by intros ->. Qed.

Lemma with_clientConnections_same s :
  with_clientConnections (λ _, clientConnections s) s = s.
Proof. by destruct s. Qed.

Lemma send_unless_excluded_run exclude message client s :
  send_unless_excluded exclude message client s
  = (with_clientConnections (λ _,
       delivered (λ k, bool_decide (k = client_id client)
                       && negb (excluded exclude k) && open_at s k)
         message (clientConnections s)) s,
     Normal tt).
Proof.
  set (id := client_id client).
  assert (∀ R, (∀ k, R k = true → k = id) →
            (∀ ws, clientConnections s !! id = Some ws →
               R id = true → False) →
            delivered R message (clientConnections s) = clientConnections s)
    as Hnone.
  { intros R HR Hid. apply map_eq. intros k. rewrite delivered_lookup.
    destruct (clientConnections s !! k) as [ws|] eqn:Hk; [|done]. simpl.
    destruct (R k) eqn:HRk; [|done].
    exfalso. pose proof (HR k HRk) as ->. eauto. }
  unfold send_unless_excluded. fold id.
  destruct (excluded exclude id) eqn:Hex.
  - rewrite Hnone, with_clientConnections_same; [done| |].
    + intros k Hk. by apply andb_prop in Hk as [[Hk%bool_decide_eq_true _]%andb_prop _].
    + intros ws _. rewrite Hex. by rewrite andb_false_r.
  - unfold is_open, mbind, M_bind, gets.
    destruct (clientConnections s !! id) as [ws|] eqn:Hws.
    2: { rewrite Hnone, with_clientConnections_same; [done| |].
         - intros k Hk. by apply andb_prop in Hk as [[Hk%bool_decide_eq_true _]%andb_prop _].
         - intros ws Hws'. congruence. }
    case_bool_decide as Hopen.
    + rewrite (ws_send_open id message ws) by done.
      unfold with_clientConnections. do 3 f_equal.
      apply map_eq. intros k. rewrite delivered_lookup, lookup_insert.
      case_decide as Hk.
      * subst k. rewrite Hws. simpl. rewrite bool_decide_eq_true_2 by done.
        rewrite Hex. unfold open_at. rewrite Hws.
        by rewrite bool_decide_eq_true_2.
      * destruct (clientConnections s !! k); [|done]. simpl.
        by rewrite bool_decide_eq_false_2 by done.
    + rewrite Hnone, with_clientConnections_same; [done| |].
      * intros k Hk. by apply andb_prop in Hk as [[Hk%bool_decide_eq_true _]%andb_prop _].
      * intros ws' Hws'. unfold open_at. rewrite Hws.
        rewrite (bool_decide_eq_false_2 (readyState ws = OPEN)) by done.
        by rewrite andb_false_r.
Qed.

Lemma forEach_send exclude message cs s :
  NoDup (client_id <$> cs) →
  forEach (send_unless_excluded exclude message) cs s
  = (with_clientConnections (λ _,
       delivered (λ k, bool_decide (k ∈ client_id <$> cs)
                       && negb (excluded exclude k) && open_at s k)
         message (clientConnections s)) s,
     Normal tt).
Proof.
  revert s. induction cs as [|c cs IH]; intros s Hnodup.
  - simpl. unfold mret, M_ret. f_equal.
    etrans; [symmetry; apply with_clientConnections_same|].
    apply set_connections_eq. symmetry.
    apply map_eq. intros k. rewrite delivered_lookup.
    by destruct (clientConnections s !! k).
  - rewrite fmap_cons in Hnodup. apply NoDup_cons in Hnodup as [Hnotin Hnodup].
    simpl forEach. unfold mbind at 1, M_bind at 1.
    rewrite send_unless_excluded_run. rewrite IH by done.
    f_equal. apply (set_connections_eq _ _ s). simpl.
    apply map_eq. intros k. rewrite !delivered_lookup.
    destruct (clientConnections s !! k) as [ws|] eqn:Hk; [|done]. simpl.
    unfold open_at; simpl. rewrite !delivered_lookup, Hk. simpl.
    destruct (decide (k = client_id c)) as [->|Hne].
    + rewrite (bool_decide_eq_true_2 (client_id c = client_id c)) by done.
      rewrite (bool_decide_eq_false_2 (client_id c ∈ client_id <$> cs)) by done.
      rewrite (bool_decide_eq_true_2 (client_id c ∈ client_id c :: _))
        by (apply elem_of_cons; left; reflexivity).
      simpl. by destruct (negb _ && _).
    + rewrite (bool_decide_eq_false_2 (k = client_id c)) by done. simpl.
      assert (bool_decide (k ∈ client_id c :: list_fmap _ _ client_id cs)
              = bool_decide (k ∈ client_id <$> cs)) as ->; [|done].
      apply bool_decide_ext. rewrite elem_of_cons. unfold fmap. tauto.
Qed.

Lemma client_ids_of_members s (l : list string) :
  (∀ k c, clients (roomManager s) !! k = Some c → client_id c = k) →
  NoDup l →
  let cs := omap (λ id, clients (roomManager s) !! id) l in
  NoDup (client_id <$> cs)
  ∧ ∀ k, k ∈ client_id <$> cs
         ↔ k ∈ l ∧ is_Some (clients (roomManager s) !! k).
Proof.
  intros H4 Hnodup. simpl.
  induction Hnodup as [|id l Hnotin Hnodup [IH1 IH2]]; simpl.
  - split; [constructor|]. intros k. split; [by intros ?%elem_of_nil|].
    by intros [?%elem_of_nil _].
  - destruct (clients (roomManager s) !! id) as [c|] eqn:Hc; simpl.
    + pose proof (H4 id c Hc) as Hid. rewrite Hid. split.
      * apply NoDup_cons. split; [|done]. rewrite IH2. tauto.
      * intros k. rewrite !elem_of_cons, IH2. split.
        -- intros [->|[? ?]]; [by rewrite Hc; eauto|tauto].
        -- intros [[->|?] ?]; tauto.
    + split; [done|]. intros k. rewrite IH2, elem_of_cons. split.
      * tauto.
      * intros [[->|?] Hsome]; [|done]. rewrite Hc in Hsome. by destruct Hsome.
Qed.

Lemma broadcastToRoom_run s roomId message exclude :
  (∀ k c, clients (roomManager s) !! k = Some c → client_id c = k) →
  broadcastToRoom roomId message exclude s
  = (with_clientConnections
       (delivered (is_recipient roomId exclude s) message) s,
     Normal tt).
Proof.
  intros Hok.
  unfold broadcastToRoom, getClientsInRoom, mbind, M_bind, gets.
  set (members := default ∅ (roomClients (roomManager s) !! roomId)).
  destruct (client_ids_of_members s (elements members) Hok)
    as [Hnodup Hin]; [apply NoDup_elements|].
  change (forEach (send_unless_excluded exclude message)
            (omap (λ id, clients (roomManager s) !! id) (elements members)) s
          = (with_clientConnections
               (delivered (is_recipient roomId exclude s) message) s,
             Normal tt)).
  rewrite forEach_send by done.
  f_equal. apply (set_connections_eq _ _ s).
  apply delivered_ext. intros k _. unfold is_recipient. fold members.
  unfold open_at. do 2 f_equal.
  apply eq_bool_prop_intro. rewrite andb_True, !bool_decide_spec.
  rewrite Hin, elem_of_elements. done.
Qed.

(** The excluded client is no recipient. *)
Lemma is_recipient_excluded roomId c s :
  c ≠ EmptyString → is_recipient roomId (Some c) s c = false.
Proof.
  intros Hc. unfold is_recipient, excluded.
  rewrite (bool_decide_eq_false_2 (c = EmptyString)) by done.
  rewrite (bool_decide_eq_true_2 (c = c)) by done.
  simpl. by rewrite andb_false_r.
Qed.

(** X3.  In a state the registry is consistent in, [broadcastToRoom]
    changes nothing but sockets: each open socket of a member of the room
    that has a client record and is not the excluded client is sent the
    message exactly once; every other socket (non-members, the excluded
    client, sockets that are not open) is left as it is.  The call never
    throws. *)
Theorem broadcast_reaches_exactly_the_others s roomId message exclude :
  registry_ok s →
  broadcastToRoom roomId message exclude s
  = (with_clientConnections
       (delivered (is_recipient roomId exclude s) message) s,
     Normal tt)
  ∧ ∀ k, clientConnections (exec (broadcastToRoom roomId message exclude) s) !! k
         = (λ ws, if is_recipient roomId exclude s k
                  then after_send ws message else ws)
             <$> clientConnections s !! k.
Proof.
  intros (_ & _ & _ & Hok).
  pose proof (broadcastToRoom_run s roomId message exclude Hok) as Hrun.
  split; [done|].
  intros k. unfold exec. rewrite Hrun. simpl. apply delivered_lookup.
Qed.

End Broadcast.

(** ** Local updates *)

Section LocalUpdate.
Context `{P : Platform}.

Ltac run :=
  cbv beta iota delta
    [mbind M_bind mret M_ret gets modify try_catch throw exec result fst snd].

Lemma with_documents_ext f g s :
  f (documents (crdt s)) = g (documents (crdt s)) →
  with_documents f s = with_documents g s.
Proof. unfold with_documents, with_crdt. by intros ->. Qed.

Lemma with_documents_insert_ensure r doc s :
  with_documents (insert r doc) (with_documents (ensure_document r) s)
  = with_documents (insert r doc) s.
Proof.
  unfold with_documents, with_crdt; simpl. by rewrite insert_ensure_document.
Qed.

Lemma applyJsonUpdate_run r obj s :
  applyJsonUpdate r obj s
  = (with_documents
       (insert r (foldl (λ d kv, Y_Map_set d kv.1 kv.2)
                    (default Y_Doc_new (documents (crdt s) !! r)) obj)) s,
     Normal tt).
Proof.
  unfold applyJsonUpdate, try_catch.
  erewrite (bind_run _ _ s); [|apply getOrCreateDocument_run].
  unfold modify. by rewrite with_documents_insert_ensure.
Qed.

Lemma applyUpdate_run r bytes s :
  bytes ≠ [] →
  applyUpdate r bytes s
  = (with_documents
       (insert r (merged (default Y_Doc_new (documents (crdt s) !! r)) bytes)) s,
     if (Y_applyUpdate (default Y_Doc_new (documents (crdt s) !! r)) bytes).2
     then Thrown else Normal tt).
Proof.
  intros Hne. unfold applyUpdate.
  rewrite bool_decide_eq_false_2 by (by destruct bytes).
  unfold try_catch.
  erewrite (bind_run _ _ s); [|apply getOrCreateDocument_run].
  run. unfold merged.
  destruct (Y_applyUpdate _ bytes) as [doc threw]; simpl.
  rewrite with_documents_insert_ensure. by destruct threw.
Qed.

Lemma alter_alter {A} (f g : A → A) (k : string) (m : gmap string A) :
  alter f k (alter g k m) = alter (f ∘ g) k m.
Proof.
  apply map_eq. intros j. destruct (decide (k = j)) as [->|].
  - rewrite !lookup_alter_eq. by destruct (m !! j).
  - by rewrite !lookup_alter_ne.
Qed.

Lemma recordUpdate_run r s :
  recordUpdate r s
  = (match rooms (roomManager s) !! r with
     | Some _ => with_rooms (alter (updated_room (Date_now_at (clock s))) r)
                   (exec Date_now s)
     | None => s
     end, Normal tt).
Proof.
  unfold recordUpdate. run.
  destruct (rooms (roomManager s) !! r); [|done].
  unfold with_rooms, with_roomManager, Date_now; simpl. do 3 f_equal.
  rewrite alter_alter. by apply alter_ext.
Qed.

Lemma publish_caught_run channel clientId update s :
  try_catch
    (iid ← gets instanceId;
     t ← Date_now;
     publish channel
       {| sync_type := SYNC_UPDATE; sync_clientId := clientId;
          sync_update := update; sync_timestamp := t;
          sync_instanceId := iid |})
    (mret tt) s
  = (with_redis (λ r,
       {| subscriptions := subscriptions r;
          commands := commands r
            ++ [PUBLISH channel
                  (sync_message (instanceId s) clientId update
                     (Date_now_at (clock s)))] |})
       (exec Date_now s),
     Normal tt).
Proof.
  unfold publish, redis_command. run. unfold Date_now; simpl.
  by destruct (redis_rejects _).
Qed.

Lemma forEach_send_conns exclude message cs s :
  ∃ conns', forEach (send_unless_excluded exclude message) cs s
            = (with_clientConnections (λ _, conns') s, Normal tt).
Proof.
  revert s. induction cs as [|c cs IH]; intros s.
  - exists (clientConnections s). by rewrite with_clientConnections_same.
  - change (forEach _ (c :: cs) s)
      with ((send_unless_excluded exclude message c;;
             forEach (send_unless_excluded exclude message) cs) s).
    erewrite bind_run by apply send_unless_excluded_run.
    edestruct IH as [conns' ->]. by exists conns'.
Qed.

(** Whatever the registry holds, a broadcast writes sockets only and does
    not throw. *)
Lemma broadcastToRoom_conns roomId message exclude s :
  ∃ conns', broadcastToRoom roomId message exclude s
            = (with_clientConnections (λ _, conns') s, Normal tt).
Proof.
  unfold broadcastToRoom, getClientsInRoom, mbind, M_bind, gets.
  apply (forEach_send_conns exclude message).
Qed.

Lemma broadcastToRoom_result roomId message exclude s :
  result (broadcastToRoom roomId message exclude) s = Normal tt.
Proof.
  unfold result.
  by destruct (broadcastToRoom_conns roomId message exclude s) as [? ->].
Qed.

Lemma try_catch_normal {A} (m handler : M A) s a :
  result m s = Normal a → try_catch m handler s = m s.
Proof.
  unfold result, try_catch. destruct (m s) as [s' [a'|]]; simpl; [done|].
  discriminate.
Qed.

Lemma try_catch_thrown_prefix {A} (m : M A) (f : A → M unit) s s' :
  m s = (s', Thrown) → try_catch (m ≫= f) (mret tt) s = (s', Normal tt).
Proof. intros Hm. unfold try_catch, mbind, M_bind. by rewrite Hm. Qed.

(** [afterLocalApply] up to its broadcast. *)
Lemma afterLocalApply_prefix clientId r update s :
  let s1 := exec (recordUpdate r) s in
  let s2 := with_redis (λ rd,
       {| subscriptions := subscriptions rd;
          commands := commands rd
            ++ [PUBLISH (channel_of r)
                  (sync_message (instanceId s) clientId update
                     (Date_now_at (clock s1)))] |})
       (exec Date_now (exec incrementUpdates s1)) in
  afterLocalApply clientId r update s
  = broadcastToRoom r
      (update_broadcast r clientId update
         (Date_now_at (clock s2)) (Date_now_at (S (clock s2))))
      (Some clientId) (exec Date_now (exec Date_now s2)).
Proof.
  intros s1 s2. unfold afterLocalApply.
  rewrite (bind_run _ _ s s1 tt).
  2: { unfold s1, exec. rewrite recordUpdate_run. done. }
  rewrite (bind_run _ _ s1 (exec incrementUpdates s1) tt) by done.
  rewrite (bind_run _ _ _ s2 tt).
  2: { rewrite publish_caught_run. f_equal. unfold s2.
       assert (instanceId s1 = instanceId s) as Hi.
       { unfold s1, exec. rewrite recordUpdate_run.
         by destruct (rooms (roomManager s) !! r). }
       change (instanceId (exec incrementUpdates s1)) with (instanceId s1).
       change (clock (exec incrementUpdates s1)) with (clock s1).
       by rewrite Hi. }
  rewrite (bind_run _ _ s2 (exec Date_now s2) (Date_now_at (clock s2))) by done.
  by rewrite (bind_run _ _ (exec Date_now s2) (exec Date_now (exec Date_now s2))
                (Date_now_at (S (clock s2)))) by done.
Qed.

Lemma afterLocalApply_result clientId r update s :
  result (afterLocalApply clientId r update) s = Normal tt.
Proof.
  unfold result at 1. rewrite afterLocalApply_prefix.
  apply broadcastToRoom_result.
Qed.

Lemma afterLocalApply_conns clientId r update s :
  let s1 := exec (recordUpdate r) s in
  ∃ conns',
    afterLocalApply clientId r update s
    = (with_clientConnections (λ _, conns')
         (with_redis (λ rd,
            {| subscriptions := subscriptions rd;
               commands := commands rd
                 ++ [PUBLISH (channel_of r)
                       (sync_message (instanceId s) clientId update
                          (Date_now_at (clock s1)))] |})
            (exec Date_now (exec Date_now (exec Date_now
               (exec incrementUpdates s1))))),
       Normal tt).
Proof.
  intros s1. rewrite afterLocalApply_prefix. fold s1.
  match goal with
  | |- context [broadcastToRoom r ?m ?e ?x] =>
      destruct (broadcastToRoom_conns r m e x) as [conns' ->]
  end.
  by exists conns'.
Qed.

(** What [recordUpdate] leaves alone. *)
Lemma recordUpdate_keeps r s :
  let s1 := exec (recordUpdate r) s in
  instanceId s1 = instanceId s
  ∧ roomClients (roomManager s1) = roomClients (roomManager s)
  ∧ clients (roomManager s1) = clients (roomManager s)
  ∧ crdt s1 = crdt s ∧ redis s1 = redis s ∧ metrics s1 = metrics s
  ∧ clientConnections s1 = clientConnections s
  ∧ rooms (roomManager s1)
    = alter (updated_room (Date_now_at (clock s))) r (rooms (roomManager s)).
Proof.
  unfold exec; simpl. rewrite recordUpdate_run.
  destruct (rooms (roomManager s) !! r) eqn:Hr; split_and!; try done.
  symmetry. apply map_eq. intros k. destruct (decide (r = k)) as [<-|].
  - by rewrite lookup_alter_eq, Hr.
  - by rewrite lookup_alter_ne.
Qed.

(** The state [afterLocalApply] leaves. *)
Lemma afterLocalApply_run clientId r update s :
  (∀ k c, clients (roomManager s) !! k = Some c → client_id c = k) →
  let s1 := exec (recordUpdate r) s in
  let s2 := with_redis (λ rd,
       {| subscriptions := subscriptions rd;
          commands := commands rd
            ++ [PUBLISH (channel_of r)
                  (sync_message (instanceId s) clientId update
                     (Date_now_at (clock s1)))] |})
       (exec Date_now (exec incrementUpdates s1)) in
  afterLocalApply clientId r update s
  = (with_clientConnections
       (delivered (is_recipient r (Some clientId) s)
          (update_broadcast r clientId update
             (Date_now_at (clock s2)) (Date_now_at (S (clock s2)))))
       (exec Date_now (exec Date_now s2)),
     Normal tt).
Proof.
  intros Hok s1 s2. rewrite afterLocalApply_prefix. fold s1 s2.
  destruct (recordUpdate_keeps r s) as (_ & Hrc & Hcl & _ & _ & _ & Hcc & _).
  fold s1 in Hrc, Hcl, Hcc.
  rewrite broadcastToRoom_run.
  2: { unfold s2. cbn. rewrite Hcl. exact Hok. }
  f_equal. unfold with_clientConnections. f_equal.
  apply delivered_ext. intros k _.
  unfold is_recipient, s2. cbn. by rewrite Hrc, Hcl, Hcc.
Qed.

(** The three ways [handleDocumentUpdate] ends for a message that names
    a room and carries an update string. *)
Lemma handleDocumentUpdate_applied s clientId message update cid ts :
  roomId message ≠ EmptyString →
  payload message = Some (DocumentUpdatePayload (Some update) cid ts) →
  let r := roomId message in
  let bytes := Buffer_from_base64 update in
  carries_update bytes → update_throws r bytes s = false →
  handleDocumentUpdate clientId message s
  = afterLocalApply clientId r update
      (with_documents (updated_documents r bytes) s).
Proof.
  intros Hroom Hpayload r bytes Hcarries Hthrows.
  unfold handleDocumentUpdate. rewrite Hpayload.
  rewrite bool_decide_eq_false_2 by done. fold r bytes.
  unfold update_throws in Hthrows. unfold carries_update in Hcarries.
  assert (∀ s0, try_catch (afterLocalApply clientId r update) (mret tt) s0
                = afterLocalApply clientId r update s0) as Hrest.
  { intros s0. apply (try_catch_normal _ _ _ tt), afterLocalApply_result. }
  destruct (jsonUpdateObj_of bytes) as [obj|] eqn:Hjson.
  - erewrite try_catch_prefix by apply applyJsonUpdate_run.
    rewrite Hrest. f_equal. apply with_documents_ext.
    unfold updated_documents. by rewrite Hjson.
  - assert (bytes ≠ []) as Hne.
    { destruct Hcarries as [[? ?]|?]; [discriminate|done]. }
    rewrite bool_decide_eq_false_2 by (by destruct bytes).
    rewrite bool_decide_eq_false_2 in Hthrows by done.
    erewrite try_catch_prefix.
    2: { rewrite applyUpdate_run by done. by rewrite Hthrows. }
    rewrite Hrest. f_equal. apply with_documents_ext.
    unfold updated_documents. rewrite Hjson.
    by rewrite bool_decide_eq_false_2 by done.
Qed.

Lemma handleDocumentUpdate_rejected s clientId message update cid ts :
  roomId message ≠ EmptyString →
  payload message = Some (DocumentUpdatePayload (Some update) cid ts) →
  let r := roomId message in
  let bytes := Buffer_from_base64 update in
  update_throws r bytes s = true →
  handleDocumentUpdate clientId message s
  = (with_documents (updated_documents r bytes) s, Normal tt).
Proof.
  intros Hroom Hpayload r bytes Hthrows.
  unfold handleDocumentUpdate. rewrite Hpayload.
  rewrite bool_decide_eq_false_2 by done. fold r bytes.
  unfold update_throws in Hthrows.
  destruct (jsonUpdateObj_of bytes) as [obj|] eqn:Hjson; [discriminate|].
  case_bool_decide as Hne; [discriminate|].
  rewrite bool_decide_eq_false_2 by (by destruct bytes).
  erewrite try_catch_thrown_prefix.
  2: { rewrite applyUpdate_run by done. by rewrite Hthrows. }
  f_equal. apply with_documents_ext.
  unfold updated_documents. rewrite Hjson.
  by rewrite bool_decide_eq_false_2 by done.
Qed.

Lemma handleDocumentUpdate_dropped s clientId message update cid ts :
  roomId message ≠ EmptyString →
  payload message = Some (DocumentUpdatePayload (Some update) cid ts) →
  ¬ carries_update (Buffer_from_base64 update) →
  handleDocumentUpdate clientId message s = (s, Normal tt).
Proof.
  intros Hroom Hpayload Hcarries.
  unfold handleDocumentUpdate. rewrite Hpayload.
  rewrite bool_decide_eq_false_2 by done.
  unfold carries_update in Hcarries.
  destruct (jsonUpdateObj_of _) as [obj|] eqn:Hjson.
  { exfalso. apply Hcarries. left. eauto. }
  destruct (Buffer_from_base64 update) as [|b bytes] eqn:Hbytes.
  - done.
  - exfalso. apply Hcarries. by right.
Qed.

Lemma handleDocumentUpdate_not_applied s clientId message update cid ts :
  roomId message ≠ EmptyString →
  payload message = Some (DocumentUpdatePayload (Some update) cid ts) →
  let r := roomId message in
  let bytes := Buffer_from_base64 update in
  ¬ carries_update bytes ∨ update_throws r bytes s = true →
  ∃ s0, handleDocumentUpdate clientId message s = (s0, Normal tt)
        ∧ instanceId s0 = instanceId s ∧ roomManager s0 = roomManager s
        ∧ redis s0 = redis s ∧ metrics s0 = metrics s
        ∧ clientConnections s0 = clientConnections s ∧ clock s0 = clock s
        ∧ documents (crdt s0) = updated_documents r bytes (documents (crdt s)).
Proof.
  intros Hroom Hpayload r bytes [Hno|Hno].
  - assert (jsonUpdateObj_of bytes = None ∧ bytes = []) as [Hjson Hempty].
    { unfold carries_update in Hno. split.
      - destruct (jsonUpdateObj_of bytes) eqn:Hjson; [|done].
        exfalso. apply Hno. left. eauto.
      - destruct (decide (bytes = [])); [done|]. exfalso. apply Hno. by right. }
    exists s. split_and!; try done.
    + by apply (handleDocumentUpdate_dropped s clientId message update cid ts).
    + unfold updated_documents. rewrite Hjson.
      by rewrite bool_decide_eq_true_2 by done.
  - eexists. split; [|split_and!].
    + by apply (handleDocumentUpdate_rejected s clientId message update cid ts).
    + done.
    + done.
    + done.
    + done.
    + done.
    + done.
    + done.
Qed.

Lemma handleDocumentUpdate_documents s clientId message update cid ts :
  roomId message ≠ EmptyString →
  payload message = Some (DocumentUpdatePayload (Some update) cid ts) →
  documents (crdt (exec (handleDocumentUpdate clientId message) s))
  = updated_documents (roomId message) (Buffer_from_base64 update)
      (documents (crdt s)).
Proof.
  intros Hroom Hpayload.
  set (r := roomId message). set (bytes := Buffer_from_base64 update).
  unfold exec.
  destruct (update_throws r bytes s) eqn:Hthrows.
  - destruct (handleDocumentUpdate_not_applied s clientId message update cid ts
                Hroom Hpayload (or_intror Hthrows))
      as (s0 & -> & _ & _ & _ & _ & _ & _ & Hdocs).
    exact Hdocs.
  - destruct (decide (carries_update bytes)) as [Hcarries|Hno].
    + rewrite (handleDocumentUpdate_applied s clientId message update cid ts)
        by done.
      fold r bytes.
      set (s0 := with_documents (updated_documents r bytes) s).
      destruct (afterLocalApply_conns clientId r update s0) as [conns' ->].
      destruct (recordUpdate_keeps r s0) as (_ & _ & _ & Hcrdt & _).
      cbn. by rewrite Hcrdt.
    + destruct (handleDocumentUpdate_not_applied s clientId message update cid ts
                  Hroom Hpayload (or_introl Hno))
        as (s0 & -> & _ & _ & _ & _ & _ & _ & Hdocs).
      exact Hdocs.
Qed.

(** X4.  A document update a client sends (for a room id, with an update
    string) is published to the room's channel exactly once when it was
    applied: the bus is handed one more command, a PUBLISH on
    [room:<id>:updates] of the update string as received, tagged with the
    sender's client id and this instance's id; the subscription table is
    unchanged.  This holds whether the transport accepts the command or
    rejects it.  An update that is dropped (empty bytes) or that the merge
    rejects reaches the bus not at all. *)
Theorem local_update_published_once s clientId message update cid ts :
  roomId message ≠ EmptyString →
  payload message = Some (DocumentUpdatePayload (Some update) cid ts) →
  let r := roomId message in
  let bytes := Buffer_from_base64 update in
  let s' := exec (handleDocumentUpdate clientId message) s in
  (carries_update bytes → update_throws r bytes s = false →
   ∃ t, redis s'
        = {| subscriptions := subscriptions (redis s);
             commands := commands (redis s)
               ++ [PUBLISH (channel_of r)
                     (sync_message (instanceId s) clientId update t)] |})
  ∧ (¬ carries_update bytes ∨ update_throws r bytes s = true →
     redis s' = redis s).
Proof.
  intros Hroom Hpayload r bytes s'. split.
  - intros Hcarries Hthrows. unfold s', exec.
    rewrite (handleDocumentUpdate_applied s clientId message update cid ts)
      by done.
    fold r bytes.
    set (s0 := with_documents (updated_documents r bytes) s).
    destruct (afterLocalApply_conns clientId r update s0) as [conns' ->].
    destruct (recordUpdate_keeps r s0) as (_ & _ & _ & _ & Hredis & _).
    eexists. cbn. rewrite Hredis. reflexivity.
  - intros Hno. unfold s', exec.
    destruct (handleDocumentUpdate_not_applied s clientId message update cid ts
                Hroom Hpayload Hno) as (s0 & -> & _ & _ & Hredis & _).
    exact Hredis.
Qed.

(** *** The two steps of the handler *)

Lemma publishLocalUpdate_run clientId r update s :
  let s1 := exec (recordUpdate r) s in
  publishLocalUpdate clientId r update s
  = (with_redis (λ rd,
       {| subscriptions := subscriptions rd;
          commands := commands rd
            ++ [PUBLISH (channel_of r)
                  (sync_message (instanceId s) clientId update
                     (Date_now_at (clock s1)))] |})
       (exec Date_now (exec incrementUpdates s1)),
     Normal tt).
Proof.
  intros s1. unfold publishLocalUpdate.
  rewrite (bind_run _ _ s s1 tt).
  2: { unfold s1, exec. rewrite recordUpdate_run. done. }
  rewrite (bind_run _ _ s1 (exec incrementUpdates s1) tt) by done.
  rewrite publish_caught_run. f_equal.
  assert (instanceId s1 = instanceId s) as Hi.
  { unfold s1, exec. rewrite recordUpdate_run.
    by destruct (rooms (roomManager s) !! r). }
  change (instanceId (exec incrementUpdates s1)) with (instanceId s1).
  change (clock (exec incrementUpdates s1)) with (clock s1).
  by rewrite Hi.
Qed.

Lemma broadcastLocalUpdate_run clientId r update s :
  (∀ k c, clients (roomManager s) !! k = Some c → client_id c = k) →
  broadcastLocalUpdate clientId r update s
  = (with_clientConnections
       (delivered (is_recipient r (Some clientId) s)
          (update_broadcast r clientId update
             (Date_now_at (clock s)) (Date_now_at (S (clock s)))))
       (exec Date_now (exec Date_now s)),
     Normal tt).
Proof.
  intros Hok. unfold broadcastLocalUpdate.
  rewrite (bind_run _ _ s (exec Date_now s) (Date_now_at (clock s))) by done.
  rewrite (bind_run _ _ (exec Date_now s) (exec Date_now (exec Date_now s))
             (Date_now_at (S (clock s)))) by done.
  rewrite broadcastToRoom_run by exact Hok.
  reflexivity.
Qed.

Lemma afterLocalApply_steps clientId r update s :
  afterLocalApply clientId r update s
  = (publishLocalUpdate clientId r update;;
     broadcastLocalUpdate clientId r update) s.
Proof.
  rewrite afterLocalApply_prefix.
  rewrite (bind_run _ _ s _ tt (publishLocalUpdate_run clientId r update s)).
  unfold broadcastLocalUpdate.
  match goal with
  | |- _ = (Date_now ≫= _) ?x =>
      rewrite (bind_run _ _ x (exec Date_now x) (Date_now_at (clock x)))
        by done;
      rewrite (bind_run _ _ (exec Date_now x) (exec Date_now (exec Date_now x))
                 (Date_now_at (S (clock x)))) by done
  end.
  reflexivity.
Qed.

(** A [try] block that waits once: what runs up to the wait, then what
    runs after it. *)
Lemma try_catch_steps (m k k1 k2 : M unit) s :
  (∀ s0, k s0 = (k1;; k2) s0) →
  try_catch (m;; k) (mret tt) s
  = (reached ← try_catch (m;; k1;; mret true) (mret false);
     if (reached : bool) then try_catch k2 (mret tt) else mret tt) s.
Proof.
  intros Hk. unfold try_catch, mbind, M_bind.
  destruct (m s) as [s1 [[]|]]; [|reflexivity].
  rewrite Hk. unfold mbind, M_bind.
  destruct (k1 s1) as [s2 [[]|]]; [|reflexivity].
  unfold mret, M_ret. cbv beta iota.
  destruct (k2 s2) as [s3 [[]|]]; reflexivity.
Qed.

Lemma handleDocumentUpdate_steps clientId message s :
  handleDocumentUpdate clientId message s
  = (reached ← handleDocumentUpdate_until_publish clientId message;
     if (reached : bool)
     then handleDocumentUpdate_after_publish clientId message
     else mret tt) s.
Proof.
  unfold handleDocumentUpdate, handleDocumentUpdate_until_publish,
    handleDocumentUpdate_after_publish.
  destruct (payload message) as [pl|]; [|reflexivity].
  case_bool_decide; [reflexivity|].
  destruct pl as [state t|[update|] cid t|msg j l|e]; try reflexivity.
  destruct (jsonUpdateObj_of (Buffer_from_base64 update)) as [obj|].
  - apply try_catch_steps, afterLocalApply_steps.
  - case_bool_decide; [reflexivity|].
    apply try_catch_steps, afterLocalApply_steps.
Qed.

Lemma try_catch_thrown_prefix_ret {A B} (m : M A) (f : A → M B) (b : B) s s' :
  m s = (s', Thrown) → try_catch (m ≫= f) (mret b) s = (s', Normal b).
Proof. intros Hm. unfold try_catch, mbind, M_bind. by rewrite Hm. Qed.

(** The step up to the wait, for a message that names a room and carries
    an update string. *)
Lemma handleDocumentUpdate_until_publish_applied s clientId message update
    cid ts :
  roomId message ≠ EmptyString →
  payload message = Some (DocumentUpdatePayload (Some update) cid ts) →
  let r := roomId message in
  let bytes := Buffer_from_base64 update in
  carries_update bytes → update_throws r bytes s = false →
  handleDocumentUpdate_until_publish clientId message s
  = (exec (publishLocalUpdate clientId r update)
       (with_documents (updated_documents r bytes) s),
     Normal true).
Proof.
  intros Hroom Hpayload r bytes Hcarries Hthrows.
  unfold handleDocumentUpdate_until_publish. rewrite Hpayload.
  rewrite bool_decide_eq_false_2 by done. fold r bytes.
  unfold update_throws in Hthrows. unfold carries_update in Hcarries.
  assert (∀ s0, try_catch (publishLocalUpdate clientId r update;; mret true)
                  (mret false) s0
                = (exec (publishLocalUpdate clientId r update) s0, Normal true))
    as Hrest.
  { intros s0. unfold exec.
    rewrite (try_catch_prefix _ _ _ s0 _ tt
               (publishLocalUpdate_run clientId r update s0)).
    by rewrite publishLocalUpdate_run. }
  destruct (jsonUpdateObj_of bytes) as [obj|] eqn:Hjson.
  - erewrite try_catch_prefix by apply applyJsonUpdate_run.
    rewrite Hrest. do 2 f_equal. apply with_documents_ext.
    unfold updated_documents. by rewrite Hjson.
  - assert (bytes ≠ []) as Hne.
    { destruct Hcarries as [[? ?]|?]; [discriminate|done]. }
    rewrite bool_decide_eq_false_2 by (by destruct bytes).
    rewrite bool_decide_eq_false_2 in Hthrows by done.
    erewrite try_catch_prefix.
    2: { rewrite applyUpdate_run by done. by rewrite Hthrows. }
    rewrite Hrest. do 2 f_equal. apply with_documents_ext.
    unfold updated_documents. rewrite Hjson.
    by rewrite bool_decide_eq_false_2 by done.
Qed.

Lemma handleDocumentUpdate_until_publish_not_applied s clientId message update
    cid ts :
  roomId message ≠ EmptyString →
  payload message = Some (DocumentUpdatePayload (Some update) cid ts) →
  let r := roomId message in
  let bytes := Buffer_from_base64 update in
  ¬ carries_update bytes ∨ update_throws r bytes s = true →
  handleDocumentUpdate_until_publish clientId message s
  = (with_documents (updated_documents r bytes) s, Normal false).
Proof.
  intros Hroom Hpayload r bytes Hno.
  unfold handleDocumentUpdate_until_publish. rewrite Hpayload.
  rewrite bool_decide_eq_false_2 by done. fold r bytes.
  unfold update_throws, carries_update in Hno.
  destruct (jsonUpdateObj_of bytes) as [obj|] eqn:Hjson.
  { exfalso. destruct Hno as [Hno|Hno]; [|discriminate].
    apply Hno. left. eauto. }
  destruct (decide (bytes = [])) as [Hempty|Hne].
  - rewrite bool_decide_eq_true_2 by (by rewrite Hempty).
    unfold try_catch, mret, M_ret. f_equal.
    rewrite <- (with_documents_ext id) at 1; [by destruct s as [? ? []]|].
    unfold updated_documents. rewrite Hjson.
    by rewrite bool_decide_eq_true_2 by done.
  - rewrite bool_decide_eq_false_2 in Hno by done.
    destruct Hno as [Hno|Hthrows]; [exfalso; apply Hno; by right|].
    rewrite bool_decide_eq_false_2 by (by destruct bytes).
    erewrite try_catch_thrown_prefix_ret.
    2: { rewrite applyUpdate_run by done. by rewrite Hthrows. }
    f_equal. apply with_documents_ext.
    unfold updated_documents. rewrite Hjson.
    by rewrite bool_decide_eq_false_2 by done.
Qed.

Lemma registry_ok_handleDocumentUpdate_until_publish clientId message :
  preserves registry_ok (handleDocumentUpdate_until_publish clientId message).
Proof.
  unfold handleDocumentUpdate_until_publish, publishLocalUpdate.
  registry_auto.
Qed.

(** X5.  A document update is sent on to the other members of the room
    after the handler's wait for the bus ([await this.redis.publish]), to
    the members the room has when the handler resumes.  Up to the wait
    the handler sends nothing, and it reaches the wait exactly when the
    update was applied.  Resumed on a state [s2]  (the one the events
    handled meanwhile have left), it sends exactly one DOCUMENT_UPDATE
    carrying the update string and the sender's id on every socket that
    is open in [s2] and belongs to a client with a record that is a
    member of the room in [s2], the sender apart; the sender's own
    socket, the sockets of those who are no members then and sockets that
    are not open then receive nothing, and registry, documents, bus and
    metrics stay as they are in [s2].  The two steps with nothing in
    between are [handleDocumentUpdate]. *)
Theorem local_update_fans_out s s2 clientId message update cid ts :
  roomId message ≠ EmptyString →
  payload message = Some (DocumentUpdatePayload (Some update) cid ts) →
  registry_ok s2 →
  let r := roomId message in
  let bytes := Buffer_from_base64 update in
  let before := handleDocumentUpdate_until_publish clientId message in
  let after := handleDocumentUpdate_after_publish clientId message in
  (∀ s0, handleDocumentUpdate clientId message s0
         = (reached ← before; if (reached : bool) then after else mret tt) s0)
  ∧ clientConnections (exec before s) = clientConnections s
  ∧ (carries_update bytes → update_throws r bytes s = false →
     result before s = Normal true)
  ∧ (¬ carries_update bytes ∨ update_throws r bytes s = true →
     result before s = Normal false)
  ∧ (let s3 := exec after s2 in
     clientConnections s3
     = delivered (is_recipient r (Some clientId) s2)
         (update_broadcast r clientId update
            (Date_now_at (clock s2)) (Date_now_at (S (clock s2))))
         (clientConnections s2)
     ∧ (clientId ≠ EmptyString →
        clientConnections s3 !! clientId = clientConnections s2 !! clientId)
     ∧ roomManager s3 = roomManager s2 ∧ crdt s3 = crdt s2
     ∧ redis s3 = redis s2 ∧ metrics s3 = metrics s2
     ∧ result after s2 = Normal tt).
Proof.
  intros Hroom Hpayload (_ & _ & _ & Hok) r bytes before after.
  split; [intros s0; apply handleDocumentUpdate_steps|].
  assert (∀ Hcarries : carries_update bytes ∧ update_throws r bytes s = false,
            before s
            = (exec (publishLocalUpdate clientId r update)
                 (with_documents (updated_documents r bytes) s),
               Normal true)) as Happlied.
  { intros [Hcarries Hthrows].
    by apply (handleDocumentUpdate_until_publish_applied s clientId message
                update cid ts). }
  assert (¬ carries_update bytes ∨ update_throws r bytes s = true →
          before s
          = (with_documents (updated_documents r bytes) s, Normal false))
    as Hnot.
  { intros Hno.
    by apply (handleDocumentUpdate_until_publish_not_applied s clientId
                message update cid ts). }
  split; [|split; [|split]].
  - destruct (decide (carries_update bytes ∧ update_throws r bytes s = false))
      as [Hyes|Hno].
    + unfold exec at 1. rewrite (Happlied Hyes). cbn [fst].
      unfold exec at 1. rewrite publishLocalUpdate_run. cbn.
      destruct (recordUpdate_keeps r
                  (with_documents (updated_documents r bytes) s))
        as (_ & _ & _ & _ & _ & _ & Hcc & _).
      by rewrite Hcc.
    + unfold exec. rewrite Hnot; [done|].
      destruct (decide (carries_update bytes)); [|by left].
      right. destruct (update_throws r bytes s); [done|]. by destruct Hno.
  - intros Hcarries Hthrows. unfold result. by rewrite Happlied.
  - intros Hno. unfold result. by rewrite Hnot.
  - intros s3.
    assert (after s2
            = (with_clientConnections
                 (delivered (is_recipient r (Some clientId) s2)
                    (update_broadcast r clientId update
                       (Date_now_at (clock s2)) (Date_now_at (S (clock s2)))))
                 (exec Date_now (exec Date_now s2)),
               Normal tt)) as Hafter.
    { unfold after, handleDocumentUpdate_after_publish. rewrite Hpayload.
      fold r. rewrite <- (broadcastLocalUpdate_run clientId r update s2 Hok).
      apply (try_catch_normal _ _ _ tt).
      unfold result. by rewrite broadcastLocalUpdate_run. }
    unfold s3, result, exec. rewrite Hafter. cbn.
    split_and!; try done.
    intros Hc. rewrite delivered_lookup.
    rewrite is_recipient_excluded by done.
    by destruct (clientConnections s2 !! clientId).
Qed.

Lemma local_update_sender_unchanged s clientId message update cid ts :
  registry_ok s →
  roomId message ≠ EmptyString →
  payload message = Some (DocumentUpdatePayload (Some update) cid ts) →
  clientId ≠ EmptyString →
  clientConnections (exec (handleDocumentUpdate clientId message) s) !! clientId
  = clientConnections s !! clientId.
Proof.
  intros (_ & _ & _ & Hok) Hroom Hpayload Hc.
  set (r := roomId message). set (bytes := Buffer_from_base64 update).
  destruct (decide (carries_update bytes ∧ update_throws r bytes s = false))
    as [[Hcarries Hthrows]|Hno].
  - unfold exec.
    rewrite (handleDocumentUpdate_applied s clientId message update cid ts)
      by done.
    fold r bytes. rewrite afterLocalApply_run by exact Hok.
    cbn.
    destruct (recordUpdate_keeps r
                (with_documents (updated_documents r bytes) s))
      as (_ & _ & _ & _ & _ & _ & Hcc & _).
    rewrite Hcc. cbn. rewrite delivered_lookup.
    rewrite is_recipient_excluded by done.
    by destruct (clientConnections s !! clientId).
  - assert (¬ carries_update bytes ∨ update_throws r bytes s = true) as Hor.
    { destruct (decide (carries_update bytes)); [|by left].
      right. destruct (update_throws r bytes s); [done|].
      exfalso. by apply Hno. }
    unfold exec.
    destruct (handleDocumentUpdate_not_applied s clientId message update cid ts
                Hroom Hpayload Hor) as (s0 & -> & _ & _ & _ & _ & Hcc & _).
    cbn. by rewrite Hcc.
Qed.

(** X6.  A document update that was applied is counted once: the record
    of the room, when there is one, has its [updatesCount] raised by one
    and [lastUpdateAt] set to the time of the call, every other room
    record, the member sets and the client records are unchanged, and the
    update counter of the metrics is raised by one.  When the room id has
    no record, the registry is unchanged altogether.  A dropped or
    rejected update changes neither the registry nor the metrics. *)
Theorem local_update_counted_once s clientId message update cid ts :
  roomId message ≠ EmptyString →
  payload message = Some (DocumentUpdatePayload (Some update) cid ts) →
  let r := roomId message in
  let bytes := Buffer_from_base64 update in
  let s' := exec (handleDocumentUpdate clientId message) s in
  (carries_update bytes → update_throws r bytes s = false →
   rooms (roomManager s')
   = alter (updated_room (Date_now_at (clock s))) r (rooms (roomManager s))
   ∧ (rooms (roomManager s) !! r = None → rooms (roomManager s') = rooms (roomManager s))
   ∧ roomClients (roomManager s') = roomClients (roomManager s)
   ∧ clients (roomManager s') = clients (roomManager s)
   ∧ updatesPerSecondCounter (metrics s')
     = S (updatesPerSecondCounter (metrics s)))
  ∧ (¬ carries_update bytes ∨ update_throws r bytes s = true →
     roomManager s' = roomManager s ∧ metrics s' = metrics s).
Proof.
  intros Hroom Hpayload r bytes s'. split.
  - intros Hcarries Hthrows. unfold s', exec.
    rewrite (handleDocumentUpdate_applied s clientId message update cid ts)
      by done.
    fold r bytes.
    set (s0 := with_documents (updated_documents r bytes) s).
    destruct (afterLocalApply_conns clientId r update s0) as [conns' ->].
    destruct (recordUpdate_keeps r s0)
      as (_ & Hrc & Hcl & _ & _ & Hmetrics & _ & Hrooms).
    cbn. rewrite Hrc, Hcl, Hmetrics, Hrooms. split_and!; try done.
    intros Hnone. apply map_eq. intros k. cbn.
    destruct (decide (r = k)) as [<-|].
    + by rewrite lookup_alter_eq, Hnone.
    + by rewrite lookup_alter_ne.
  - intros Hno. unfold s', exec.
    destruct (handleDocumentUpdate_not_applied s clientId message update cid ts
                Hroom Hpayload Hno) as (s0 & -> & _ & Hrm & _ & Hm & _).
    by split.
Qed.

End LocalUpdate.

(** ** Updates from the bus *)

Section RemoteUpdate.
Context `{P : Platform}.

(** The step of [handleRedisUpdate] that applies the update. *)
Lemma apply_remote_run r bytes s :
  ∃ s0,
    match jsonUpdateObj_of bytes with
    | Some jsonUpdateObj => applyJsonUpdate r jsonUpdateObj
    | None => applyUpdate r bytes
    end s
    = (s0, if update_throws r bytes s then Thrown else Normal tt)
    ∧ instanceId s0 = instanceId s ∧ roomManager s0 = roomManager s
    ∧ redis s0 = redis s ∧ metrics s0 = metrics s
    ∧ clientConnections s0 = clientConnections s ∧ clock s0 = clock s
    ∧ documents (crdt s0) = updated_documents r bytes (documents (crdt s)).
Proof.
  unfold update_throws, updated_documents.
  destruct (jsonUpdateObj_of bytes) as [obj|] eqn:Hjson.
  - eexists. split; [apply applyJsonUpdate_run|]. by split_and!.
  - case_bool_decide as Hempty.
    + subst bytes. exists s. split; [apply applyUpdate_empty|]. by split_and!.
    + eexists. split; [by apply applyUpdate_run|]. by split_and!.
Qed.

Lemma handleRedisUpdate_run r redisMessage update s :
  JSON_parse_SyncUpdate redisMessage = Some update →
  sync_instanceId update ≠ instanceId s →
  let bytes := Buffer_from_base64 (sync_update update) in
  ∃ s0,
    (instanceId s0 = instanceId s ∧ roomManager s0 = roomManager s
     ∧ redis s0 = redis s ∧ metrics s0 = metrics s
     ∧ clientConnections s0 = clientConnections s ∧ clock s0 = clock s
     ∧ documents (crdt s0) = updated_documents r bytes (documents (crdt s)))
    ∧ handleRedisUpdate r redisMessage s
      = if update_throws r bytes s then (s0, Normal tt)
        else
          let s1 := exec (recordUpdate r) s0 in
          broadcastToRoom r
            (update_broadcast r (sync_clientId update) (sync_update update)
               (sync_timestamp update) (Date_now_at (clock s1)))
            None (exec Date_now (exec incrementUpdates s1)).
Proof.
  intros Hparse Hforeign bytes.
  destruct (apply_remote_run r bytes s) as (s0 & Happly & Hsame).
  exists s0. split; [exact Hsame|].
  unfold handleRedisUpdate. rewrite Hparse.
  rewrite (try_catch_prefix _ _ _ s s (instanceId s)) by done.
  rewrite bool_decide_eq_false_2 by done. fold bytes.
  destruct (update_throws r bytes s).
  - by apply try_catch_thrown_prefix.
  - rewrite (try_catch_prefix _ _ _ s s0 tt) by exact Happly.
    set (s1 := exec (recordUpdate r) s0).
    assert (∀ rest : M unit,
              (recordUpdate r;; rest) s0 = rest s1) as Hrec.
    { intros rest. apply (bind_run (recordUpdate r) (λ _, rest) s0 s1 tt).
      unfold s1, exec. by rewrite recordUpdate_run. }
    match goal with
    | |- try_catch ?body _ _ = ?rhs =>
        assert (body s0 = rhs) as Hbody
    end.
    { rewrite Hrec.
      rewrite (bind_run _ _ s1 (exec incrementUpdates s1) tt) by done.
      by rewrite (bind_run _ _ _ (exec Date_now (exec incrementUpdates s1))
                    (Date_now_at (clock s1))) by done. }
    rewrite <- Hbody. apply (try_catch_normal _ _ _ tt).
    unfold result. rewrite Hbody. apply broadcastToRoom_result.
Qed.

Lemma keeps_redis_handleRedisUpdate x r redisMessage :
  preserves (λ s, redis s = x) (handleRedisUpdate r redisMessage).
Proof.
  pose proof (keeps_redis_broadcastToRoom x).
  pose proof (keeps_redis_getOrCreateDocument x).
  unfold handleRedisUpdate, applyJsonUpdate, applyUpdate, recordUpdate,
    incrementUpdates.
  preserves_auto.
Qed.

(** X7.  An update has the same effect on the document store whether it
    arrives from a client of this instance or over the bus from another
    instance: for the same room id and the same update string, both
    handlers leave the documents [updated_documents] describes (the fields
    of a JSON record set, other non-empty bytes merged, empty bytes
    changing nothing), also when the merge throws. *)
Theorem remote_update_matches_local s clientId message update cid ts
    redisMessage sync :
  roomId message ≠ EmptyString →
  payload message = Some (DocumentUpdatePayload (Some update) cid ts) →
  JSON_parse_SyncUpdate redisMessage = Some sync →
  sync_instanceId sync ≠ instanceId s →
  sync_update sync = update →
  let r := roomId message in
  let local := exec (handleDocumentUpdate clientId message) s in
  let remote := exec (handleRedisUpdate r redisMessage) s in
  documents (crdt remote) = documents (crdt local)
  ∧ documents (crdt remote)
    = updated_documents r (Buffer_from_base64 update) (documents (crdt s)).
Proof.
  intros Hroom Hpayload Hparse Hforeign Hupdate r local remote.
  set (bytes := Buffer_from_base64 update).
  assert (documents (crdt remote) = updated_documents r bytes (documents (crdt s)))
    as Hremote.
  { unfold remote, exec.
    destruct (handleRedisUpdate_run r redisMessage sync s Hparse Hforeign)
      as (s0 & (_ & _ & _ & _ & _ & _ & Hdocs) & ->).
    rewrite Hupdate in *. fold bytes in Hdocs |- *.
    destruct (update_throws r bytes s); [exact Hdocs|].
    cbv zeta.
    match goal with
    | |- context [broadcastToRoom r ?m ?e ?x] =>
        destruct (broadcastToRoom_conns r m e x) as [conns' ->]
    end.
    destruct (recordUpdate_keeps r s0) as (_ & _ & _ & Hcrdt & _).
    cbn. by rewrite Hcrdt. }
  split; [|exact Hremote].
  rewrite Hremote. symmetry.
  by apply (handleDocumentUpdate_documents s clientId message update cid ts).
Qed.

(** X8.  Nothing that arrives over the bus is sent back to it: whatever
    the channel and the message, handling it leaves the subscription table
    and the commands handed to the transport as they are (no PUBLISH, no
    SUBSCRIBE). *)
Theorem bus_message_never_republished s channel redisMessage :
  (∀ r, redis (exec (handleRedisUpdate r redisMessage) s) = redis s)
  ∧ redis (exec (dispatch (RedisMessage channel redisMessage)) s) = redis s.
Proof.
  split.
  - intros r. by apply (keeps_redis_handleRedisUpdate (redis s)).
  - apply (preserves_bind (λ s', redis s' = redis s)); [| |done].
    + apply preserves_gets.
    + intros ls. apply preserves_forEach. intros [r].
      apply keeps_redis_handleRedisUpdate.
Qed.

(** X9.  An update from another instance that was applied is sent to
    every open socket of a member of the room on this instance (one with
    a client record, see [is_recipient]), nobody excluded, as one
    DOCUMENT_UPDATE carrying the update string, the
    originating client id and the originating timestamp; the room's record
    is counted up as for a local update.  This includes an update whose
    bytes are empty, which a local handler would have dropped.  When the
    merge throws, nothing is sent and the registry is unchanged; a bus
    message that does not parse changes nothing at all. *)
Theorem remote_update_fans_out s r redisMessage :
  registry_ok s →
  let s' := exec (handleRedisUpdate r redisMessage) s in
  (∀ sync, JSON_parse_SyncUpdate redisMessage = Some sync →
     sync_instanceId sync ≠ instanceId s →
     let bytes := Buffer_from_base64 (sync_update sync) in
     (update_throws r bytes s = false →
      (∃ t, clientConnections s'
            = delivered (is_recipient r None s)
                (update_broadcast r (sync_clientId sync) (sync_update sync)
                   (sync_timestamp sync) t)
                (clientConnections s))
      ∧ rooms (roomManager s')
        = alter (updated_room (Date_now_at (clock s))) r (rooms (roomManager s))
      ∧ roomClients (roomManager s') = roomClients (roomManager s)
      ∧ clients (roomManager s') = clients (roomManager s))
     ∧ (update_throws r bytes s = true →
        clientConnections s' = clientConnections s
        ∧ roomManager s' = roomManager s))
  ∧ (JSON_parse_SyncUpdate redisMessage = None → s' = s).
Proof.
  intros (_ & _ & _ & Hok) s'. split.
  - intros sync Hparse Hforeign bytes.
    destruct (handleRedisUpdate_run r redisMessage sync s Hparse Hforeign)
      as (s0 & (_ & Hrm & _ & _ & Hcc & Hclock & _) & Hrun).
    fold bytes in Hrun. unfold s', exec. rewrite Hrun. split.
    + intros ->. cbv zeta.
      destruct (recordUpdate_keeps r s0)
        as (_ & Hrc & Hcl & _ & _ & _ & Hcc1 & Hrooms).
      set (s1 := exec (recordUpdate r) s0) in *.
      rewrite broadcastToRoom_run.
      2: { cbn. rewrite Hcl, Hrm. exact Hok. }
      cbn. rewrite Hrc, Hcl, Hrooms, Hrm, Hcc1, Hcc, Hclock.
      split_and!; try done.
      eexists. apply delivered_ext. intros k _.
      unfold is_recipient. cbn. by rewrite ?Hrc, ?Hcl, ?Hrm, ?Hcc1, ?Hcc.
    + intros ->. by split.
  - intros Hparse. unfold s', exec, handleRedisUpdate. by rewrite Hparse.
Qed.

End RemoteUpdate.

(** ** Subscriptions *)

Create HintDb bus.

Ltac bus_auto :=
  repeat first [preserves_step | preserves_leaf | solve [eauto with bus]].

Section BusInvariant.
Context `{P : Platform}.

Ltac run :=
  cbv beta iota delta
    [mbind M_bind mret M_ret gets modify try_catch throw exec result fst snd].

Lemma publish_run channel message s :
  exec (publish channel message) s
  = with_redis (λ r,
      {| subscriptions := subscriptions r;
         commands := commands r ++ [PUBLISH channel message] |}) s.
Proof.
  unfold publish, redis_command. run. simpl.
  by destruct (redis_rejects _).
Qed.

Lemma subscribe_commands_snoc c channel s s' :
  commands (redis s') = commands (redis s) ++ [c] →
  subscribe_commands channel s'
  = subscribe_commands channel s
    ++ match c with
       | SUBSCRIBE ch cb => if bool_decide (ch = channel) then [cb] else []
       | PUBLISH _ _ => []
       end.
Proof.
  intros Hc. unfold subscribe_commands. rewrite Hc, omap_app. f_equal.
  destruct c as [ch cb|ch msg]; simpl; [|done]. by case_bool_decide.
Qed.

Lemma subscribed_once_initial iid : subscribed_once (initial iid).
Proof. intros channel. done. Qed.

Lemma subscribed_once_publish channel message :
  preserves subscribed_once (publish channel message).
Proof.
  intros s Hs ch. rewrite publish_run.
  erewrite subscribe_commands_snoc by reflexivity. rewrite app_nil_r.
  apply Hs.
Qed.

Lemma subscribed_once_subscribe r s :
  channel_of r ∉ dom (subscriptions (redis s)) →
  subscribed_once s →
  subscribed_once (exec (subscribe (channel_of r) (HandleRedisUpdate r)) s).
Proof.
  intros Hnew Hs ch. rewrite subscribe_run.
  erewrite subscribe_commands_snoc by reflexivity.
  cbn [redis with_redis subscriptions].
  specialize (Hs ch). case_bool_decide as Hch.
  - subst ch. rewrite lookup_insert_eq.
    apply not_elem_of_dom in Hnew. rewrite Hnew in Hs. rewrite Hs.
    split; [done|]. by exists r.
  - rewrite lookup_insert_ne by done. by rewrite app_nil_r.
Qed.

Lemma subscribed_once_ws_send clientId message :
  preserves subscribed_once (ws_send clientId message).
Proof. unfold ws_send. bus_auto. Qed.

Lemma subscribed_once_sendError clientId text :
  preserves subscribed_once (sendError clientId text).
Proof.
  unfold sendError, is_open. pose proof subscribed_once_ws_send. bus_auto.
Qed.

Lemma subscribed_once_broadcastToRoom roomId message exclude :
  preserves subscribed_once (broadcastToRoom roomId message exclude).
Proof.
  unfold broadcastToRoom, getClientsInRoom, is_open.
  pose proof subscribed_once_ws_send. bus_auto.
Qed.

Lemma subscribed_once_getOrCreateDocument roomId :
  preserves subscribed_once (getOrCreateDocument roomId).
Proof. unfold getOrCreateDocument. bus_auto. Qed.

Lemma subscribed_once_addClientToRoom clientId roomId iid :
  preserves subscribed_once (addClientToRoom clientId roomId iid).
Proof.
  unfold addClientToRoom, getOrCreateRoom.
  pose proof subscribed_once_getOrCreateDocument. bus_auto.
Qed.

Lemma subscribed_once_removeClientFromRoom clientId :
  preserves subscribed_once (removeClientFromRoom clientId).
Proof.
  unfold removeClientFromRoom, deleteRoom, deleteDocument, getDocument.
  bus_auto.
Qed.

Lemma subscribed_once_join_tail clientId roomId :
  preserves subscribed_once
    (channels ← subscribedChannels;
     if bool_decide (channel_of roomId ∈ channels) then mret tt
     else try_catch (subscribe (channel_of roomId) (HandleRedisUpdate roomId))
            (sendError clientId "Failed to subscribe to room updates")).
Proof.
  intros s Hs. unfold subscribedChannels.
  rewrite exec_bind. change (result (gets _) s) with
    (Normal (elements (dom (subscriptions (redis s))))).
  change (exec (gets _) s) with s. cbv beta iota.
  case_bool_decide as Hin; [done|].
  rewrite elem_of_elements in Hin.
  pose proof (subscribed_once_subscribe roomId s Hin Hs) as Hs'.
  rewrite exec_try_catch. destruct (result _ s); [done|].
  by apply subscribed_once_sendError.
Qed.

Lemma subscribed_once_handleJoinRoom clientId message :
  preserves subscribed_once (handleJoinRoom clientId message).
Proof.
  unfold handleJoinRoom, getDocumentState.
  pose proof subscribed_once_ws_send.
  pose proof subscribed_once_sendError.
  pose proof subscribed_once_broadcastToRoom.
  pose proof subscribed_once_getOrCreateDocument.
  pose proof subscribed_once_addClientToRoom.
  pose proof (subscribed_once_join_tail clientId (roomId message)).
  case_bool_decide; [done|].
  apply preserves_try_catch; [|done].
  do 10 (apply preserves_bind; [by bus_auto|intros ?]).
  done.
Qed.

Lemma subscribed_once_handleLeaveRoom clientId message :
  preserves subscribed_once (handleLeaveRoom clientId message).
Proof.
  unfold handleLeaveRoom.
  pose proof subscribed_once_removeClientFromRoom.
  pose proof subscribed_once_broadcastToRoom. bus_auto.
Qed.

Lemma subscribed_once_handleDocumentUpdate clientId message :
  preserves subscribed_once (handleDocumentUpdate clientId message).
Proof.
  unfold handleDocumentUpdate, afterLocalApply, applyJsonUpdate, applyUpdate,
    recordUpdate, incrementUpdates.
  pose proof subscribed_once_getOrCreateDocument.
  pose proof subscribed_once_broadcastToRoom.
  pose proof subscribed_once_publish.
  bus_auto.
Qed.

Lemma subscribed_once_handleRedisUpdate roomId redisMessage :
  preserves subscribed_once (handleRedisUpdate roomId redisMessage).
Proof.
  intros s Hs ch.
  pose proof (keeps_redis_handleRedisUpdate (redis s) roomId redisMessage s
                eq_refl) as Hredis.
  unfold subscribe_commands. rewrite Hredis. apply Hs.
Qed.

Lemma subscribed_once_handleMessage clientId data :
  preserves subscribed_once (handleMessage clientId data).
Proof.
  unfold handleMessage, decodeFrame, decodeBinaryDocumentUpdate,
    incrementMessagesProcessed, recordUpdateLatency.
  pose proof subscribed_once_sendError.
  pose proof subscribed_once_handleJoinRoom.
  pose proof subscribed_once_handleLeaveRoom.
  pose proof subscribed_once_handleDocumentUpdate.
  bus_auto.
Qed.

Lemma subscribed_once_dispatch e : preserves subscribed_once (dispatch e).
Proof.
  destruct e; simpl.
  - unfold handleConnection, incrementMessagesProcessed. bus_auto.
  - apply subscribed_once_handleMessage.
  - unfold handleDisconnect, getClient.
    pose proof subscribed_once_handleLeaveRoom. bus_auto.
  - unfold handleError, incrementConnectionErrors. bus_auto.
  - bus_auto.
  - pose proof subscribed_once_handleRedisUpdate. bus_auto.
  - unfold updateMetrics. bus_auto.
Qed.

Lemma reachable_subscribed_once s : reachable s → subscribed_once s.
Proof.
  induction 1 as [iid|s e _ IH].
  - apply subscribed_once_initial.
  - by apply subscribed_once_dispatch.
Qed.

(** X10.  At every reachable state the instance has handed the
    subscriber client at most one SUBSCRIBE per channel: none for a
    channel that is not in the subscription table, and exactly one,
    carrying [handleRedisUpdate] for the channel's room, for a channel
    that is.  Whichever of these commands the transport accepted, the
    subscriber client therefore holds at most one listener per channel,
    and a message on the bus is handled at most once by the instance. *)
Theorem one_subscribe_per_channel s channel :
  reachable s →
  ((subscriptions (redis s) !! channel = None
    ∧ subscribe_commands channel s = [])
   ∨ (∃ r, channel = channel_of r
           ∧ subscriptions (redis s) !! channel = Some (HandleRedisUpdate r)
           ∧ subscribe_commands channel s = [HandleRedisUpdate r]))
  ∧ ∀ held, sublist held (subscribe_commands channel s) →
            (length held ≤ 1)%nat
            ∧ ∀ cb, cb ∈ held →
                ∃ r, channel = channel_of r ∧ cb = HandleRedisUpdate r.
Proof.
  intros Hs. pose proof (reachable_subscribed_once s Hs channel) as Hch.
  destruct (subscriptions (redis s) !! channel) as [cb|] eqn:Hsub.
  - destruct Hch as (Hl & r & -> & ->). split.
    + right. by exists r.
    + intros held Hheld. rewrite Hl in Hheld. split.
      * by apply sublist_length in Hheld.
      * intros cb Hcb. exists r. split; [done|].
        pose proof (elem_of_sublist _ _ _ Hcb Hheld) as Hin.
        by apply list_elem_of_singleton in Hin.
  - split; [by left|].
    intros held Hheld. rewrite Hch in Hheld.
    apply sublist_nil_r in Hheld as ->. split; [simpl; lia|].
    intros cb Hcb. by apply elem_of_nil in Hcb.
Qed.

End BusInvariant.

(** ** Joining *)

Section Joining.
Context `{P : Platform}.

Ltac run :=
  cbv beta iota delta
    [mbind M_bind mret M_ret gets modify try_catch throw exec result fst snd].

Lemma subscribe_full_run channel callback s :
  subscribe channel callback s
  = (with_redis (λ r,
       {| subscriptions := <[channel := callback]> (subscriptions r);
          commands := commands r ++ [SUBSCRIBE channel callback] |}) s,
     if redis_rejects (length (commands (redis s))) then Thrown else Normal tt).
Proof.
  unfold subscribe, redis_command. run. simpl.
  by destruct (redis_rejects _).
Qed.

Lemma keeps_metrics_addClientToRoom x clientId roomId iid :
  preserves (λ s, metrics s = x) (addClientToRoom clientId roomId iid).
Proof.
  unfold addClientToRoom, getOrCreateRoom, getOrCreateDocument.
  preserves_auto.
Qed.

(** The state a join leaves, field by field. *)
Lemma handleJoinRoom_run s clientId message ws :
  registry_ok s → roomId message ≠ EmptyString → clientId ≠ EmptyString →
  clientConnections s !! clientId = Some ws → readyState ws = OPEN →
  let r := roomId message in
  let doc := default Y_Doc_new (documents (crdt s) !! r) in
  ∃ s' t1 t2 t3 t4 t5,
    handleJoinRoom clientId message s = (s', Normal tt)
    ∧ instanceId s' = instanceId s
    ∧ roomManager s'
      = roomManager (exec (addClientToRoom clientId r (instanceId s)) s)
    ∧ documents (crdt s') = ensure_document r (documents (crdt s))
    ∧ metrics s' = metrics s
    ∧ redis s'
      = (if subscribes r s
         then {| subscriptions :=
                   <[channel_of r := HandleRedisUpdate r]>
                     (subscriptions (redis s));
                 commands := commands (redis s)
                   ++ [SUBSCRIBE (channel_of r) (HandleRedisUpdate r)] |}
         else redis s)
    ∧ clientConnections s'
      = <[clientId :=
            {| readyState := OPEN;
               sent := sent ws
                 ++ [state_message r clientId doc t1 t2;
                     joined_message r clientId t3]
                 ++ (if subscribe_rejected r s
                     then [error_message
                             "Failed to subscribe to room updates" t5]
                     else []) |}]>
          (delivered (is_recipient r None s)
             (others_joined_message r clientId t4) (clientConnections s)).
Proof.
  intros Hok Hroom Hc Hws Hopen r doc.
  pose proof (addClientToRoom_ok clientId r (instanceId s) s Hok) as Hadd.
  pose proof (registry_ok_addClientToRoom clientId r (instanceId s) s Hok)
    as HokB.
  cbv zeta in Hadd. unfold exec, result in Hadd. unfold exec in HokB |- *.
  destruct (addClientToRoom clientId r (instanceId s) s) as [sB resB] eqn:HB.
  simpl in Hadd, HokB |- *.
  destruct Hadd as (now & -> & Hclients & Hmembers & _ & Hdocs & Hconns
                    & Hredis & Hiid).
  assert (documents (crdt sB) !! r = Some doc) as Hdoc.
  { rewrite Hdocs. unfold ensure_document, doc.
    destruct (documents (crdt s) !! r) eqn:Hd; [by rewrite Hd|].
    by rewrite lookup_insert_eq. }
  assert (ensure_document r (documents (crdt sB)) = documents (crdt sB))
    as Hensure.
  { unfold ensure_document. by rewrite Hdoc. }
  set (sC := exec Date_now (exec Date_now
               (with_documents (ensure_document r) sB))).
  set (m1 := state_message r clientId doc
               (Date_now_at (clock sB)) (Date_now_at (S (clock sB)))).
  set (sD := with_clientConnections (insert clientId (after_send ws m1)) sC).
  set (m2 := joined_message r clientId (Date_now_at (clock sD))).
  set (ws2 := after_send (after_send ws m1) m2).
  set (sE := with_clientConnections (insert clientId ws2) (exec Date_now sD)).
  set (m3 := others_joined_message r clientId (Date_now_at (clock sE))).
  set (sF := exec Date_now sE).
  set (sG := with_clientConnections
               (delivered (is_recipient r (Some clientId) sF) m3) sF).
  assert (clientConnections sG
          = <[clientId := ws2]>
              (delivered (is_recipient r None s) m3 (clientConnections s)))
    as HconnsG.
  { unfold sG, sF, sE, sD, sC. cbn.
    rewrite insert_insert_eq, Hconns.
    apply map_eq. intros k. rewrite delivered_lookup.
    destruct (decide (k = clientId)) as [->|Hk].
    - rewrite !lookup_insert_eq. simpl.
      by rewrite is_recipient_excluded by done.
    - rewrite !lookup_insert_ne by done. rewrite delivered_lookup.
      destruct (clientConnections s !! k) as [w|] eqn:Hw; [|done]. simpl.
      do 2 f_equal. unfold is_recipient, excluded. cbn.
      rewrite Hclients, Hmembers.
      rewrite lookup_insert_eq. rewrite !lookup_insert_ne by done.
      rewrite Hw. cbn [default id].
      rewrite (bool_decide_eq_false_2 (k = clientId)) by done.
      rewrite andb_false_r. cbn [negb].
      assert (bool_decide (k ∈ default ∅ (roomClients (roomManager s) !! r)
                               ∪ {[clientId]})
              = bool_decide (k ∈ default ∅ (roomClients (roomManager s) !! r)))
        as ->; [|done].
      apply bool_decide_ext. rewrite elem_of_union, elem_of_singleton. tauto. }
  set (sH := with_redis (λ rd,
               {| subscriptions :=
                    <[channel_of r := HandleRedisUpdate r]> (subscriptions rd);
                  commands := commands rd
                    ++ [SUBSCRIBE (channel_of r) (HandleRedisUpdate r)] |}) sG).
  set (m4 := error_message "Failed to subscribe to room updates"
               (Date_now_at (clock sH))).
  set (sI := with_clientConnections (insert clientId (after_send ws2 m4))
               (exec Date_now sH)).
  assert (redis sG = redis s) as HredisG by exact Hredis.
  exists (if subscribes r s
          then (if redis_rejects (length (commands (redis s))) then sI else sH)
          else sG),
    (Date_now_at (clock sB)), (Date_now_at (S (clock sB))),
    (Date_now_at (clock sD)), (Date_now_at (clock sE)),
    (Date_now_at (clock sH)).
  split.
  - unfold handleJoinRoom; fold r.
    rewrite bool_decide_eq_false_2 by done.
    erewrite try_catch_prefix by reflexivity.
    erewrite try_catch_prefix by exact HB.
    erewrite try_catch_prefix by apply getDocumentState_run.
    rewrite Hdoc.
    erewrite try_catch_prefix by reflexivity.
    erewrite try_catch_prefix by reflexivity.
    erewrite try_catch_prefix.
    2: { apply (ws_send_open _ _ ws); [|done]. fields. by rewrite Hconns. }
    erewrite try_catch_prefix by reflexivity.
    erewrite try_catch_prefix.
    2: { apply (ws_send_open _ _ (after_send ws m1)); [|done].
         fields. apply lookup_insert_eq. }
    match goal with
    | |- try_catch _ _ ?x = _ => change x with sE
    end.
    rewrite (try_catch_prefix _ _ _ sE sF (Date_now_at (clock sE)))
      by reflexivity.
    rewrite (try_catch_prefix _ _ _ sF sG tt).
    2: { apply (broadcastToRoom_run sF r m3).
         destruct HokB as (_ & _ & _ & H4). exact H4. }
    rewrite (try_catch_prefix _ _ _ sG sG
               (elements (dom (subscriptions (redis sG))))) by reflexivity.
    rewrite HredisG. unfold subscribes.
    case_bool_decide as Hin.
    + rewrite elem_of_elements in Hin.
      rewrite (bool_decide_eq_true_2 _ Hin). done.
    + rewrite elem_of_elements in Hin.
      rewrite (bool_decide_eq_false_2 _ Hin). cbn [negb].
      unfold try_catch. rewrite subscribe_full_run.
      rewrite HredisG. fold sH.
      destruct (redis_rejects (length (commands (redis s)))); [|done].
      rewrite (sendError_open clientId _ ws2).
      * done.
      * unfold sH. cbn [clientConnections with_redis].
        rewrite HconnsG. apply lookup_insert_eq.
      * done.
  - assert (documents (crdt sG) = ensure_document r (documents (crdt s)))
      as HdocsG.
    { unfold sG. cbn. by rewrite Hensure. }
    assert (metrics sG = metrics s) as HmetricsG.
    { change (metrics sG) with (metrics sB).
      pose proof (keeps_metrics_addClientToRoom (metrics s) clientId r
                    (instanceId s) s eq_refl) as Hm.
      unfold exec in Hm. by rewrite HB in Hm. }
    unfold subscribe_rejected.
    destruct (subscribes r s) eqn:Hsub; cbn [andb].
    + destruct (redis_rejects (length (commands (redis s)))) eqn:Hrej.
      * split_and!; try done.
        -- unfold sI, sH. cbn. by rewrite Hredis.
        -- unfold sI.
           cbn [clientConnections with_clientConnections exec fst Date_now].
           change (clientConnections sH) with (clientConnections sG).
           rewrite HconnsG, insert_insert_eq. f_equal.
           unfold after_send, ws2, after_send; cbn [readyState sent].
           rewrite Hopen. by rewrite <- !app_assoc.
      * split_and!; try done.
        -- unfold sH. cbn. by rewrite Hredis.
        -- change (clientConnections sH) with (clientConnections sG).
           rewrite HconnsG. f_equal.
           unfold ws2, after_send; cbn [readyState sent].
           rewrite Hopen, ?app_nil_r. by rewrite <- !app_assoc.
    + split_and!; try done.
      rewrite HconnsG. f_equal.
      unfold ws2, after_send; cbn [readyState sent].
      rewrite Hopen, ?app_nil_r. by rewrite <- !app_assoc.
Qed.

(** X11.  A join (for a room id, on an open socket) tells the other
    members and nobody else: every open socket of a member of the room
    (one with a client record, see [is_recipient]) other than the joining
    client is sent exactly one ACK "Client <id>
    joined the room"; the sockets of clients outside the room and sockets
    that are not open are left as they are.  The join creates the room's
    document when there is none and leaves every existing document
    untouched, and it changes no metric. *)
Theorem join_notifies_the_others s clientId message ws :
  registry_ok s → roomId message ≠ EmptyString → clientId ≠ EmptyString →
  clientConnections s !! clientId = Some ws → readyState ws = OPEN →
  let r := roomId message in
  let s' := exec (handleJoinRoom clientId message) s in
  (∃ t, ∀ k, k ≠ clientId →
     clientConnections s' !! k
     = (λ w, if is_recipient r None s k
             then after_send w (others_joined_message r clientId t) else w)
         <$> clientConnections s !! k)
  ∧ documents (crdt s') = ensure_document r (documents (crdt s))
  ∧ (∀ r' doc, documents (crdt s) !! r' = Some doc →
               documents (crdt s') !! r' = Some doc)
  ∧ metrics s' = metrics s.
Proof.
  intros Hok Hroom Hc Hws Hopen r s'.
  destruct (handleJoinRoom_run s clientId message ws Hok Hroom Hc Hws Hopen)
    as (s1 & t1 & t2 & t3 & t4 & t5 & Hrun & _ & _ & Hdocs & Hmetrics & _
        & Hconns).
  unfold s', exec. rewrite Hrun. cbn [fst]. split_and!.
  - exists t4. intros k Hk. rewrite Hconns.
    rewrite lookup_insert_ne by done. apply delivered_lookup.
  - exact Hdocs.
  - intros r' doc Hdoc. rewrite Hdocs. unfold ensure_document. fold r.
    destruct (documents (crdt s) !! r) eqn:Hr; [done|].
    rewrite lookup_insert_ne; [done|]. intros <-. congruence.
  - exact Hmetrics.
Qed.

(** *** The two steps of a join *)

(** A [try] block whose last statement waits: both sides run the same
    statements up to it. *)
Lemma steps_congr {A} (m : M A) (fL : A → M unit) (fB : A → M bool)
    (hL : M unit) (hB : M bool) (after : bool → M unit) s :
  (∀ a s1, try_catch (fL a) hL s1 = (try_catch (fB a) hB ≫= after) s1) →
  (∀ s1, hL s1 = (hB ≫= after) s1) →
  try_catch (m ≫= fL) hL s = (try_catch (m ≫= fB) hB ≫= after) s.
Proof.
  intros Hf Hh. specialize (Hh (m s).1).
  unfold try_catch, mbind, M_bind in *.
  destruct (m s) as [s1 [a|]]; [apply Hf|exact Hh].
Qed.

Lemma sendError_run clientId text s :
  sendError clientId text s
  = (match clientConnections s !! clientId with
     | Some ws =>
         if bool_decide (readyState ws = OPEN)
         then with_clientConnections
                (insert clientId
                   (after_send ws (error_message text (Date_now_at (clock s)))))
                (exec Date_now s)
         else exec Date_now s
     | None => exec Date_now s
     end, Normal tt).
Proof.
  destruct (clientConnections s !! clientId) as [ws|] eqn:Hws.
  - case_bool_decide as Hopen; [by apply sendError_open|].
    unfold sendError, is_open, ws_send, Date_now. run.
    cbn [clientConnections]. rewrite Hws.
    by rewrite bool_decide_eq_false_2 by done.
  - unfold sendError, is_open, ws_send, Date_now. run.
    cbn [clientConnections]. by rewrite Hws.
Qed.

Lemma handleJoinRoom_steps clientId message s :
  handleJoinRoom clientId message s
  = (rejected ← handleJoinRoom_until_subscribe clientId message;
     handleJoinRoom_after_subscribe clientId rejected) s.
Proof.
  unfold handleJoinRoom, handleJoinRoom_until_subscribe.
  case_bool_decide.
  { unfold mbind, M_bind. rewrite !sendError_run. reflexivity. }
  assert (∀ s1, sendError clientId "Failed to join room" s1
                = ((sendError clientId "Failed to join room";; mret false)
                     ≫= handleJoinRoom_after_subscribe clientId) s1) as Hh.
  { intros s1. unfold mbind, M_bind. rewrite !sendError_run. reflexivity. }
  do 10 (apply steps_congr; [intros ? ?|exact Hh]).
  apply steps_congr; [intros channels sG|exact Hh].
  case_bool_decide.
  { unfold try_catch, mbind, M_bind. reflexivity. }
  match goal with
  | |- _ = ?rhs =>
      assert (rhs = handleJoinRoom_after_subscribe clientId
                      (redis_rejects (length (commands (redis sG))))
                      (with_redis (λ r,
                         {| subscriptions :=
                              <[channel_of (roomId message)
                                := HandleRedisUpdate (roomId message)]>
                                (subscriptions r);
                            commands := commands r
                              ++ [SUBSCRIBE (channel_of (roomId message))
                                    (HandleRedisUpdate (roomId message))] |})
                         sG)) as -> by reflexivity
  end.
  unfold handleJoinRoom_after_subscribe, try_catch.
  rewrite subscribe_full_run.
  destruct (redis_rejects (length (commands (redis sG)))); reflexivity.
Qed.

(** The state a join leaves when it reaches its wait. *)
Lemma handleJoinRoom_until_subscribe_run s clientId message ws :
  registry_ok s → roomId message ≠ EmptyString → clientId ≠ EmptyString →
  clientConnections s !! clientId = Some ws → readyState ws = OPEN →
  let r := roomId message in
  let doc := default Y_Doc_new (documents (crdt s) !! r) in
  ∃ s' t1 t2 t3 t4,
    handleJoinRoom_until_subscribe clientId message s
    = (s', Normal (subscribe_rejected r s))
    ∧ instanceId s' = instanceId s
    ∧ roomManager s'
      = roomManager (exec (addClientToRoom clientId r (instanceId s)) s)
    ∧ documents (crdt s') = ensure_document r (documents (crdt s))
    ∧ metrics s' = metrics s
    ∧ redis s'
      = (if subscribes r s
         then {| subscriptions :=
                   <[channel_of r := HandleRedisUpdate r]>
                     (subscriptions (redis s));
                 commands := commands (redis s)
                   ++ [SUBSCRIBE (channel_of r) (HandleRedisUpdate r)] |}
         else redis s)
    ∧ clientConnections s'
      = <[clientId :=
            {| readyState := OPEN;
               sent := sent ws
                 ++ [state_message r clientId doc t1 t2;
                     joined_message r clientId t3] |}]>
          (delivered (is_recipient r None s)
             (others_joined_message r clientId t4) (clientConnections s)).
Proof.
  intros Hok Hroom Hc Hws Hopen r doc.
  pose proof (addClientToRoom_ok clientId r (instanceId s) s Hok) as Hadd.
  pose proof (registry_ok_addClientToRoom clientId r (instanceId s) s Hok)
    as HokB.
  cbv zeta in Hadd. unfold exec, result in Hadd. unfold exec in HokB |- *.
  destruct (addClientToRoom clientId r (instanceId s) s) as [sB resB] eqn:HB.
  simpl in Hadd, HokB |- *.
  destruct Hadd as (now & -> & Hclients & Hmembers & _ & Hdocs & Hconns
                    & Hredis & Hiid).
  assert (documents (crdt sB) !! r = Some doc) as Hdoc.
  { rewrite Hdocs. unfold ensure_document, doc.
    destruct (documents (crdt s) !! r) eqn:Hd; [by rewrite Hd|].
    by rewrite lookup_insert_eq. }
  assert (ensure_document r (documents (crdt sB)) = documents (crdt sB))
    as Hensure.
  { unfold ensure_document. by rewrite Hdoc. }
  set (sC := exec Date_now (exec Date_now
               (with_documents (ensure_document r) sB))).
  set (m1 := state_message r clientId doc
               (Date_now_at (clock sB)) (Date_now_at (S (clock sB)))).
  set (sD := with_clientConnections (insert clientId (after_send ws m1)) sC).
  set (m2 := joined_message r clientId (Date_now_at (clock sD))).
  set (ws2 := after_send (after_send ws m1) m2).
  set (sE := with_clientConnections (insert clientId ws2) (exec Date_now sD)).
  set (m3 := others_joined_message r clientId (Date_now_at (clock sE))).
  set (sF := exec Date_now sE).
  set (sG := with_clientConnections
               (delivered (is_recipient r (Some clientId) sF) m3) sF).
  assert (clientConnections sG
          = <[clientId := ws2]>
              (delivered (is_recipient r None s) m3 (clientConnections s)))
    as HconnsG.
  { unfold sG, sF, sE, sD, sC. cbn.
    rewrite insert_insert_eq, Hconns.
    apply map_eq. intros k. rewrite delivered_lookup.
    destruct (decide (k = clientId)) as [->|Hk].
    - rewrite !lookup_insert_eq. simpl.
      by rewrite is_recipient_excluded by done.
    - rewrite !lookup_insert_ne by done. rewrite delivered_lookup.
      destruct (clientConnections s !! k) as [w|] eqn:Hw; [|done]. simpl.
      do 2 f_equal. unfold is_recipient, excluded. cbn.
      rewrite Hclients, Hmembers.
      rewrite lookup_insert_eq. rewrite !lookup_insert_ne by done.
      rewrite Hw. cbn [default id].
      rewrite (bool_decide_eq_false_2 (k = clientId)) by done.
      rewrite andb_false_r. cbn [negb].
      assert (bool_decide (k ∈ default ∅ (roomClients (roomManager s) !! r)
                               ∪ {[clientId]})
              = bool_decide (k ∈ default ∅ (roomClients (roomManager s) !! r)))
        as ->; [|done].
      apply bool_decide_ext. rewrite elem_of_union, elem_of_singleton. tauto. }
  set (sH := with_redis (λ rd,
               {| subscriptions :=
                    <[channel_of r := HandleRedisUpdate r]> (subscriptions rd);
                  commands := commands rd
                    ++ [SUBSCRIBE (channel_of r) (HandleRedisUpdate r)] |}) sG).
  assert (redis sG = redis s) as HredisG by exact Hredis.
  exists (if subscribes r s then sH else sG),
    (Date_now_at (clock sB)), (Date_now_at (S (clock sB))),
    (Date_now_at (clock sD)), (Date_now_at (clock sE)).
  split.
  - unfold handleJoinRoom_until_subscribe; fold r.
    rewrite bool_decide_eq_false_2 by done.
    erewrite try_catch_prefix by reflexivity.
    erewrite try_catch_prefix by exact HB.
    erewrite try_catch_prefix by apply getDocumentState_run.
    rewrite Hdoc.
    erewrite try_catch_prefix by reflexivity.
    erewrite try_catch_prefix by reflexivity.
    erewrite try_catch_prefix.
    2: { apply (ws_send_open _ _ ws); [|done]. fields. by rewrite Hconns. }
    erewrite try_catch_prefix by reflexivity.
    erewrite try_catch_prefix.
    2: { apply (ws_send_open _ _ (after_send ws m1)); [|done].
         fields. apply lookup_insert_eq. }
    match goal with
    | |- try_catch _ _ ?x = _ => change x with sE
    end.
    rewrite (try_catch_prefix _ _ _ sE sF (Date_now_at (clock sE)))
      by reflexivity.
    rewrite (try_catch_prefix _ _ _ sF sG tt).
    2: { apply (broadcastToRoom_run sF r m3).
         destruct HokB as (_ & _ & _ & H4). exact H4. }
    rewrite (try_catch_prefix _ _ _ sG sG
               (elements (dom (subscriptions (redis sG))))) by reflexivity.
    rewrite HredisG. unfold subscribe_rejected, subscribes.
    case_bool_decide as Hin.
    + rewrite elem_of_elements in Hin.
      rewrite (bool_decide_eq_true_2 _ Hin). done.
    + rewrite elem_of_elements in Hin.
      rewrite (bool_decide_eq_false_2 _ Hin). cbn [negb andb].
      rewrite <- HredisG. reflexivity.
  - assert (documents (crdt sG) = ensure_document r (documents (crdt s)))
      as HdocsG.
    { unfold sG. cbn. by rewrite Hensure. }
    assert (metrics sG = metrics s) as HmetricsG.
    { change (metrics sG) with (metrics sB).
      pose proof (keeps_metrics_addClientToRoom (metrics s) clientId r
                    (instanceId s) s eq_refl) as Hm.
      unfold exec in Hm. by rewrite HB in Hm. }
    assert (clientConnections sG
            = <[clientId :=
                  {| readyState := OPEN;
                     sent := sent ws
                       ++ [m1; joined_message r clientId
                                 (Date_now_at (clock sD))] |}]>
                (delivered (is_recipient r None s) m3 (clientConnections s)))
      as HconnsG'.
    { rewrite HconnsG. f_equal.
      unfold ws2, after_send; cbn [readyState sent].
      rewrite Hopen. by rewrite <- !app_assoc. }
    destruct (subscribes r s) eqn:Hsub.
    + split_and!; try done. unfold sH. cbn. by rewrite Hredis.
    + by split_and!.
Qed.

(** X12.  A join subscribes before its wait and answers a rejected
    SUBSCRIBE after it.  Up to the wait ([await this.redis.subscribe]) a
    join for a room whose channel is not in the subscription table
    records the channel with the room's [handleRedisUpdate] and hands one
    SUBSCRIBE to the transport; a join for a recorded channel hands over
    nothing; either way the channel is recorded afterwards, the joining
    client is a member of the room, and its socket has been sent the
    document state, then the ACK, and nothing else.  The step ends with
    whether the transport rejects the SUBSCRIBE.  Resumed on a state [s2]
    (the one the events handled meanwhile have left): after a SUBSCRIBE
    that was accepted, or none, nothing more happens; after a rejected
    one the ERROR "Failed to subscribe to room updates" is sent on the
    client's socket if it is open in [s2], and nothing is sent if the
    connection is gone or not open by then.  The step after the wait
    changes neither registry nor documents nor bus: the client stays a
    member and the channel stays recorded, so that later joins do not
    subscribe again.  The two steps with nothing in between are
    [handleJoinRoom]. *)
Theorem first_join_subscribes_once s s2 clientId message ws :
  registry_ok s → roomId message ≠ EmptyString → clientId ≠ EmptyString →
  clientConnections s !! clientId = Some ws → readyState ws = OPEN →
  let r := roomId message in
  let doc := default Y_Doc_new (documents (crdt s) !! r) in
  let before := handleJoinRoom_until_subscribe clientId message in
  let after := handleJoinRoom_after_subscribe clientId in
  (∀ s0, handleJoinRoom clientId message s0
         = (rejected ← before; after rejected) s0)
  ∧ (let s1 := exec before s in
     (subscribes r s = true →
      redis s1
      = {| subscriptions :=
             <[channel_of r := HandleRedisUpdate r]> (subscriptions (redis s));
           commands := commands (redis s)
             ++ [SUBSCRIBE (channel_of r) (HandleRedisUpdate r)] |})
     ∧ (subscribes r s = false → redis s1 = redis s)
     ∧ subscribes r s1 = false
     ∧ (∃ t1 t2 t3,
          clientConnections s1 !! clientId
          = Some {| readyState := OPEN;
                    sent := sent ws
                      ++ [state_message r clientId doc t1 t2;
                          joined_message r clientId t3] |})
     ∧ (∃ members, roomClients (roomManager s1) !! r = Some members
                   ∧ clientId ∈ members)
     ∧ result before s = Normal (subscribe_rejected r s))
  ∧ after false s2 = (s2, Normal tt)
  ∧ (∀ ws2, clientConnections s2 !! clientId = Some ws2 →
            readyState ws2 = OPEN →
            after true s2
            = (with_clientConnections
                 (insert clientId
                    (after_send ws2
                       (error_message "Failed to subscribe to room updates"
                          (Date_now_at (clock s2)))))
                 (exec Date_now s2),
               Normal tt))
  ∧ (clientConnections s2 !! clientId = None
     ∨ (∃ ws2, clientConnections s2 !! clientId = Some ws2
               ∧ readyState ws2 ≠ OPEN) →
     after true s2 = (exec Date_now s2, Normal tt))
  ∧ (∀ rejected,
       let s3 := exec (after rejected) s2 in
       roomManager s3 = roomManager s2 ∧ crdt s3 = crdt s2
       ∧ redis s3 = redis s2 ∧ metrics s3 = metrics s2
       ∧ ∀ k, k ≠ clientId →
              clientConnections s3 !! k = clientConnections s2 !! k).
Proof.
  intros Hok Hroom Hc Hws Hopen r doc before after.
  assert (after true s2
          = sendError clientId "Failed to subscribe to room updates" s2)
    as Htrue.
  { unfold after, handleJoinRoom_after_subscribe, try_catch.
    by rewrite sendError_run. }
  split; [intros s0; apply handleJoinRoom_steps|].
  split; [|split; [done|split; [|split]]].
  - intros s1.
    destruct (handleJoinRoom_until_subscribe_run s clientId message ws
                Hok Hroom Hc Hws Hopen)
      as (s' & t1 & t2 & t3 & t4 & Hrun & _ & Hrm & _ & _ & Hredis & Hconns).
    unfold s1, before, exec, result. rewrite Hrun. cbn [fst snd].
    fold r in Hredis, Hrm.
    split_and!.
    + intros Hsub. by rewrite Hredis, Hsub.
    + intros Hsub. by rewrite Hredis, Hsub.
    + unfold subscribes in *. rewrite Hredis.
      case_bool_decide as Hin; cbn [negb].
      * by rewrite bool_decide_eq_true_2.
      * rewrite bool_decide_eq_true_2; [done|]. cbn [subscriptions].
        rewrite dom_insert_L. apply elem_of_union_l. by apply elem_of_singleton.
    + exists t1, t2, t3. rewrite Hconns. apply lookup_insert_eq.
    + rewrite Hrm.
      destruct (addClientToRoom_ok clientId r (instanceId s) s Hok)
        as (now & _ & _ & Hmembers & _).
      rewrite Hmembers. eexists. split; [apply lookup_insert_eq|].
      apply elem_of_union_r. by apply elem_of_singleton.
    + done.
  - intros ws2 Hws2 Hopen2. rewrite Htrue. by apply sendError_open.
  - intros Hgone. rewrite Htrue, sendError_run.
    destruct Hgone as [->|(ws2 & -> & Hnot)]; [done|].
    by rewrite bool_decide_eq_false_2 by done.
  - intros [|] s3.
    + unfold s3, exec. rewrite Htrue, sendError_run.
      destruct (clientConnections s2 !! clientId) as [ws2|];
        [case_bool_decide|]; cbn; split_and!; try done.
      intros k Hk. by rewrite lookup_insert_ne.
    + by split_and!.
Qed.

End Joining.

(** ** Completion *)

Section Completion.
Context `{P : Platform}.

Lemma result_bind {A B} (m : M A) (f : A → M B) s :
  result (m ≫= f) s
  = match result m s with
    | Normal a => result (f a) (exec m s)
    | Thrown => Thrown
    end.
Proof.
  unfold result, exec, mbind, M_bind. by destruct (m s) as [s' [a|]].
Qed.

Lemma never_throws_ret {A} (a : A) : never_throws (mret a).
Proof. intros s. by exists a. Qed.

Lemma never_throws_gets {A} (f : Server → A) : never_throws (gets f).
Proof. intros s. by exists (f s). Qed.

Lemma never_throws_modify f : never_throws (modify f).
Proof. intros s. by exists tt. Qed.

Lemma never_throws_Date_now : never_throws Date_now.
Proof. intros s. by exists (Date_now_at (clock s)). Qed.

Lemma never_throws_bind {A B} (m : M A) (f : A → M B) :
  never_throws m → (∀ a, never_throws (f a)) → never_throws (m ≫= f).
Proof.
  intros Hm Hf s. rewrite result_bind. destruct (Hm s) as [a ->]. apply Hf.
Qed.

Lemma never_throws_try_catch {A} (body handler : M A) :
  never_throws handler → never_throws (try_catch body handler).
Proof.
  intros Hh s. unfold result, try_catch.
  destruct (body s) as [s' [a|]]; [by exists a|]. apply Hh.
Qed.

Lemma never_throws_forEach {A} (f : A → M unit) l :
  (∀ a, never_throws (f a)) → never_throws (forEach f l).
Proof.
  intros Hf. induction l as [|x l IH]; simpl.
  - apply never_throws_ret.
  - apply never_throws_bind; [apply Hf|by intros _].
Qed.

Lemma never_throws_sendError clientId text :
  never_throws (sendError clientId text).
Proof.
  intros s. exists tt. unfold sendError, is_open, ws_send.
  cbv beta iota delta
    [mbind M_bind mret M_ret gets modify throw result Date_now snd fst].
  cbn [clientConnections].
  destruct (clientConnections s !! clientId) as [ws|] eqn:Hws; [|done].
  case_bool_decide as Hopen; [|done].
  cbn [clientConnections]. by rewrite Hws, Hopen.
Qed.

Lemma never_throws_handleJoinRoom clientId message :
  never_throws (handleJoinRoom clientId message).
Proof.
  unfold handleJoinRoom. case_bool_decide.
  - apply never_throws_sendError.
  - apply never_throws_try_catch, never_throws_sendError.
Qed.

Lemma never_throws_handleLeaveRoom clientId message :
  never_throws (handleLeaveRoom clientId message).
Proof.
  unfold handleLeaveRoom. case_bool_decide.
  - apply never_throws_ret.
  - apply never_throws_try_catch, never_throws_ret.
Qed.

Lemma never_throws_handleDocumentUpdate clientId message :
  never_throws (handleDocumentUpdate clientId message).
Proof.
  unfold handleDocumentUpdate.
  destruct (payload message); [|apply never_throws_ret].
  case_bool_decide.
  - apply never_throws_ret.
  - apply never_throws_try_catch, never_throws_ret.
Qed.

Lemma never_throws_handleRedisUpdate roomId redisMessage :
  never_throws (handleRedisUpdate roomId redisMessage).
Proof. apply never_throws_try_catch, never_throws_ret. Qed.

Lemma never_throws_handleMessage clientId data :
  never_throws (handleMessage clientId data).
Proof. apply never_throws_try_catch, never_throws_ret. Qed.

Lemma never_throws_handleDisconnect clientId :
  never_throws (handleDisconnect clientId).
Proof.
  unfold handleDisconnect, getClient.
  apply never_throws_bind; [apply never_throws_gets|intros client].
  apply never_throws_bind; [|intros _; apply never_throws_modify].
  destruct client; [|apply never_throws_ret].
  apply never_throws_bind; [apply never_throws_Date_now|intros t].
  apply never_throws_handleLeaveRoom.
Qed.

(** What may throw inside the handlers. *)
Lemma ws_send_connecting_throws clientId message ws s :
  clientConnections s !! clientId = Some ws → readyState ws = CONNECTING →
  result (ws_send clientId message) s = Thrown.
Proof.
  intros Hws Hstate. unfold ws_send, result, mbind, M_bind, gets.
  by rewrite Hws, Hstate.
Qed.

(** X13.  No event makes the instance throw: a connection, a frame of
    any content, a close, a socket error, a change of socket state, a
    message on the bus and a metrics tick are each handled to completion
    from every state, although the operations the handlers call can throw
    (sending on a socket that is still connecting, a merge the CRDT
    library rejects, a SUBSCRIBE or PUBLISH the transport rejects). *)
Theorem no_event_throws e s :
  result (dispatch e) s = Normal tt
  ∧ (∀ clientId message ws,
       clientConnections s !! clientId = Some ws →
       readyState ws = CONNECTING →
       result (ws_send clientId message) s = Thrown)
  ∧ (∀ channel message,
       redis_rejects (length (commands (redis s))) = true →
       result (publish channel message) s = Thrown).
Proof.
  split; [|split].
  - assert (never_throws (dispatch e)) as He.
    { destruct e; simpl.
      - unfold handleConnection, incrementMessagesProcessed.
        apply never_throws_bind; [apply never_throws_modify|intros _].
        apply never_throws_modify.
      - apply never_throws_handleMessage.
      - apply never_throws_handleDisconnect.
      - apply never_throws_modify.
      - apply never_throws_modify.
      - apply never_throws_bind; [apply never_throws_gets|intros ls].
        apply never_throws_forEach. intros [r].
        apply never_throws_handleRedisUpdate.
      - unfold updateMetrics.
        apply never_throws_bind; [apply never_throws_gets|intros n].
        apply never_throws_bind; [apply never_throws_gets|intros m].
        apply never_throws_modify. }
    destruct (He s) as [[] ->]. done.
  - intros clientId message ws. apply ws_send_connecting_throws.
  - intros channel message Hrej.
    unfold publish, redis_command, try_catch, result, mbind, M_bind, gets,
      modify, throw. cbn. by rewrite Hrej.
Qed.

End Completion.

(** ** Leaving and disconnecting *)

Section Leaving.
Context `{P : Platform}.

(** What [removeClientFromRoom] leaves alone, and that it does not read
    the clock. *)
Lemma removeClientFromRoom_keeps clientId s :
  let s1 := exec (removeClientFromRoom clientId) s in
  instanceId s1 = instanceId s ∧ redis s1 = redis s ∧ metrics s1 = metrics s
  ∧ clientConnections s1 = clientConnections s ∧ clock s1 = clock s
  ∧ clients (roomManager s1) = delete clientId (clients (roomManager s))
  ∧ roomManager (exec (removeClientFromRoom clientId) (exec Date_now s))
    = roomManager s1
  ∧ crdt (exec (removeClientFromRoom clientId) (exec Date_now s)) = crdt s1.
Proof.
  unfold exec; simpl. rewrite !removeClientFromRoom_run. simpl.
  destruct (clients (roomManager s) !! clientId) as [client|] eqn:Hclient.
  - unfold leave_room; simpl.
    destruct (rooms (roomManager s) !! client_roomId client);
      [case_bool_decide|]; by split_and!.
  - split_and!; try done. symmetry. by apply delete_id.
Qed.

Lemma handleLeaveRoom_run s clientId message :
  registry_ok s → roomId message ≠ EmptyString →
  let r := roomId message in
  let s1 := exec (removeClientFromRoom clientId) s in
  handleLeaveRoom clientId message s
  = (with_clientConnections
       (delivered (is_recipient r (Some clientId) s1)
          (left_message r clientId (Date_now_at (clock s1))))
       (exec Date_now s1),
     Normal tt).
Proof.
  intros Hok Hroom r s1.
  pose proof (registry_ok_removeClientFromRoom clientId s Hok)
    as (_ & _ & _ & H4).
  fold s1 in H4.
  unfold handleLeaveRoom. fold r.
  rewrite bool_decide_eq_false_2 by done.
  rewrite (try_catch_prefix _ _ _ s s1 tt).
  2: { unfold s1, exec. rewrite removeClientFromRoom_run.
       by destruct (clients (roomManager s) !! clientId). }
  rewrite (try_catch_prefix _ _ _ s1 (exec Date_now s1)
             (Date_now_at (clock s1))) by reflexivity.
  rewrite (try_catch_normal _ _ _ tt) by apply broadcastToRoom_result.
  by rewrite (broadcastToRoom_run (exec Date_now s1)) by exact H4.
Qed.

(** X14.  LEAVE_ROOM removes the client from the room its client record
    names, whatever room id the message carries, as long as it carries
    one: registry and documents end as [removeClientFromRoom] leaves them
    (the room and its document deleted when the client was the last
    member).  The recipients of the ACK "Client <id> left the room" are
    those of a broadcast ([is_recipient]) to the room the message names,
    taken after the removal: each is sent it once; the leaving client is
    sent nothing, and the bus is untouched.
    A LEAVE_ROOM without a room id changes nothing: the client stays a
    member. *)
Theorem leave_follows_the_record s clientId message :
  let r := roomId message in
  let s1 := exec (removeClientFromRoom clientId) s in
  let s' := exec (handleLeaveRoom clientId message) s in
  (r = EmptyString → handleLeaveRoom clientId message s = (s, Normal tt))
  ∧ (r ≠ EmptyString → registry_ok s →
     roomManager s' = roomManager s1 ∧ crdt s' = crdt s1
     ∧ redis s' = redis s
     ∧ (∃ t, ∀ k,
          clientConnections s' !! k
          = (λ w, if is_recipient r (Some clientId) s1 k
                  then after_send w (left_message r clientId t) else w)
              <$> clientConnections s !! k)
     ∧ clientConnections s' !! clientId = clientConnections s !! clientId
     ∧ clients (roomManager s') !! clientId = None).
Proof.
  intros r s1 s'. split.
  - intros Hr. unfold handleLeaveRoom. fold r.
    by rewrite bool_decide_eq_true_2.
  - intros Hr Hok.
    destruct (removeClientFromRoom_keeps clientId s)
      as (_ & Hredis & _ & Hconns & _ & Hclients & _).
    fold s1 in Hredis, Hconns, Hclients.
    unfold s', exec. rewrite (handleLeaveRoom_run s clientId message Hok Hr).
    fold r s1. cbn [fst]. split_and!; try done.
    + exists (Date_now_at (clock s1)). intros k.
      cbn. rewrite Hconns. apply delivered_lookup.
    + cbn. rewrite Hconns, delivered_lookup.
      assert (is_recipient r (Some clientId) s1 clientId = false) as ->.
      { unfold is_recipient. rewrite Hclients, lookup_delete_eq.
        rewrite (bool_decide_eq_false_2 (is_Some None)) by (by intros [? ?]).
        by rewrite andb_false_r. }
      by destruct (clientConnections s !! clientId).
    + cbn. by rewrite Hclients, lookup_delete_eq.
Qed.

(** X15.  When a connection closes at a reachable state, its socket and
    its client record are removed, and the client is taken out of the
    room its record names: registry and documents end as
    [removeClientFromRoom] leaves them, so the room and its document are
    deleted when the client was the last member.  The client is no longer
    in that room's member set, and the bus is untouched. *)
Theorem disconnect_cleans_up s clientId :
  reachable s →
  let s1 := exec (removeClientFromRoom clientId) s in
  let s' := exec (dispatch (Close clientId)) s in
  clientConnections s' !! clientId = None
  ∧ clients (roomManager s') !! clientId = None
  ∧ roomManager s' = roomManager s1 ∧ crdt s' = crdt s1
  ∧ redis s' = redis s
  ∧ (∀ client, clients (roomManager s) !! clientId = Some client →
       clientId ∉ default ∅ (roomClients (roomManager s')
                               !! client_roomId client)).
Proof.
  intros Hs s1 s'.
  pose proof (reachable_consistent s Hs) as [Hok [_ Hrec]].
  destruct (removeClientFromRoom_keeps clientId s)
    as (_ & Hredis & _ & Hconns & _ & Hclients & Hrm & Hcrdt).
  fold s1 in Hredis, Hconns, Hclients, Hrm, Hcrdt.
  assert (s' = with_clientConnections (delete clientId)
                 (exec (match clients (roomManager s) !! clientId with
                        | Some client =>
                            t ← Date_now;
                            handleLeaveRoom clientId
                              {| type := LEAVE_ROOM;
                                 roomId := client_roomId client;
                                 clientId := None; payload := None;
                                 timestamp := t |}
                        | None => mret tt
                        end) s)) as ->.
  { unfold s', dispatch, handleDisconnect, getClient.
    rewrite exec_bind. change (result (gets _) s)
      with (Normal (clients (roomManager s) !! clientId)).
    change (exec (gets _) s) with s. cbv beta iota.
    rewrite exec_bind.
    destruct (clients (roomManager s) !! clientId) as [client|]; [|done].
    rewrite result_bind. change (result Date_now s)
      with (Normal (Date_now_at (clock s))). cbv beta iota.
    by destruct (never_throws_handleLeaveRoom clientId
                   {| type := LEAVE_ROOM; roomId := client_roomId client;
                      clientId := None; payload := None;
                      timestamp := Date_now_at (clock s) |}
                   (exec Date_now s)) as [[] ->]. }
  destruct (clients (roomManager s) !! clientId) as [client|] eqn:Hclient.
  - destruct (Hrec clientId client Hclient) as [Hroom _].
    rewrite exec_bind. change (result Date_now s)
      with (Normal (Date_now_at (clock s))). cbv beta iota.
    assert (registry_ok (exec Date_now s)) as Hok' by exact Hok.
    unfold exec at 1 3 5 7 9 11.
    rewrite (handleLeaveRoom_run (exec Date_now s) clientId
               {| type := LEAVE_ROOM; roomId := client_roomId client;
                  clientId := None; payload := None;
                  timestamp := Date_now_at (clock s) |} Hok' Hroom).
    cbn [fst roomId].
    assert (redis (exec (removeClientFromRoom clientId) (exec Date_now s))
            = redis s) as Hredis2.
    { by destruct (removeClientFromRoom_keeps clientId (exec Date_now s))
        as (_ & -> & _). }
    remember (exec (removeClientFromRoom clientId) (exec Date_now s)) as s2
      eqn:Hs2.
    fields. rewrite Hrm, Hcrdt, Hredis2.
    split_and!; try done.
    + apply lookup_delete_eq.
    + by rewrite Hclients, lookup_delete_eq.
    + intros client' [= <-].
      unfold s1, exec. rewrite removeClientFromRoom_run, Hclient.
      unfold leave_room. cbn.
      destruct (rooms (roomManager s) !! client_roomId client).
      * case_bool_decide.
        -- cbn. rewrite lookup_delete_eq. cbn. apply not_elem_of_empty.
        -- cbn. rewrite lookup_alter_eq.
           destruct (roomClients (roomManager s) !! client_roomId client);
             cbn; [|apply not_elem_of_empty].
           rewrite elem_of_difference, elem_of_singleton. tauto.
      * cbn. rewrite lookup_alter_eq.
        destruct (roomClients (roomManager s) !! client_roomId client);
          cbn; [|apply not_elem_of_empty].
        rewrite elem_of_difference, elem_of_singleton. tauto.
  - assert (s1 = s) as Hs1.
    { unfold s1, exec. by rewrite removeClientFromRoom_run, Hclient. }
    rewrite Hs1. cbn. split_and!; try done.
    apply lookup_delete_eq.
Qed.

End Leaving.

(** ** Frames *)

Section Frames.
Context `{P : Platform}.

Lemma never_throws_route clientId message : never_throws (route clientId message).
Proof.
  unfold route. destruct (type message);
    auto using never_throws_ret, never_throws_handleJoinRoom,
      never_throws_handleLeaveRoom, never_throws_handleDocumentUpdate.
Qed.

Lemma exec_bind_run {A B} (m : M A) (f : A → M B) s s' a :
  m s = (s', Normal a) → exec (m ≫= f) s = exec (f a) s'.
Proof. intros Hm. unfold exec. by rewrite (bind_run _ _ _ _ _ Hm). Qed.

(** A frame that decodes: the handler routes the message and keeps the
    books around it. *)
Lemma handleMessage_routed s clientId data ws s2 message :
  clientConnections s !! clientId = Some ws →
  decodeFrame clientId data (exec Date_now s) = (s2, Normal (Some message)) →
  let s3 := exec (route clientId message) (exec incrementMessagesProcessed s2) in
  exec (handleMessage clientId data) s
  = exec (recordUpdateLatency (Date_now_at (clock s3) - Date_now_at (clock s)))
      (exec Date_now s3).
Proof.
  intros Hws Hdecode s3. unfold handleMessage. rewrite exec_caught.
  rewrite (exec_bind_run _ _ s s (Some ws)) by (by rewrite <- Hws).
  rewrite (exec_bind_run _ _ s (exec Date_now s) (Date_now_at (clock s)))
    by done.
  rewrite (exec_bind_run _ _ _ _ _ Hdecode).
  rewrite (exec_bind_run _ _ s2 (exec incrementMessagesProcessed s2) tt)
    by done.
  change (match type message with
          | JOIN_ROOM => handleJoinRoom clientId message
          | LEAVE_ROOM => handleLeaveRoom clientId message
          | DOCUMENT_UPDATE => handleDocumentUpdate clientId message
          | _ => mret tt
          end) with (route clientId message).
  rewrite (exec_bind_run _ _ _ s3 tt).
  2: { unfold s3, exec.
       destruct (never_throws_route clientId message
                   (exec incrementMessagesProcessed s2)) as [[] Hres].
       unfold result, exec in Hres.
       destruct (route clientId message _) as [sx res]. simpl in *.
       by rewrite Hres. }
  by rewrite (exec_bind_run _ _ s3 (exec Date_now s3) (Date_now_at (clock s3)))
    by done.
Qed.

(** [handleMessage] is [handleParsed] at what the frame parses to. *)
Lemma handleMessage_text clientId str s :
  handleMessage clientId (DataString str) s
  = handleParsed clientId (parsed_of (JSON_parse_IMessage str)) s.
Proof.
  unfold handleMessage, handleParsed, decodeFrame, route, try_catch, mbind,
    M_bind, gets, mret, M_ret.
  destruct (clientConnections s !! clientId); [|done].
  by destruct (JSON_parse_IMessage str).
Qed.

Lemma handleMessage_json_buffer clientId b message s :
  decodes_to (DataBuffer b) message →
  handleMessage clientId (DataBuffer b) s
  = handleParsed clientId (ParsedMessage message) s.
Proof.
  intros [Hlooks Hparse].
  unfold handleMessage, handleParsed, decodeFrame, route, try_catch, mbind,
    M_bind, gets, mret, M_ret.
  destruct (clientConnections s !! clientId); [|done].
  by rewrite Hlooks, Hparse.
Qed.

Lemma handleParsed_message s clientId ws message :
  clientConnections s !! clientId = Some ws →
  handleParsed clientId (ParsedMessage message) s
  = (route clientId message;; recordLatencySince (Date_now_at (clock s)))
      (exec incrementMessagesProcessed (exec Date_now s)).
Proof.
  intros Hws. unfold handleParsed.
  rewrite (try_catch_prefix _ _ _ s s (Some ws)) by (by rewrite <- Hws).
  rewrite (try_catch_prefix _ _ _ s (exec Date_now s) (Date_now_at (clock s)))
    by done.
  rewrite (try_catch_prefix _ _ _ _ (exec incrementMessagesProcessed
                                       (exec Date_now s)) tt) by done.
  apply (try_catch_normal _ _ _ tt).
  set (s0 := exec incrementMessagesProcessed (exec Date_now s)).
  rewrite result_bind.
  destruct (never_throws_route clientId message s0) as [[] ->].
  reflexivity.
Qed.


(** X17.  A well-formed binary frame is applied as the document update
    it encodes: the room id is the text of the frame's room field and the
    update is its trailing bytes, provided base64 decoding returns the
    bytes that were encoded.  The documents end as [updated_documents]
    describes for those bytes, and the sender is sent nothing (no ERROR,
    no echo).  A well-formed frame whose room field is empty is decoded
    and then dropped without any answer: registry, documents, bus and
    sockets are unchanged. *)
Theorem binary_frame_applies_its_bytes s clientId data ws :
  frame_ok data →
  clientConnections s !! clientId = Some ws →
  let r := (frame_fields data).1.1 in
  let bytes := (frame_fields data).2 in
  let s' := exec (handleMessage clientId (DataBuffer data)) s in
  (r ≠ EmptyString →
   Buffer_from_base64 (Buffer_toString_base64 bytes) = bytes →
   documents (crdt s') = updated_documents r bytes (documents (crdt s))
   ∧ (clientId ≠ EmptyString → registry_ok s →
      clientConnections s' !! clientId = Some ws))
  ∧ (r = EmptyString →
     roomManager s' = roomManager s ∧ crdt s' = crdt s ∧ redis s' = redis s
     ∧ clientConnections s' = clientConnections s).
Proof.
  intros Hframe Hws r bytes s'.
  assert (decodeFrame clientId (DataBuffer data) (exec Date_now s)
          = (exec Date_now (exec Date_now s),
             Normal (Some (frame_message data (Some clientId)
                             (Date_now_at (S (clock s))))))) as Hdecode.
  { unfold decodeFrame. destruct Hframe as [Hhead Hlen].
    destruct data as [|b rest]; [done|]. injection Hhead as ->.
    rewrite binary_frame_not_json.
    by rewrite decodeBinaryDocumentUpdate_ok by done. }
  pose proof (handleMessage_routed s clientId (DataBuffer data) ws _ _
                Hws Hdecode) as Hrun.
  cbv zeta in Hrun. fold s' in Hrun.
  set (msg := frame_message data (Some clientId) (Date_now_at (S (clock s))))
    in *.
  set (s0 := exec incrementMessagesProcessed (exec Date_now (exec Date_now s)))
    in *.
  change (route clientId msg) with (handleDocumentUpdate clientId msg) in Hrun.
  split.
  - intros Hr Hround.
    assert (payload msg
            = Some (DocumentUpdatePayload
                      (Some (Buffer_toString_base64 bytes))
                      (Some clientId) (frame_fields data).1.2)) as Hpayload
      by done.
    split.
    + rewrite Hrun. cbn [crdt exec fst recordUpdateLatency modify with_metrics
        Date_now].
      rewrite (handleDocumentUpdate_documents s0 clientId msg _ _ _ Hr Hpayload).
      by rewrite Hround.
    + intros Hc Hok. rewrite Hrun.
      cbn [clientConnections exec fst recordUpdateLatency modify with_metrics
        Date_now].
      assert (registry_ok s0) as Hok0 by exact Hok.
      pose proof (local_update_sender_unchanged s0 clientId msg _ _ _
                    Hok0 Hr Hpayload Hc) as Hsame.
      by rewrite Hsame.
  - intros Hr.
    assert (handleDocumentUpdate clientId msg s0 = (s0, Normal tt)) as Hdrop.
    { unfold handleDocumentUpdate. cbn [payload msg frame_message roomId].
      fold r. by rewrite bool_decide_eq_true_2. }
    assert (exec (handleDocumentUpdate clientId msg) s0 = s0) as Hdrop'
      by (unfold exec; by rewrite Hdrop).
    rewrite Hrun, Hdrop'. by cbn.
Qed.

End Frames.

(** ** Logging *)

(** X18.  The logger prints a message exactly when its level is at least
    as severe as the logger's: errors are always printed, a logger at
    DEBUG prints everything, and a logger left at the default level
    suppresses DEBUG messages and nothing else. *)
Theorem log_threshold this_level level :
  (Logger.shouldLog this_level level = true
   ↔ Logger.no_more_severe this_level level)
  ∧ Logger.shouldLog this_level Logger.ERROR = true
  ∧ Logger.shouldLog Logger.DEBUG level = true
  ∧ (Logger.shouldLog Logger.default_level level = false
     ↔ level = Logger.DEBUG).
Proof.
  split_and!.
  - destruct this_level, level; vm_compute; intuition discriminate.
  - by destruct this_level.
  - by destruct level.
  - destruct level; vm_compute; intuition discriminate.
Qed.

(** ** Client records and connections *)

Section Connections.
Context `{P : Platform}.

Lemma holding_insert_conn X k ws :
  preserves (holding X) (modify (with_clientConnections (insert k ws))).
Proof.
  intros s [Hc HX]. split.
  - intros c Hrec. cbn. apply lookup_insert_is_Some'. right. by apply Hc.
  - intros c Hin. cbn. apply lookup_insert_is_Some'. right. by apply HX.
Qed.

Lemma holding_insert_client X c client :
  c ∈ X → preserves (holding X) (modify (with_clients (insert c client))).
Proof.
  intros Hin s [Hc HX]. split; [|exact HX].
  intros k. cbn. rewrite lookup_insert_is_Some'.
  intros [<-|Hk]; [by apply HX|by apply Hc].
Qed.

Lemma holding_delete_client X c :
  preserves (holding X) (modify (with_clients (delete c))).
Proof.
  intros s [Hc HX]. split; [|exact HX].
  intros k. cbn. rewrite lookup_delete_is_Some. intros [_ Hk]. by apply Hc.
Qed.

Ltac holding_auto :=
  repeat first
    [ preserves_step
    | apply holding_insert_conn
    | apply holding_delete_client
    | apply holding_insert_client; assumption
    | preserves_leaf
    | solve [eauto with preserves] ].

Lemma holding_ws_send X clientId message :
  preserves (holding X) (ws_send clientId message).
Proof. unfold ws_send. holding_auto. Qed.

Lemma holding_sendError X clientId text :
  preserves (holding X) (sendError clientId text).
Proof.
  unfold sendError, is_open. pose proof (holding_ws_send X). holding_auto.
Qed.

Lemma holding_broadcastToRoom X roomId message exclude :
  preserves (holding X) (broadcastToRoom roomId message exclude).
Proof.
  unfold broadcastToRoom, getClientsInRoom, is_open.
  pose proof (holding_ws_send X). holding_auto.
Qed.

Lemma holding_addClientToRoom X clientId roomId iid :
  clientId ∈ X → preserves (holding X) (addClientToRoom clientId roomId iid).
Proof.
  intros Hin.
  unfold addClientToRoom, getOrCreateRoom, getOrCreateDocument. holding_auto.
Qed.

Lemma holding_removeClientFromRoom X clientId :
  preserves (holding X) (removeClientFromRoom clientId).
Proof.
  unfold removeClientFromRoom, deleteRoom, deleteDocument, getDocument.
  holding_auto.
Qed.

Lemma holding_handleJoinRoom X clientId message :
  clientId ∈ X → preserves (holding X) (handleJoinRoom clientId message).
Proof.
  intros Hin.
  unfold handleJoinRoom, getDocumentState, getOrCreateDocument,
    subscribedChannels, subscribe, redis_command.
  pose proof (holding_ws_send X).
  pose proof (holding_sendError X).
  pose proof (holding_broadcastToRoom X).
  pose proof (holding_addClientToRoom X clientId (roomId message)).
  holding_auto.
Qed.

Lemma holding_handleLeaveRoom X clientId message :
  preserves (holding X) (handleLeaveRoom clientId message).
Proof.
  unfold handleLeaveRoom.
  pose proof (holding_removeClientFromRoom X).
  pose proof (holding_broadcastToRoom X). holding_auto.
Qed.

Lemma holding_handleDocumentUpdate X clientId message :
  preserves (holding X) (handleDocumentUpdate clientId message).
Proof.
  unfold handleDocumentUpdate, afterLocalApply, applyJsonUpdate, applyUpdate,
    recordUpdate, incrementUpdates, publish, redis_command,
    getOrCreateDocument.
  pose proof (holding_broadcastToRoom X). holding_auto.
Qed.

Lemma holding_handleRedisUpdate X roomId redisMessage :
  preserves (holding X) (handleRedisUpdate roomId redisMessage).
Proof.
  unfold handleRedisUpdate, applyJsonUpdate, applyUpdate, recordUpdate,
    incrementUpdates, getOrCreateDocument.
  pose proof (holding_broadcastToRoom X). holding_auto.
Qed.

Lemma holding_handleMessage clientId data :
  preserves (holding ∅) (handleMessage clientId data).
Proof.
  intros s Hs. unfold handleMessage. rewrite exec_caught.
  rewrite (exec_bind_run _ _ s s (clientConnections s !! clientId)) by done.
  destruct (clientConnections s !! clientId) as [ws|] eqn:Hws; [|done].
  assert (holding {[clientId]} s) as Hs'.
  { destruct Hs as [Hc _]. split; [done|].
    intros c ->%elem_of_singleton. by rewrite Hws. }
  assert (∀ s', holding {[clientId]} s' → holding ∅ s') as Hweaken.
  { intros s' [Hc _]. split; [done|]. intros c Hin. by apply not_elem_of_empty in Hin. }
  apply Hweaken. revert s Hws Hs Hs'.
  match goal with
  | |- ∀ s, _ → _ → _ → holding _ (exec ?m s) =>
      assert (preserves (holding {[clientId]}) m) as Hm
  end.
  { unfold decodeFrame, decodeBinaryDocumentUpdate, incrementMessagesProcessed,
      recordUpdateLatency.
    pose proof (holding_sendError {[clientId]}).
    pose proof (holding_handleJoinRoom {[clientId]} clientId).
    pose proof (holding_handleLeaveRoom {[clientId]}).
    pose proof (holding_handleDocumentUpdate {[clientId]}).
    assert (clientId ∈ ({[clientId]} : gset string)) by by apply elem_of_singleton.
    holding_auto. }
  intros s _ _ Hs'. by apply Hm.
Qed.

Lemma holding_handleDisconnect s clientId :
  consistent s → holding ∅ s → holding ∅ (exec (handleDisconnect clientId) s).
Proof.
  intros [Hok [_ Hrec]] [Hc _].
  assert (∀ s1, clients (roomManager s1) !! clientId = None →
            clients_connected s1 →
            holding ∅ (with_clientConnections (delete clientId) s1)) as Hdel.
  { intros s1 Hnone Hc1. split.
    - intros c Hrecord.
      change (is_Some (clients (roomManager s1) !! c)) in Hrecord.
      cbn. rewrite lookup_delete_is_Some. split.
      + intros Heq. rewrite <- Heq, Hnone in Hrecord. by destruct Hrecord.
      + by apply Hc1.
    - intros c Hin. by apply not_elem_of_empty in Hin. }
  unfold handleDisconnect, getClient.
  rewrite (exec_bind_run _ _ s s (clients (roomManager s) !! clientId)) by done.
  destruct (clients (roomManager s) !! clientId) as [client|] eqn:Hclient.
  - destruct (Hrec clientId client Hclient) as [Hroom _].
    assert (registry_ok (exec Date_now s)) as Hok' by exact Hok.
    pose proof (handleLeaveRoom_run (exec Date_now s) clientId
                  {| type := LEAVE_ROOM; roomId := client_roomId client;
                     clientId := None; payload := None;
                     timestamp := Date_now_at (clock s) |} Hok' Hroom) as Hrun.
    cbv zeta in Hrun. cbn [roomId] in Hrun.
    erewrite exec_bind_run.
    2: { erewrite bind_run by reflexivity. exact Hrun. }
    destruct (removeClientFromRoom_keeps clientId (exec Date_now s))
      as (_ & _ & _ & Hconns & _ & Hclients & _).
    change (clients (roomManager (exec Date_now s)))
      with (clients (roomManager s)) in Hclients.
    change (clientConnections (exec Date_now s))
      with (clientConnections s) in Hconns.
    remember (exec (removeClientFromRoom clientId) (exec Date_now s)) as s2
      eqn:Hs2.
    apply Hdel.
    + fields. by rewrite Hclients, lookup_delete_eq.
    + intros c. fields. rewrite Hclients, lookup_delete_is_Some.
      intros [_ Hrecord]. rewrite delivered_lookup, Hconns.
      rewrite fmap_is_Some. by apply Hc.
  - erewrite exec_bind_run by reflexivity. apply Hdel; [done|done].
Qed.

Lemma holding_dispatch s e :
  consistent s → holding ∅ s → holding ∅ (exec (dispatch e) s).
Proof.
  intros Hcons Hs. destruct e; simpl.
  - revert s Hcons Hs.
    match goal with
    | |- ∀ s, _ → _ → holding _ (exec ?m s) =>
        assert (preserves (holding ∅) m) as Hm
    end.
    { unfold handleConnection, incrementMessagesProcessed. holding_auto. }
    intros s _ Hs. by apply Hm.
  - by apply holding_handleMessage.
  - by apply holding_handleDisconnect.
  - exact Hs.
  - destruct Hs as [Hc HX]. split.
    + intros c Hrec. cbn. rewrite lookup_alter_is_Some. by apply Hc.
    + intros c Hin. by apply not_elem_of_empty in Hin.
  - revert s Hcons Hs.
    match goal with
    | |- ∀ s, _ → _ → holding _ (exec ?m s) =>
        assert (preserves (holding ∅) m) as Hm
    end.
    { pose proof (holding_handleRedisUpdate ∅). holding_auto. }
    intros s _ Hs. by apply Hm.
  - exact Hs.
Qed.

Lemma reachable_clients_connected s : reachable s → clients_connected s.
Proof.
  intros Hs. cut (holding ∅ s); [by intros [? _]|].
  induction Hs as [iid|s e Hs IH].
  - split.
    + intros c [x Hx]. cbn in Hx. by rewrite lookup_empty in Hx.
    + intros c Hin. by apply not_elem_of_empty in Hin.
  - apply holding_dispatch; [by apply reachable_consistent|done].
Qed.


End Connections.

(** ** The room a member left through another room *)

Section StaleMember.
Context `{P : Platform}.

(** C3 (what the code does).  [removeClientFromRoom] takes a client out
    of the room its record names and of no other.  A client that is the
    only member of room [r] while its record names another room (the
    state two joins on one connection leave) is removed without [r] being
    touched: the room, its member set with the departed client and its
    document all stay, and the next client to join [r] is added to that
    room and is sent the old document, not a new one. *)
Theorem stale_member_keeps_room s c r client room doc :
  clients (roomManager s) !! c = Some client →
  client_roomId client ≠ r →
  roomClients (roomManager s) !! r = Some {[c]} →
  rooms (roomManager s) !! r = Some room →
  documents (crdt s) !! r = Some doc →
  let s1 := exec (removeClientFromRoom c) s in
  clients (roomManager s1) !! c = None
  ∧ rooms (roomManager s1) !! r = Some room
  ∧ roomClients (roomManager s1) !! r = Some {[c]}
  ∧ documents (crdt s1) !! r = Some doc
  ∧ ∀ c' iid,
      let s2 := exec (addClientToRoom c' r iid) s1 in
      rooms (roomManager s2) !! r
      = Some (set_clientCount (size ({[c]} ∪ {[c']} : gset string)) room)
      ∧ roomClients (roomManager s2) !! r = Some ({[c]} ∪ {[c']})
      ∧ documents (crdt s2) !! r = Some doc
      ∧ result (getDocumentState r) s2 = Normal (Y_encodeStateAsUpdate doc).
Proof.
  intros Hc Hr Hm Hroom Hdoc s1.
  assert (s1 = leave_room c (client_roomId client) s) as Hs1.
  { subst s1. unfold exec. by rewrite removeClientFromRoom_run, Hc. }
  assert (clients (roomManager s1) !! c = None
          ∧ rooms (roomManager s1) !! r = Some room
          ∧ roomClients (roomManager s1) !! r = Some {[c]}
          ∧ documents (crdt s1) !! r = Some doc) as (Hc1 & Hroom1 & Hm1 & Hdoc1).
  { rewrite Hs1. unfold leave_room. fields.
    destruct (rooms (roomManager s) !! client_roomId client);
      [case_bool_decide|]; fields; unfold drop_room; fields;
      rewrite ?lookup_delete_eq, ?lookup_delete_ne, ?lookup_alter_ne by done;
      by split_and!. }
  split_and!; try done.
  intros c' iid s2.
  assert (s2 = set_members r ({[c]} ∪ {[c']})
                 (with_clients (insert c'
                    (new_client c' r iid (Date_now_at (clock s1))))
                    (exec Date_now s1))) as Hs2.
  { subst s2. unfold exec at 1. rewrite addClientToRoom_run.
    unfold exec at 1 2 3 4. rewrite getOrCreateRoom_run, Hroom1. fields.
    by rewrite Hm1. }
  assert (documents (crdt s2) !! r = Some doc) as Hdoc2
    by (rewrite Hs2; fields; exact Hdoc1).
  split_and!; try done.
  - rewrite Hs2. unfold set_members. fields.
    by rewrite lookup_alter_eq, Hroom1.
  - rewrite Hs2. unfold set_members. fields. by rewrite lookup_insert_eq.
  - unfold result. rewrite getDocumentState_run. by rewrite Hdoc2.
Qed.

End StaleMember.

(** * The further properties on concrete inputs *)

Section FurtherConcrete.
Import TestPlatform Scenario.

Lemma joined_reachable : reachable joined.
Proof. apply reachable_run. constructor. Qed.

Lemma joined_and_connected_reachable : reachable joined_and_connected.
Proof. apply reachable_run. constructor. Qed.

Lemma two_members_reachable : reachable two_members.
Proof. apply reachable_run. constructor. Qed.


Lemma client_record_names_its_room_witness :
  ∃ client,
    clients (roomManager joined) !! "c1" = Some client
    ∧ client_id client = "c1"%string
    ∧ is_Some (documents (crdt joined) !! client_roomId client).
Proof.
  assert (is_Some (clients (roomManager joined) !! "c1")) as [client Hclient].
  { vm_compute. eexists. reflexivity. }
  destruct (client_record_names_its_room (P:=platform) joined "c1" client
              joined_reachable Hclient) as (Hid & _ & _ & Hdoc & _).
  exists client.
  exact (conj Hclient (conj Hid Hdoc)).
Defined.

Lemma broadcast_reaches_exactly_the_others_witness :
  let message := message_of ACK "r1" None in
  let s' := exec (broadcastToRoom "r1" message (Some "c1"%string)) two_members in
  clientConnections s' !! "c1"
  = (λ ws, if is_recipient "r1" (Some "c1"%string) two_members "c1"
           then after_send ws message else ws)
      <$> clientConnections two_members !! "c1"
  ∧ is_recipient "r1" (Some "c1"%string) two_members "c1" = false
  ∧ is_recipient "r1" (Some "c1"%string) two_members "c2" = true.
Proof.
  intros message s'.
  pose proof (broadcast_reaches_exactly_the_others (P:=platform) two_members
                "r1" message (Some "c1"%string)
                (reachable_registry_ok _ two_members_reachable))
    as [_ Hlookup].
  split; [exact (Hlookup "c1"%string)|].
  split; vm_compute; reflexivity.
Defined.

Lemma local_update_published_once_witness :
  let s' := exec (handleDocumentUpdate "c1" (update_message "AQID")) joined in
  (∃ t, redis s'
        = {| subscriptions := subscriptions (redis joined);
             commands := commands (redis joined)
               ++ [PUBLISH (channel_of "r1")
                     (sync_message (instanceId joined) "c1" "AQID" t)] |})
  ∧ redis (exec (handleDocumentUpdate "c1" (update_message "AQID"))
             (initial (P:=FaultyPlatform.platform) "i1"))
    = redis (initial (P:=FaultyPlatform.platform) "i1").
Proof.
  intros s'.
  assert (roomId (update_message "AQID") ≠ EmptyString) as Hroom
    by discriminate.
  pose proof (local_update_published_once (P:=platform) joined "c1"
                (update_message "AQID") "AQID" None 0 Hroom eq_refl)
    as [Happlied _].
  pose proof (local_update_published_once (P:=FaultyPlatform.platform)
                (initial "i1") "c1" (update_message "AQID") "AQID" None 0
                Hroom eq_refl) as [_ Hrejected].
  split.
  - apply Happlied.
    + right. vm_compute. discriminate.
    + vm_compute. reflexivity.
  - apply Hrejected. right. vm_compute. reflexivity.
Defined.

Lemma local_update_fans_out_witness :
  let message := update_message "AQID" in
  let s3 := exec (handleDocumentUpdate_after_publish "c1" message)
              joined_meanwhile in
  result (handleDocumentUpdate_until_publish "c1" message) joined_and_connected
  = Normal true
  ∧ clientConnections s3
    = delivered (is_recipient "r1" (Some "c1"%string) joined_meanwhile)
        (update_broadcast "r1" "c1" "AQID"
           (Date_now_at (clock joined_meanwhile))
           (Date_now_at (S (clock joined_meanwhile))))
        (clientConnections joined_meanwhile)
  ∧ is_recipient "r1" (Some "c1"%string) joined_and_connected "c2" = false
  ∧ is_recipient "r1" (Some "c1"%string) joined_meanwhile "c2" = true.
Proof.
  intros message s3.
  assert (roomId message ≠ EmptyString) as Hroom
    by (vm_compute; intros Heq; inversion Heq).
  assert (registry_ok joined_meanwhile) as Hok.
  { apply registry_ok_dispatch,
      registry_ok_handleDocumentUpdate_until_publish.
    exact (reachable_registry_ok _ joined_and_connected_reachable). }
  pose proof (local_update_fans_out (P:=platform) joined_and_connected
                joined_meanwhile "c1" message "AQID" None 0 Hroom eq_refl Hok)
    as (_ & _ & Happlied & _ & Hsent & _).
  assert (carries_update (Buffer_from_base64 "AQID")) as Hcarries.
  { right. vm_compute. intros Heq. inversion Heq. }
  assert (update_throws "r1" (Buffer_from_base64 "AQID") joined_and_connected
          = false) as Hthrows by (vm_compute; reflexivity).
  assert (is_recipient "r1" (Some "c1"%string) joined_and_connected "c2"
          = false) as Hbefore by (vm_compute; reflexivity).
  assert (is_recipient "r1" (Some "c1"%string) joined_meanwhile "c2" = true)
    as Hthen by (vm_compute; reflexivity).
  exact (conj (Happlied Hcarries Hthrows) (conj Hsent (conj Hbefore Hthen))).
Defined.

Lemma local_update_counted_once_witness :
  let s' := exec (handleDocumentUpdate "c1" (update_message "AQID")) joined in
  updatesPerSecondCounter (metrics s')
  = S (updatesPerSecondCounter (metrics joined))
  ∧ updatesCount <$> rooms (roomManager s') !! "r1" = Some 1%nat.
Proof.
  intros s'.
  assert (roomId (update_message "AQID") ≠ EmptyString) as Hroom
    by discriminate.
  pose proof (local_update_counted_once (P:=platform) joined "c1"
                (update_message "AQID") "AQID" None 0 Hroom eq_refl)
    as [Happlied _].
  destruct Happlied as (_ & _ & _ & _ & Hcounter).
  - right. vm_compute. discriminate.
  - vm_compute. reflexivity.
  - split; [exact Hcounter|]. vm_compute. reflexivity.
Defined.

Lemma remote_update_matches_local_witness :
  let local := exec (handleDocumentUpdate "c1" (update_message "AQID")) joined in
  let remote := exec (handleRedisUpdate "r1" "{S:i2:c9:AQID}") joined in
  documents (crdt remote) = documents (crdt local)
  ∧ documents (crdt remote)
    = updated_documents "r1" (Buffer_from_base64 "AQID")
        (documents (crdt joined)).
Proof.
  intros local remote.
  assert (roomId (update_message "AQID") ≠ EmptyString) as Hroom
    by discriminate.
  assert ("i2"%string ≠ instanceId joined) as Hforeign.
  { vm_compute. discriminate. }
  exact (remote_update_matches_local (P:=platform) joined "c1"
           (update_message "AQID") "AQID" None 0 "{S:i2:c9:AQID}"
           {| sync_type := SYNC_UPDATE; sync_clientId := "c9";
              sync_update := "AQID"; sync_timestamp := 0;
              sync_instanceId := "i2" |}
           Hroom eq_refl eq_refl Hforeign eq_refl).
Defined.

Lemma remote_update_fans_out_witness :
  let s' := exec (handleRedisUpdate "r1" "{S:i2:c9:AQID}") two_members in
  (∃ t, clientConnections s'
        = delivered (is_recipient "r1" None two_members)
            (update_broadcast "r1" "c9" "AQID" 0 t)
            (clientConnections two_members))
  ∧ is_recipient "r1" None two_members "c1" = true
  ∧ is_recipient "r1" None two_members "c2" = true.
Proof.
  intros s'.
  pose proof (remote_update_fans_out (P:=platform) two_members "r1"
                "{S:i2:c9:AQID}"
                (reachable_registry_ok _ two_members_reachable))
    as [Hparsed _].
  assert ("i2"%string ≠ instanceId two_members) as Hforeign.
  { vm_compute. discriminate. }
  pose proof (Hparsed
                {| sync_type := SYNC_UPDATE; sync_clientId := "c9";
                   sync_update := "AQID"; sync_timestamp := 0;
                   sync_instanceId := "i2" |} eq_refl Hforeign)
    as [Happlied _].
  destruct Happlied as [Hconns _].
  - vm_compute. reflexivity.
  - split; [exact Hconns|]. split; vm_compute; reflexivity.
Defined.

Lemma one_subscribe_per_channel_witness :
  let f := exec (handleJoinRoom "c1" (message_of JOIN_ROOM "r1" None))
             (exec (dispatch (Connection "c1"))
                (initial (P:=FaultyPlatform.platform) "i1")) in
  (∀ held, sublist held (subscribe_commands (channel_of "r1") joined) →
           (length held ≤ 1)%nat
           ∧ ∀ cb, cb ∈ held →
               ∃ r, channel_of "r1" = channel_of r ∧ cb = HandleRedisUpdate r)
  ∧ subscribe_commands (channel_of "r1") joined = [HandleRedisUpdate "r1"]
  ∧ subscribe_commands (channel_of "r2") joined = []
  ∧ subscribe_commands (channel_of "r1") f = [HandleRedisUpdate "r1"].
Proof.
  intros f.
  pose proof (one_subscribe_per_channel (P:=platform) joined (channel_of "r1")
                joined_reachable) as [_ Hheld].
  split; [exact Hheld|].
  split; [vm_compute; reflexivity|].
  split; vm_compute; reflexivity.
Defined.

Lemma join_notifies_the_others_witness :
  let message := message_of JOIN_ROOM "r1" None in
  let s' := exec (handleJoinRoom "c2" message) joined_and_connected in
  ((∃ t, ∀ k, k ≠ "c2"%string →
      clientConnections s' !! k
      = (λ w, if is_recipient "r1" None joined_and_connected k
              then after_send w (others_joined_message "r1" "c2" t) else w)
          <$> clientConnections joined_and_connected !! k)
   ∧ documents (crdt s')
     = ensure_document "r1" (documents (crdt joined_and_connected))
   ∧ (∀ r' doc, documents (crdt joined_and_connected) !! r' = Some doc →
                documents (crdt s') !! r' = Some doc)
   ∧ metrics s' = metrics joined_and_connected)
  ∧ is_recipient "r1" None joined_and_connected "c1" = true.
Proof.
  intros message s'.
  assert (roomId message ≠ EmptyString) as Hroom by discriminate.
  assert ("c2"%string ≠ EmptyString) as Hc by discriminate.
  assert (clientConnections joined_and_connected !! "c2"
          = Some {| readyState := OPEN; sent := [] |}) as Hws.
  { vm_compute. reflexivity. }
  split.
  - exact (join_notifies_the_others (P:=platform) joined_and_connected "c2"
             message {| readyState := OPEN; sent := [] |}
             (reachable_registry_ok _ joined_and_connected_reachable)
             Hroom Hc Hws eq_refl).
  - vm_compute. reflexivity.
Defined.

Lemma first_join_subscribes_once_witness :
  let message := message_of JOIN_ROOM "r1" None in
  let before :=
    handleJoinRoom_until_subscribe (P:=FaultyPlatform.platform) "c1" message in
  let after :=
    handleJoinRoom_after_subscribe (P:=FaultyPlatform.platform) "c1" in
  let s1 := exec before faulty_connected in
  let closed := exec (dispatch (P:=FaultyPlatform.platform) (Close "c1")) s1 in
  result before faulty_connected = Normal true
  ∧ subscribes "r1" s1 = false
  ∧ (∃ ws2,
       clientConnections s1 !! "c1" = Some ws2
       ∧ after true s1
         = (with_clientConnections
              (insert "c1"
                 (after_send ws2
                    (error_message "Failed to subscribe to room updates"
                       (Date_now_at (Platform:=FaultyPlatform.platform)
                          (clock s1)))))
              (exec Date_now s1),
            Normal tt))
  ∧ after true closed = (exec Date_now closed, Normal tt).
Proof.
  intros message before after s1 closed.
  assert (roomId message ≠ EmptyString) as Hroom by discriminate.
  assert ("c1"%string ≠ EmptyString) as Hc by discriminate.
  assert (clientConnections faulty_connected !! "c1"
          = Some {| readyState := OPEN; sent := [] |}) as Hws.
  { vm_compute. reflexivity. }
  assert (reachable (P:=FaultyPlatform.platform) faulty_connected) as Hf.
  { apply (reachable_step (initial "i1") (Connection "c1")). constructor. }
  assert (subscribe_rejected (P:=FaultyPlatform.platform) "r1" faulty_connected
          = true) as Hrejected by (vm_compute; reflexivity).
  assert (clientConnections closed !! "c1" = None) as Hgone
    by (vm_compute; reflexivity).
  pose proof (first_join_subscribes_once (P:=FaultyPlatform.platform)
                faulty_connected s1 "c1" message
                {| readyState := OPEN; sent := [] |}
                (reachable_registry_ok _ Hf) Hroom Hc Hws eq_refl)
    as (_ & (_ & _ & Hsub & (t1 & t2 & t3 & Hsock) & _ & Hres) & _ & Hopen & _).
  pose proof (first_join_subscribes_once (P:=FaultyPlatform.platform)
                faulty_connected closed "c1" message
                {| readyState := OPEN; sent := [] |}
                (reachable_registry_ok _ Hf) Hroom Hc Hws eq_refl)
    as (_ & _ & _ & _ & Hclosed & _).
  exact (conj (eq_trans Hres (f_equal Normal Hrejected)) (conj Hsub
           (conj (ex_intro _ _ (conj Hsock (Hopen _ Hsock eq_refl)))
              (Hclosed (or_introl Hgone))))).
Defined.

Lemma leave_follows_the_record_witness :
  let message := message_of LEAVE_ROOM "r9" None in
  let s1 := exec (removeClientFromRoom "c1") two_members in
  let s' := exec (handleLeaveRoom "c1" message) two_members in
  roomManager s' = roomManager s1
  ∧ roomClients (roomManager s1) !! "r1" = Some {["c2"%string]}
  ∧ is_recipient "r9" (Some "c1"%string) s1 "c2" = false.
Proof.
  intros message s1 s'.
  pose proof (leave_follows_the_record (P:=platform) two_members "c1" message)
    as [_ Hleave].
  assert (roomId message ≠ EmptyString) as Hroom by discriminate.
  destruct (Hleave Hroom (reachable_registry_ok _ two_members_reachable))
    as (Hrm & _).
  split; [exact Hrm|]. split; vm_compute; reflexivity.
Defined.

Lemma disconnect_cleans_up_witness :
  let s1 := exec (removeClientFromRoom "c1") joined in
  let s' := exec (dispatch (Close "c1")) joined in
  (clientConnections s' !! "c1" = None
   ∧ clients (roomManager s') !! "c1" = None
   ∧ roomManager s' = roomManager s1 ∧ crdt s' = crdt s1
   ∧ redis s' = redis joined
   ∧ (∀ client, clients (roomManager joined) !! "c1" = Some client →
        "c1" ∉ default ∅ (roomClients (roomManager s')
                             !! client_roomId client)))
  ∧ rooms (roomManager s1) !! "r1" = None
  ∧ documents (crdt s1) !! "r1" = None.
Proof.
  intros s1 s'. split.
  - exact (disconnect_cleans_up (P:=platform) joined "c1" joined_reachable).
  - split; vm_compute; reflexivity.
Defined.


Lemma frame_r1_ok : frame_ok frame_r1.
Proof. split; vm_compute; reflexivity. Qed.

Lemma binary_frame_applies_its_bytes_witness :
  let ws := {| readyState := OPEN; sent := [] |} in
  let r := (frame_fields frame_r1).1.1 in
  let bytes := (frame_fields frame_r1).2 in
  let s' := exec (handleMessage "c1" (DataBuffer frame_r1)) connected in
  (documents (crdt s')
   = updated_documents r bytes (documents (crdt connected))
   ∧ ("c1"%string ≠ EmptyString → registry_ok connected →
      clientConnections s' !! "c1" = Some ws))
  ∧ r = "r1"%string ∧ bytes = ["007"; "008"; "009"]%char.
Proof.
  intros ws r bytes s'.
  assert (clientConnections connected !! "c1" = Some ws) as Hws.
  { vm_compute. reflexivity. }
  pose proof (binary_frame_applies_its_bytes (P:=platform) connected "c1"
                frame_r1 ws frame_r1_ok Hws) as [Happlied _].
  split.
  - apply Happlied.
    + vm_compute. discriminate.
    + vm_compute. reflexivity.
  - split; vm_compute; reflexivity.
Defined.


Lemma no_event_throws_witness :
  let s := exec (dispatch (SocketState "c1" CONNECTING)) connected in
  let message := message_of ACK "r1" None in
  result (dispatch (Message "c1" (DataString "{J:r2}"))) s = Normal tt
  ∧ result (ws_send "c1" message) s = Thrown
  ∧ result (publish (channel_of "r1") (sync_message "i1" "c1" "AQID" 0))
      (initial (P:=FaultyPlatform.platform) "i1") = Thrown.
Proof.
  intros s message.
  pose proof (no_event_throws (P:=platform)
                (Message "c1" (DataString "{J:r2}")) s)
    as (Hnormal & Hsend & _).
  pose proof (no_event_throws (P:=FaultyPlatform.platform)
                MetricsTick (initial "i1")) as (_ & _ & Hpublish).
  split; [exact Hnormal|]. split.
  - apply (Hsend "c1"%string message {| readyState := CONNECTING; sent := [] |}).
    + vm_compute. reflexivity.
    + reflexivity.
  - apply Hpublish. vm_compute. reflexivity.
Defined.

Lemma stale_member_keeps_room_witness :
  let doc := Y_Map_set Y_Doc_new "title" "Doc"%string in
  let s1 := exec (removeClientFromRoom "c1") moved_on in
  let s2 := exec (addClientToRoom "c2" "r1" "i1") s1 in
  documents (crdt moved_on) !! "r1" = Some doc
  ∧ clients (roomManager s1) !! "c1" = None
  ∧ roomClients (roomManager s1) !! "r1" = Some {["c1"]}
  ∧ documents (crdt s1) !! "r1" = Some doc
  ∧ roomClients (roomManager s2) !! "r1" = Some ({["c1"]} ∪ {["c2"]})
  ∧ result (getDocumentState "r1") s2 = Normal (Y_encodeStateAsUpdate doc)
  ∧ (let s3 := run [Close "c1"; Connection "c2";
                     Message "c2" (DataString "{J:r1}")] moved_on in
     roomClients (roomManager s3) !! "r1" = Some ({["c1"]} ∪ {["c2"]})
     ∧ documents (crdt s3) !! "r1" = Some doc).
Proof.
  intros doc s1 s2.
  assert (∃ client room,
            clients (roomManager moved_on) !! "c1" = Some client
            ∧ client_roomId client ≠ "r1"
            ∧ rooms (roomManager moved_on) !! "r1" = Some room)
    as (client & room & Hclient & Hother & Hroom).
  { vm_compute. eexists _, _. split; [reflexivity|].
    split; [|reflexivity]. intros Heq. inversion Heq. }
  assert (roomClients (roomManager moved_on) !! "r1" = Some {["c1"]})
    as Hmembers by (vm_compute; reflexivity).
  assert (documents (crdt moved_on) !! "r1" = Some doc)
    as Hdoc by (vm_compute; reflexivity).
  pose proof (stale_member_keeps_room (P:=platform) moved_on "c1" "r1" client
                room doc Hclient Hother Hmembers Hroom Hdoc)
    as (H1 & _ & H3 & H4 & Hjoin).
  destruct (Hjoin "c2" "i1") as (_ & H6 & _ & H8).
  assert (let s3 := run [Close "c1"; Connection "c2";
                          Message "c2" (DataString "{J:r1}")] moved_on in
          roomClients (roomManager s3) !! "r1" = Some ({["c1"]} ∪ {["c2"]})
          ∧ documents (crdt s3) !! "r1" = Some doc) as Hclose
    by (vm_compute; split; reflexivity).
  exact (conj Hdoc (conj H1 (conj H3 (conj H4 (conj H6 (conj H8 Hclose)))))).
Defined.

End FurtherConcrete.
